(** * Payment service: record store, gateway, event publisher, orchestrator

    A shallow embedding of the payment core of the repository
    ([services/payment-service/src]):

    - [models/payment.py]            enums, [Payment], request/response schemas
    - [database/models.py]           the [payments] and [refunds] tables
    - [database/repository.py]       [PaymentRepository]
    - [services/payment_processor.py] [PaymentProcessor] (the simulated gateway)
    - [services/event_publisher.py]  [EventPublisher]
    - [services/payment_service.py]  [PaymentService]

    Modelling conventions.

    - Amounts ([float] in the source) are only ever compared and copied by the
      code; they are integers of minor units here ([10000] is 100.00).
    - [datetime] values are clock readings in [Z].
    - Python dictionaries are association lists from keys to JSON-like values.
    - Everything the code obtains from outside (database availability, the
      random generator, [uuid4], the clock, the Kafka producer) is read from an
      environment [Env] of oracles, indexed by how many times the program has
      consulted each of them; the counters live in the [World].
    - Exceptions are values; every repository, gateway and publisher method is
      a function [World -> result A * World]. All modelled exceptions are
      subclasses of Python's [Exception]. *)

From Stdlib Require Import ZArith String List Bool Lia Arith.
Import ListNotations.
Local Open Scope string_scope.
Local Open Scope Z_scope.

(** ** models/payment.py *)

Inductive PaymentMethod := CREDIT_CARD | DEBIT_CARD | PAYPAL | STRIPE.

Inductive PaymentStatus :=
| PENDING | PROCESSING | AUTHORIZED | CAPTURED | FAILED | REFUNDED
| PARTIALLY_REFUNDED.

Inductive Currency := USD | EUR | GBP.

Definition PaymentMethod_value (m : PaymentMethod) : string :=
  match m with
  | CREDIT_CARD => "credit_card"
  | DEBIT_CARD => "debit_card"
  | PAYPAL => "paypal"
  | STRIPE => "stripe"
  end.

Definition PaymentStatus_value (s : PaymentStatus) : string :=
  match s with
  | PENDING => "pending"
  | PROCESSING => "processing"
  | AUTHORIZED => "authorized"
  | CAPTURED => "captured"
  | FAILED => "failed"
  | REFUNDED => "refunded"
  | PARTIALLY_REFUNDED => "partially_refunded"
  end.

Definition Currency_value (c : Currency) : string :=
  match c with USD => "USD" | EUR => "EUR" | GBP => "GBP" end.

Definition PaymentStatus_eqb (a b : PaymentStatus) : bool :=
  match a, b with
  | PENDING, PENDING | PROCESSING, PROCESSING | AUTHORIZED, AUTHORIZED
  | CAPTURED, CAPTURED | FAILED, FAILED | REFUNDED, REFUNDED
  | PARTIALLY_REFUNDED, PARTIALLY_REFUNDED => true
  | _, _ => false
  end.

(** JSON-like values held by the dictionaries of the source. [VIso t] is the
    string [t.isoformat()] of the clock reading [t]. *)
Inductive Value :=
| VBool (b : bool)
| VStr (s : string)
| VNum (z : Z)
| VIso (t : Z)
| VNone.

Definition dict := list (string * Value).

Fixpoint dict_get (k : string) (d : dict) : option Value :=
  match d with
  | [] => None
  | (k', v) :: d' => if String.eqb k k' then Some v else dict_get k d'
  end.

(** Python truthiness of a value. *)
Definition truthy (v : Value) : bool :=
  match v with
  | VBool b => b
  | VStr s => negb (String.eqb s "")
  | VNum z => negb (Z.eqb z 0)
  | VIso _ => true
  | VNone => false
  end.

Record ProcessPaymentRequest := {
  pr_order_id : string;
  pr_amount : Z;
  pr_currency : Currency;
  pr_payment_method : PaymentMethod;
  pr_payment_method_details : option dict
}.

Record RefundRequest := {
  rr_transaction_id : string;
  rr_amount : Z;
  rr_reason : option string
}.

Record Payment := {
  id : string;
  order_id : string;
  amount : Z;
  currency : Currency;
  payment_method : PaymentMethod;
  status : PaymentStatus;
  transaction_id : option string;
  payment_intent_id : option string;
  provider_response : option dict;
  error_message : option string;
  created_at : Z;
  updated_at : Z;
  authorized_at : option Z;
  captured_at : option Z;
  refunded_at : option Z
}.

Record PaymentResponse := {
  resp_success : bool;
  resp_transaction_id : option string;
  resp_payment_intent_id : option string;
  resp_status : PaymentStatus;
  resp_error : option string
}.

Record RefundResponse := {
  rresp_success : bool;
  rresp_refund_id : option string;
  rresp_amount : Z;
  rresp_error : option string
}.

(** ** database/models.py

    The [currency], [payment_method] and [status] columns hold the [.value]
    string of the corresponding enum member and are read back through the enum
    constructor; the rows keep the member itself. *)

Record PaymentModel := {
  pm_id : string;
  pm_order_id : string;
  pm_amount : Z;
  pm_currency : Currency;
  pm_payment_method : PaymentMethod;
  pm_status : PaymentStatus;
  pm_transaction_id : option string;
  pm_payment_intent_id : option string;
  pm_provider_response : option dict;
  pm_error_message : option string;
  pm_created_at : Z;
  pm_updated_at : Z;
  pm_authorized_at : option Z;
  pm_captured_at : option Z;
  pm_refunded_at : option Z
}.

Record RefundModel := {
  rf_id : string;
  rf_payment_id : string;
  rf_refund_id : string;
  rf_amount : Z;
  rf_reason : option string;
  rf_created_at : Z
}.

(** ** Exceptions, environment and world *)

Record exn := Exn { exn_class : string; exn_str : string }.

Definition KeyError (k : string) : exn := Exn "KeyError" ("'" ++ k ++ "'").
Definition TypeError (k : string) : exn := Exn "TypeError" k.
Definition AttributeError (a : string) : exn :=
  Exn "AttributeError" ("'NoneType' object has no attribute '" ++ a ++ "'").
Definition IntegrityError (c : string) : exn := Exn "IntegrityError" c.
Definition MultipleResultsFound : exn :=
  Exn "MultipleResultsFound"
      "Multiple rows were found when one or none was required".

Inductive result (A : Type) :=
| Ok (a : A)
| Raise (e : exn).
Arguments Ok {A} a.
Arguments Raise {A} e.

(** The calls received by the gateway, in the order of the [logger.info] line
    that opens each of its methods. *)
Inductive GatewayCall :=
| GwAuthorize (amount : Z) (method : PaymentMethod)
| GwCapture (payment_intent_id : string) (amount : Z)
| GwRefund (transaction_id : string) (amount : Z) (reason : option string)
| GwVoid (payment_intent_id : string).

(** The wire format of an event: [{event_type, payment_id, timestamp, data}]. *)
Record Event := {
  event_type : string;
  ev_payment_id : string;
  ev_timestamp : Z;
  ev_data : dict
}.

Record Env := {
  (** [None]: the n-th database round trip goes through; [Some e]: it raises. *)
  store_fault : nat -> option exn;
  (** the n-th use of the random generator, as [random.random() < 0.95] ... *)
  random_below_rate : nat -> bool;
  (** ... or as the index picked by [random.choice] *)
  random_index : nat -> nat;
  (** [uuid.uuid4().hex] of the n-th UUID *)
  uuid4_hex : nat -> string;
  (** the n-th reading of [datetime.utcnow()] *)
  clock : nat -> Z;
  (** [None]: the n-th [producer.send] is accepted; [Some e]: it raises. *)
  send_fault : nat -> option exn;
  (** the text of a status member inside an f-string (its value up to Python
      3.10, its qualified name from 3.11 on) *)
  format_status : PaymentStatus -> string
}.

Record World := mkWorld {
  payments : list PaymentModel;
  refunds : list RefundModel;
  db_trips : nat;
  rng_draws : nat;
  uuid_draws : nat;
  clock_reads : nat;
  sends : nat;
  gateway_log : list GatewayCall;
  (** every event handed to [producer.send], accepted or not *)
  publish_log : list Event;
  (** the events the producer accepted *)
  topic_log : list Event
}.

Definition initial_world : World :=
  mkWorld [] [] 0 0 0 0 0 [] [] [].

Definition M (A : Type) : Type := World -> result A * World.

Definition ret {A} (a : A) : M A := fun w => (Ok a, w).

Definition bind {A B} (m : M A) (k : A -> M B) : M B :=
  fun w =>
    match m w with
    | (Ok a, w') => k a w'
    | (Raise e, w') => (Raise e, w')
    end.

Definition raise {A} (e : exn) : M A := fun w => (Raise e, w).

(** [try: body / except Exception as e: handler e] *)
Definition try_except {A} (body : M A) (handler : exn -> M A) : M A :=
  fun w =>
    match body w with
    | (Ok a, w') => (Ok a, w')
    | (Raise e, w') => handler e w'
    end.

Declare Scope monad_scope.
Delimit Scope monad_scope with monad.
Notation "x <- c ;; k" := (bind c (fun x => k))
  (at level 61, c at next level, right associativity) : monad_scope.
Notation "c ;;; k" := (bind c (fun _ => k))
  (at level 61, right associativity) : monad_scope.
Local Open Scope monad_scope.

(** [d[k]]: raises [KeyError] when the key is absent. *)
Definition subscript (d : dict) (k : string) : M Value :=
  match dict_get k d with
  | Some v => ret v
  | None => raise (KeyError k)
  end.

(** A value passed where the callee declares [str]. *)
Definition as_str (k : string) (v : Value) : M string :=
  match v with
  | VStr s => ret s
  | _ => raise (TypeError k)
  end.

(** [d.get(k, default)] where a string is expected. *)
Definition dict_get_str (d : dict) (k : string) (default : string) : M string :=
  match dict_get k d with
  | Some v => as_str k v
  | None => ret default
  end.

(** [str(uuid)] from [uuid.hex]: groups of 8-4-4-4-12 digits. *)
Definition uuid_str (h : string) : string :=
  substring 0 8 h ++ "-" ++ substring 8 4 h ++ "-" ++ substring 12 4 h
  ++ "-" ++ substring 16 4 h ++ "-" ++ substring 20 12 h.


Section Service.

Variable env : Env.

(** *** Consulting the environment *)

Definition set_payments (ps : list PaymentModel) (w : World) : World :=
  mkWorld ps (refunds w) (db_trips w) (rng_draws w) (uuid_draws w)
          (clock_reads w) (sends w) (gateway_log w) (publish_log w)
          (topic_log w).

Definition set_refunds (rs : list RefundModel) (w : World) : World :=
  mkWorld (payments w) rs (db_trips w) (rng_draws w) (uuid_draws w)
          (clock_reads w) (sends w) (gateway_log w) (publish_log w)
          (topic_log w).

(** One database round trip ([execute], [commit], [refresh]). *)
Definition db_tick (w : World) : World :=
  mkWorld (payments w) (refunds w) (S (db_trips w)) (rng_draws w)
          (uuid_draws w) (clock_reads w) (sends w) (gateway_log w)
          (publish_log w) (topic_log w).

Definition rng_tick (w : World) : World :=
  mkWorld (payments w) (refunds w) (db_trips w) (S (rng_draws w))
          (uuid_draws w) (clock_reads w) (sends w) (gateway_log w)
          (publish_log w) (topic_log w).

Definition uuid_tick (w : World) : World :=
  mkWorld (payments w) (refunds w) (db_trips w) (rng_draws w)
          (S (uuid_draws w)) (clock_reads w) (sends w) (gateway_log w)
          (publish_log w) (topic_log w).

Definition clock_tick (w : World) : World :=
  mkWorld (payments w) (refunds w) (db_trips w) (rng_draws w)
          (uuid_draws w) (S (clock_reads w)) (sends w) (gateway_log w)
          (publish_log w) (topic_log w).

Definition log_call (c : GatewayCall) (w : World) : World :=
  mkWorld (payments w) (refunds w) (db_trips w) (rng_draws w)
          (uuid_draws w) (clock_reads w) (sends w) (gateway_log w ++ [c])
          (publish_log w) (topic_log w).

(** A [producer.send] of [event]; [accepted] tells whether it went through. *)
Definition log_send (event : Event) (accepted : bool) (w : World) : World :=
  mkWorld (payments w) (refunds w) (db_trips w) (rng_draws w)
          (uuid_draws w) (clock_reads w) (S (sends w)) (gateway_log w)
          (publish_log w ++ [event])
          (if accepted then topic_log w ++ [event] else topic_log w).

(** One database round trip ([execute], [commit], [refresh]). *)
Definition db_trip : M unit :=
  fun w =>
    match store_fault env (db_trips w) with
    | None => (Ok tt, db_tick w)
    | Some e => (Raise e, db_tick w)
    end.

(** [uuid.uuid4().hex] *)
Definition uuid4 : M string :=
  fun w => (Ok (uuid4_hex env (uuid_draws w)), uuid_tick w).

(** [datetime.utcnow()] *)
Definition utcnow : M Z :=
  fun w => (Ok (clock env (clock_reads w)), clock_tick w).

Definition read_payments : M (list PaymentModel) := fun w => (Ok (payments w), w).
Definition read_refunds : M (list RefundModel) := fun w => (Ok (refunds w), w).
Definition write_payments (ps : list PaymentModel) : M unit :=
  fun w => (Ok tt, set_payments ps w).
Definition write_refunds (rs : list RefundModel) : M unit :=
  fun w => (Ok tt, set_refunds rs w).

(** ** database/repository.py *)

Definition _to_domain (db_payment : PaymentModel) : Payment :=
  {| id := pm_id db_payment;
     order_id := pm_order_id db_payment;
     amount := pm_amount db_payment;
     currency := pm_currency db_payment;
     payment_method := pm_payment_method db_payment;
     status := pm_status db_payment;
     transaction_id := pm_transaction_id db_payment;
     payment_intent_id := pm_payment_intent_id db_payment;
     provider_response := pm_provider_response db_payment;
     error_message := pm_error_message db_payment;
     created_at := pm_created_at db_payment;
     updated_at := pm_updated_at db_payment;
     authorized_at := pm_authorized_at db_payment;
     captured_at := pm_captured_at db_payment;
     refunded_at := pm_refunded_at db_payment |}.

(** [result.scalar_one_or_none()] followed by [_to_domain]. *)
Definition scalar_one_or_none (rows : list PaymentModel) : M (option Payment) :=
  match rows with
  | [] => ret None
  | [db_payment] => ret (Some (_to_domain db_payment))
  | _ => raise MultipleResultsFound
  end.

Definition opt_eqb (a : option string) (b : string) : bool :=
  match a with
  | Some s => String.eqb s b
  | None => false
  end.

Definition get_by_id (payment_id : string) : M (option Payment) :=
  db_trip ;;;
  rows <- read_payments ;;
  scalar_one_or_none (filter (fun r => String.eqb (pm_id r) payment_id) rows).

Definition get_by_order_id (oid : string) : M (option Payment) :=
  db_trip ;;;
  rows <- read_payments ;;
  scalar_one_or_none (filter (fun r => String.eqb (pm_order_id r) oid) rows).

Definition get_by_transaction_id (tid : string) : M (option Payment) :=
  db_trip ;;;
  rows <- read_payments ;;
  scalar_one_or_none (filter (fun r => opt_eqb (pm_transaction_id r) tid) rows).

(** [update(PaymentModel).where(PaymentModel.id == payment_id).values(...)]:
    every row with that id is rewritten by [f], the others are kept. *)
Definition update_where_id (payment_id : string)
    (f : PaymentModel -> PaymentModel) (rows : list PaymentModel)
  : list PaymentModel :=
  map (fun r => if String.eqb (pm_id r) payment_id then f r else r) rows.

Definition create_payment (oid : string) (amt : Z) (cur : Currency)
    (meth : PaymentMethod) : M Payment :=
  u <- uuid4 ;;
  let payment_id := uuid_str u in
  t_created <- utcnow ;;
  t_updated <- utcnow ;;
  let db_payment :=
    {| pm_id := payment_id;
       pm_order_id := oid;
       pm_amount := amt;
       pm_currency := cur;
       pm_payment_method := meth;
       pm_status := PENDING;
       pm_transaction_id := None;
       pm_payment_intent_id := None;
       pm_provider_response := None;
       pm_error_message := None;
       pm_created_at := t_created;
       pm_updated_at := t_updated;
       pm_authorized_at := None;
       pm_captured_at := None;
       pm_refunded_at := None |} in
  (* session.add(db_payment); await session.commit() *)
  db_trip ;;;
  rows <- read_payments ;;
  (if existsb (fun r => String.eqb (pm_id r) payment_id) rows
   then raise (IntegrityError "payments.id")
   else write_payments (rows ++ [db_payment])) ;;;
  (* await session.refresh(db_payment) *)
  db_trip ;;;
  ret (_to_domain db_payment).

Definition set_status (s : PaymentStatus) (now : Z) (r : PaymentModel)
  : PaymentModel :=
  {| pm_id := pm_id r;
     pm_order_id := pm_order_id r;
     pm_amount := pm_amount r;
     pm_currency := pm_currency r;
     pm_payment_method := pm_payment_method r;
     pm_status := s;
     pm_transaction_id := pm_transaction_id r;
     pm_payment_intent_id := pm_payment_intent_id r;
     pm_provider_response := pm_provider_response r;
     pm_error_message := pm_error_message r;
     pm_created_at := pm_created_at r;
     pm_updated_at := now;
     pm_authorized_at := pm_authorized_at r;
     pm_captured_at := pm_captured_at r;
     pm_refunded_at := pm_refunded_at r |}.

Definition update_status (payment_id : string) (s : PaymentStatus)
  : M (option Payment) :=
  now <- utcnow ;;
  (* await session.execute(stmt); await session.commit() *)
  db_trip ;;;
  rows <- read_payments ;;
  write_payments (update_where_id payment_id (set_status s now) rows) ;;;
  get_by_id payment_id.

Definition set_success (tid iid : string) (resp : dict) (now : Z)
    (r : PaymentModel) : PaymentModel :=
  {| pm_id := pm_id r;
     pm_order_id := pm_order_id r;
     pm_amount := pm_amount r;
     pm_currency := pm_currency r;
     pm_payment_method := pm_payment_method r;
     pm_status := CAPTURED;
     pm_transaction_id := Some tid;
     pm_payment_intent_id := Some iid;
     pm_provider_response := Some resp;
     pm_error_message := pm_error_message r;
     pm_created_at := pm_created_at r;
     pm_updated_at := now;
     pm_authorized_at := Some now;
     pm_captured_at := Some now;
     pm_refunded_at := pm_refunded_at r |}.

(** The [unique=True] columns of [payments]: the statement is refused when it
    would give the row a transaction id or an intent id that another row
    already carries. *)
Definition unique_clash (payment_id tid iid : string)
    (rows : list PaymentModel) : bool :=
  existsb (fun r => String.eqb (pm_id r) payment_id) rows
  && existsb (fun r => negb (String.eqb (pm_id r) payment_id)
                       && (opt_eqb (pm_transaction_id r) tid
                           || opt_eqb (pm_payment_intent_id r) iid)) rows.

Definition update_payment_success (payment_id tid iid : string) (resp : dict)
  : M (option Payment) :=
  now <- utcnow ;;
  db_trip ;;;
  rows <- read_payments ;;
  (if unique_clash payment_id tid iid rows
   then raise (IntegrityError "payments.transaction_id")
   else write_payments
          (update_where_id payment_id (set_success tid iid resp now) rows)) ;;;
  get_by_id payment_id.

Definition set_failure (msg : string) (resp : option dict) (now : Z)
    (r : PaymentModel) : PaymentModel :=
  {| pm_id := pm_id r;
     pm_order_id := pm_order_id r;
     pm_amount := pm_amount r;
     pm_currency := pm_currency r;
     pm_payment_method := pm_payment_method r;
     pm_status := FAILED;
     pm_transaction_id := pm_transaction_id r;
     pm_payment_intent_id := pm_payment_intent_id r;
     pm_provider_response := resp;
     pm_error_message := Some msg;
     pm_created_at := pm_created_at r;
     pm_updated_at := now;
     pm_authorized_at := pm_authorized_at r;
     pm_captured_at := pm_captured_at r;
     pm_refunded_at := pm_refunded_at r |}.

Definition update_payment_failure (payment_id msg : string)
    (resp : option dict) : M (option Payment) :=
  now <- utcnow ;;
  db_trip ;;;
  rows <- read_payments ;;
  write_payments (update_where_id payment_id (set_failure msg resp now) rows) ;;;
  get_by_id payment_id.

Definition add_refund_record (payment_id refund_id : string) (amt : Z)
    (reason : option string) : M unit :=
  u <- uuid4 ;;
  now <- utcnow ;;
  let refund :=
    {| rf_id := uuid_str u;
       rf_payment_id := payment_id;
       rf_refund_id := refund_id;
       rf_amount := amt;
       rf_reason := reason;
       rf_created_at := now |} in
  (* session.add(refund); await session.commit() *)
  db_trip ;;;
  rows <- read_payments ;;
  rs <- read_refunds ;;
  if existsb (fun r => String.eqb (rf_id r) (rf_id refund)) rs
  then raise (IntegrityError "refunds.id")
  else if existsb (fun r => String.eqb (rf_refund_id r) refund_id) rs
  then raise (IntegrityError "refunds.refund_id")
  else if negb (existsb (fun r => String.eqb (pm_id r) payment_id) rows)
  then raise (IntegrityError "refunds.payment_id")
  else write_refunds (rs ++ [refund]).

(** ** services/payment_processor.py *)

Definition log_gateway_call (c : GatewayCall) : M unit :=
  fun w => (Ok tt, log_call c w).

(** [await asyncio.sleep(0.1)] *)
Definition _simulate_processing : M unit := ret tt.

(** [random.random() < self.success_rate] *)
Definition _should_succeed : M bool :=
  fun w => (Ok (random_below_rate env (rng_draws w)), rng_tick w).

(** [random.choice(choices)] on a non-empty list *)
Definition random_choice (choices : list string) : M string :=
  fun w =>
    (Ok (nth (Nat.modulo (random_index env (rng_draws w)) (length choices))
             choices ""),
     rng_tick w).

Definition error_messages : list (string * string) :=
  [ ("insufficient_funds", "Insufficient funds in account");
    ("card_declined", "Card was declined by issuer");
    ("expired_card", "Card has expired");
    ("invalid_card", "Invalid card number");
    ("capture_failed", "Failed to capture payment");
    ("refund_failed", "Failed to process refund") ].

Fixpoint assoc_get (k : string) (l : list (string * string)) (default : string)
  : string :=
  match l with
  | [] => default
  | (k', v) :: l' => if String.eqb k k' then v else assoc_get k l' default
  end.

Definition _get_error_message (error_code : string) : string :=
  assoc_get error_code error_messages "Payment processing error".

Definition authorize_payment (amt : Z) (meth : PaymentMethod) (details : dict)
  : M dict :=
  log_gateway_call (GwAuthorize amt meth) ;;;
  _simulate_processing ;;;
  ok <- _should_succeed ;;
  if ok then
    u1 <- uuid4 ;;
    let payment_intent_id := "pi_" ++ substring 0 24 u1 in
    u2 <- uuid4 ;;
    let transaction_id := "txn_" ++ substring 0 16 u2 in
    now <- utcnow ;;
    ret [ ("success", VBool true);
          ("payment_intent_id", VStr payment_intent_id);
          ("transaction_id", VStr transaction_id);
          ("status", VStr "authorized");
          ("authorized_at", VIso now);
          ("amount", VNum amt);
          ("currency", VStr "USD") ]
  else
    error_code <- random_choice
                    ["insufficient_funds"; "card_declined"; "expired_card"] ;;
    let error_message := _get_error_message error_code in
    ret [ ("success", VBool false);
          ("error_code", VStr error_code);
          ("error_message", VStr error_message);
          ("status", VStr "failed") ].

Definition capture_payment (payment_intent_id : string) (amt : Z) : M dict :=
  log_gateway_call (GwCapture payment_intent_id amt) ;;;
  _simulate_processing ;;;
  ok <- _should_succeed ;;
  if ok then
    u <- uuid4 ;;
    let transaction_id := "txn_" ++ substring 0 16 u in
    now <- utcnow ;;
    ret [ ("success", VBool true);
          ("transaction_id", VStr transaction_id);
          ("payment_intent_id", VStr payment_intent_id);
          ("status", VStr "captured");
          ("captured_at", VIso now);
          ("amount", VNum amt) ]
  else
    ret [ ("success", VBool false);
          ("error_code", VStr "capture_failed");
          ("error_message", VStr "Failed to capture payment");
          ("status", VStr "failed") ].

(** [PaymentProcessor.process_payment]: authorize, then capture. *)
Definition gateway_process_payment (amt : Z) (meth : PaymentMethod)
    (details : dict) : M dict :=
  auth_result <- authorize_payment amt meth details ;;
  ok <- subscript auth_result "success" ;;
  if negb (truthy ok) then ret auth_result
  else
    v <- subscript auth_result "payment_intent_id" ;;
    payment_intent_id <- as_str "payment_intent_id" v ;;
    capture_result <- capture_payment payment_intent_id amt ;;
    ret capture_result.

(** [PaymentProcessor.refund_payment] *)
Definition gateway_refund_payment (tid : string) (amt : Z)
    (reason : option string) : M dict :=
  log_gateway_call (GwRefund tid amt reason) ;;;
  _simulate_processing ;;;
  ok <- _should_succeed ;;
  if ok then
    u <- uuid4 ;;
    let refund_id := "re_" ++ substring 0 16 u in
    now <- utcnow ;;
    ret [ ("success", VBool true);
          ("refund_id", VStr refund_id);
          ("transaction_id", VStr tid);
          ("amount", VNum amt);
          ("status", VStr "refunded");
          ("refunded_at", VIso now) ]
  else
    ret [ ("success", VBool false);
          ("error_code", VStr "refund_failed");
          ("error_message", VStr "Failed to process refund") ].

Definition void_authorization (payment_intent_id : string) : M dict :=
  log_gateway_call (GwVoid payment_intent_id) ;;;
  _simulate_processing ;;;
  ret [ ("success", VBool true);
        ("payment_intent_id", VStr payment_intent_id);
        ("status", VStr "voided") ].

(** ** services/event_publisher.py *)

(** [await self.producer.send(topic=self.topic, key=payment_id, value=event)] *)
Definition producer_send (event : Event) : M unit :=
  fun w =>
    match send_fault env (sends w) with
    | None => (Ok tt, log_send event true w)
    | Some e => (Raise e, log_send event false w)
    end.

Definition _publish_event (etype : string) (payment_id : string) (data : dict)
  : M unit :=
  try_except
    (now <- utcnow ;;
     let event :=
       {| event_type := etype;
          ev_payment_id := payment_id;
          ev_timestamp := now;
          ev_data := data |} in
     producer_send event)
    (fun e => (* logger.error("Failed to publish event", ...) *) ret tt).

Definition opt_value (o : option string) : Value :=
  match o with
  | Some s => VStr s
  | None => VNone
  end.

Definition publish_payment_successful (payment : Payment) : M unit :=
  _publish_event "payment.successful" (id payment)
    [ ("order_id", VStr (order_id payment));
      ("amount", VNum (amount payment));
      ("currency", VStr (Currency_value (currency payment)));
      ("payment_method", VStr (PaymentMethod_value (payment_method payment)));
      ("transaction_id", opt_value (transaction_id payment));
      ("payment_intent_id", opt_value (payment_intent_id payment)) ].

Definition publish_payment_failed (payment : Payment) (msg : string) : M unit :=
  _publish_event "payment.failed" (id payment)
    [ ("order_id", VStr (order_id payment));
      ("amount", VNum (amount payment));
      ("currency", VStr (Currency_value (currency payment)));
      ("payment_method", VStr (PaymentMethod_value (payment_method payment)));
      ("error", VStr msg) ].

Definition publish_payment_refunded (payment : Payment) (refund_id : string)
    (amt : Z) : M unit :=
  _publish_event "payment.refunded" (id payment)
    [ ("order_id", VStr (order_id payment));
      ("refund_id", VStr refund_id);
      ("amount", VNum amt);
      ("original_amount", VNum (amount payment));
      ("currency", VStr (Currency_value (currency payment))) ].

(** ** services/payment_service.py *)

(** [payment.<attr>] on a value that may be [None]. *)
Definition getattr (payment : option Payment) (attr : string) : M Payment :=
  match payment with
  | Some p => ret p
  | None => raise (AttributeError attr)
  end.

Definition subscript_str (d : dict) (k : string) : M string :=
  v <- subscript d k ;;
  as_str k v.

(** The [except Exception as e:] clause of [process_payment]. The local name
    [payment] is rebound inside the [try] block, so the clause is given the
    binding in force where the exception was raised. *)
Definition process_payment_except (payment : option Payment) (e : exn)
  : M PaymentResponse :=
  (* logger.error("Payment processing error", payment_id=payment.id, ...) *)
  p <- getattr payment "id" ;;
  update_payment_failure (id p) (exn_str e) None ;;;
  ret {| resp_success := false;
         resp_transaction_id := None;
         resp_payment_intent_id := None;
         resp_status := FAILED;
         resp_error := Some ("Payment processing error: " ++ exn_str e) |}.

(** Where the [try] block of [process_payment] stands once [payment] has been
    reassigned, or the response of the [except] clause if it was entered
    before that. *)
Inductive try_progress :=
| Handled (response : PaymentResponse)
| Succeeded (payment : option Payment) (tid iid : string)
| Declined (payment : option Payment) (error_message : string).

(** The [try] block of [process_payment] up to the reassignment of
    [payment]. *)
Definition process_payment_try (payment : Payment)
    (request : ProcessPaymentRequest) : M try_progress :=
  update_status (id payment) PROCESSING ;;;
  result <- gateway_process_payment (pr_amount request)
              (pr_payment_method request)
              (* request.payment_method_details or {} *)
              (match pr_payment_method_details request with
               | Some d => d
               | None => []
               end) ;;
  ok <- subscript result "success" ;;
  if truthy ok then
    tid <- subscript_str result "transaction_id" ;;
    iid <- subscript_str result "payment_intent_id" ;;
    payment' <- update_payment_success (id payment) tid iid result ;;
    ret (Succeeded payment' tid iid)
  else
    error_message <- dict_get_str result "error_message"
                       "Payment processing failed" ;;
    payment' <- update_payment_failure (id payment) error_message
                  (Some result) ;;
    ret (Declined payment' error_message).

(** The rest of the [try] block, with its [except] clause. *)
Definition process_payment_finish (progress : try_progress)
  : M PaymentResponse :=
  match progress with
  | Handled response => ret response
  | Succeeded payment' tid iid =>
      try_except
        (p <- getattr payment' "id" ;;
         publish_payment_successful p ;;;
         ret {| resp_success := true;
                resp_transaction_id := Some tid;
                resp_payment_intent_id := Some iid;
                resp_status := CAPTURED;
                resp_error := None |})
        (process_payment_except payment')
  | Declined payment' error_message =>
      try_except
        (p <- getattr payment' "id" ;;
         publish_payment_failed p error_message ;;;
         ret {| resp_success := false;
                resp_transaction_id := None;
                resp_payment_intent_id := None;
                resp_status := FAILED;
                resp_error := Some error_message |})
        (process_payment_except payment')
  end.

Definition process_payment (request : ProcessPaymentRequest)
  : M PaymentResponse :=
  payment <- create_payment (pr_order_id request) (pr_amount request)
               (pr_currency request) (pr_payment_method request) ;;
  progress <-
    try_except
      (process_payment_try payment request)
      (fun e =>
         response <- process_payment_except (Some payment) e ;;
         ret (Handled response)) ;;
  process_payment_finish progress.

(** [status in statuses] *)
Definition status_in (s : PaymentStatus) (statuses : list PaymentStatus)
  : bool :=
  existsb (PaymentStatus_eqb s) statuses.

Definition refund_payment (request : RefundRequest) : M RefundResponse :=
  found <- get_by_transaction_id (rr_transaction_id request) ;;
  match found with
  | None =>
      ret {| rresp_success := false;
             rresp_refund_id := None;
             rresp_amount := rr_amount request;
             rresp_error := Some "Payment not found" |}
  | Some payment =>
      if negb (status_in (status payment) [CAPTURED; PARTIALLY_REFUNDED]) then
        ret {| rresp_success := false;
               rresp_refund_id := None;
               rresp_amount := rr_amount request;
               rresp_error :=
                 Some ("Payment in status "
                       ++ format_status env (status payment)
                       ++ " cannot be refunded") |}
      else
        try_except
          (result <- gateway_refund_payment (rr_transaction_id request)
                       (rr_amount request) (rr_reason request) ;;
           ok <- subscript result "success" ;;
           if truthy ok then
             let new_status :=
               if rr_amount request >=? amount payment
               then REFUNDED else PARTIALLY_REFUNDED in
             update_status (id payment) new_status ;;;
             refund_id <- subscript_str result "refund_id" ;;
             add_refund_record (id payment) refund_id (rr_amount request)
               (rr_reason request) ;;;
             publish_payment_refunded payment refund_id (rr_amount request) ;;;
             ret {| rresp_success := true;
                    rresp_refund_id := Some refund_id;
                    rresp_amount := rr_amount request;
                    rresp_error := None |}
           else
             msg <- dict_get_str result "error_message"
                      "Refund processing failed" ;;
             ret {| rresp_success := false;
                    rresp_refund_id := None;
                    rresp_amount := rr_amount request;
                    rresp_error := Some msg |})
          (fun e =>
             ret {| rresp_success := false;
                    rresp_refund_id := None;
                    rresp_amount := rr_amount request;
                    rresp_error :=
                      Some ("Refund processing error: " ++ exn_str e) |})
  end.

Definition get_payment (payment_id : string) : M (option Payment) :=
  get_by_id payment_id.

Definition get_payment_by_order (oid : string) : M (option Payment) :=
  get_by_order_id oid.

Definition get_payment_by_transaction (tid : string) : M (option Payment) :=
  get_by_transaction_id tid.

End Service.

(** ** Observations on a world *)

(** The rows of [payments] whose primary key is [pid]. *)
Definition rows_with_id (pid : string) (w : World) : list PaymentModel :=
  filter (fun r => String.eqb (pm_id r) pid) (payments w).


(** A concrete environment: nothing fails, the n-th UUID is [n] written with
    32 hexadecimal digits, least significant digit first, and the clock
    advances by one at each reading. *)
Definition hex_digit (n : nat) : string :=
  substring (Nat.modulo n 16) 1 "0123456789abcdef".

Fixpoint hex_le (digits n : nat) : string :=
  match digits with
  | O => ""
  | S d => hex_digit n ++ hex_le d (Nat.div n 16)
  end.

Definition calm_env : Env :=
  {| store_fault := fun _ => None;
     random_below_rate := fun _ => true;
     random_index := fun _ => O;
     uuid4_hex := fun n => hex_le 32 n;
     clock := fun n => Z.of_nat n;
     send_fault := fun _ => None;
     format_status := PaymentStatus_value |}.

Definition order1 : ProcessPaymentRequest :=
  {| pr_order_id := "ORD-1";
     pr_amount := 10000;
     pr_currency := USD;
     pr_payment_method := CREDIT_CARD;
     pr_payment_method_details := None |}.

(** ** Closed form of a successful [refund_payment]

    The world reached and the dictionary returned when nothing fails, written
    out field by field; the run lemmas below show that the code computes
    them. *)

Definition refund_ok_result (env : Env) (tid : string) (amt : Z) (w : World)
  : dict :=
  [ ("success", VBool true);
    ("refund_id", VStr ("re_" ++ substring 0 16 (uuid4_hex env (uuid_draws w))));
    ("transaction_id", VStr tid);
    ("amount", VNum amt);
    ("status", VStr "refunded");
    ("refunded_at", VIso (clock env (clock_reads w))) ].

(** The status [refund_payment] writes for a request of [amt] against a
    payment of [original]. *)
Definition refund_status (amt original : Z) : PaymentStatus :=
  if amt >=? original then REFUNDED else PARTIALLY_REFUNDED.

(** The gateway-issued refund id of a refund started in world [w]. *)
Definition next_refund_id (env : Env) (w : World) : string :=
  "re_" ++ substring 0 16 (uuid4_hex env (uuid_draws w)).

(** The primary key of the refund row written by a refund started in [w]. *)
Definition next_refund_key (env : Env) (w : World) : string :=
  uuid_str (uuid4_hex env (S (uuid_draws w))).

Definition refund_row (env : Env) (request : RefundRequest) (p : Payment)
    (w : World) : RefundModel :=
  {| rf_id := next_refund_key env w;
     rf_payment_id := id p;
     rf_refund_id := next_refund_id env w;
     rf_amount := rr_amount request;
     rf_reason := rr_reason request;
     rf_created_at := clock env (S (S (clock_reads w))) |}.

Definition refund_event (env : Env) (request : RefundRequest) (p : Payment)
    (w : World) : Event :=
  {| event_type := "payment.refunded";
     ev_payment_id := id p;
     ev_timestamp := clock env (S (S (S (clock_reads w))));
     ev_data :=
       [ ("order_id", VStr (order_id p));
         ("refund_id", VStr (next_refund_id env w));
         ("amount", VNum (rr_amount request));
         ("original_amount", VNum (amount p));
         ("currency", VStr (Currency_value (currency p))) ] |}.

Definition is_none {A} (o : option A) : bool :=
  match o with None => true | Some _ => false end.

(** The world after a successful refund of [request], found payment [p],
    started (after the lookup) in world [w]. *)
Definition refund_world (env : Env) (request : RefundRequest) (p : Payment)
    (w : World) : World :=
  mkWorld
    (update_where_id (id p)
       (set_status (refund_status (rr_amount request) (amount p))
                   (clock env (S (clock_reads w))))
       (payments w))
    (refunds w ++ [refund_row env request p w])
    (3 + db_trips w)%nat
    (S (rng_draws w))
    (2 + uuid_draws w)%nat
    (4 + clock_reads w)%nat
    (S (sends w))
    (gateway_log w ++ [GwRefund (rr_transaction_id request) (rr_amount request)
                                (rr_reason request)])
    (publish_log w ++ [refund_event env request p w])
    (if is_none (send_fault env (sends w))
     then topic_log w ++ [refund_event env request p w]
     else topic_log w).

(** The key constraints of the two tables. *)
Definition payments_keyed (w : World) : Prop :=
  NoDup (map pm_id (payments w)).

(** No database round trip fails from world [w] on. *)
Definition store_available (env : Env) (w : World) : Prop :=
  forall n, (db_trips w <= n)%nat -> store_fault env n = None.

(** The keys of the refund row that a refund started in [w] will write are
    not in the [refunds] table yet. *)
Definition refund_keys_fresh (env : Env) (w : World) : Prop :=
  existsb (fun r => String.eqb (rf_id r) (next_refund_key env w)) (refunds w)
  = false /\
  existsb (fun r => String.eqb (rf_refund_id r) (next_refund_id env w))
          (refunds w) = false.

(** ** A worked run

    The order of the scenario of the specification, processed and refunded in
    the environment where nothing fails. *)

Definition world_captured : World :=
  snd (process_payment calm_env order1 initial_world).

Definition refund_of (tid : string) (amt : Z) : RefundRequest :=
  {| rr_transaction_id := tid; rr_amount := amt; rr_reason := None |}.

Definition order1_tid : string := "txn_3000000000000000".

Definition world_refunded : World :=
  snd (refund_payment calm_env (refund_of order1_tid 10000) world_captured).

(** An environment whose gateway declines everything. *)
Definition declining_env : Env :=
  {| store_fault := fun _ => None;
     random_below_rate := fun _ => false;
     random_index := fun _ => 1%nat;
     uuid4_hex := fun n => hex_le 32 n;
     clock := fun n => Z.of_nat n;
     send_fault := fun _ => None;
     format_status := PaymentStatus_value |}.

(** The first row of the [payments] table, as a domain object. *)
Definition first_payment (w : World) : Payment :=
  _to_domain
    (hd {| pm_id := ""; pm_order_id := ""; pm_amount := 0;
           pm_currency := USD; pm_payment_method := CREDIT_CARD;
           pm_status := PENDING; pm_transaction_id := None;
           pm_payment_intent_id := None; pm_provider_response := None;
           pm_error_message := None; pm_created_at := 0; pm_updated_at := 0;
           pm_authorized_at := None; pm_captured_at := None;
           pm_refunded_at := None |}
        (payments w)).

(** ** Closed form of a successful [process_payment] *)

(** The identifiers drawn by a [process_payment] started in world [w]: the
    payment's primary key, the intent id issued by [authorize_payment] and the
    transaction id issued by [capture_payment] (the one issued by
    [authorize_payment] is dropped). *)
Definition new_payment_id (env : Env) (w : World) : string :=
  uuid_str (uuid4_hex env (uuid_draws w)).

Definition new_intent_id (env : Env) (w : World) : string :=
  "pi_" ++ substring 0 24 (uuid4_hex env (S (uuid_draws w))).

Definition new_transaction_id (env : Env) (w : World) : string :=
  "txn_" ++ substring 0 16 (uuid4_hex env (3 + uuid_draws w)).

Definition capture_ok_result (env : Env) (request : ProcessPaymentRequest)
    (w : World) : dict :=
  [ ("success", VBool true);
    ("transaction_id", VStr (new_transaction_id env w));
    ("payment_intent_id", VStr (new_intent_id env w));
    ("status", VStr "captured");
    ("captured_at", VIso (clock env (4 + clock_reads w)));
    ("amount", VNum (pr_amount request)) ].

(** The row written by [create_payment]. *)
Definition pending_row (env : Env) (request : ProcessPaymentRequest)
    (w : World) : PaymentModel :=
  {| pm_id := new_payment_id env w;
     pm_order_id := pr_order_id request;
     pm_amount := pr_amount request;
     pm_currency := pr_currency request;
     pm_payment_method := pr_payment_method request;
     pm_status := PENDING;
     pm_transaction_id := None;
     pm_payment_intent_id := None;
     pm_provider_response := None;
     pm_error_message := None;
     pm_created_at := clock env (clock_reads w);
     pm_updated_at := clock env (S (clock_reads w));
     pm_authorized_at := None;
     pm_captured_at := None;
     pm_refunded_at := None |}.

(** The same row once the capture has been recorded. *)
Definition captured_row (env : Env) (request : ProcessPaymentRequest)
    (w : World) : PaymentModel :=
  set_success (new_transaction_id env w) (new_intent_id env w)
    (capture_ok_result env request w) (clock env (5 + clock_reads w))
    (set_status PROCESSING (clock env (2 + clock_reads w))
       (pending_row env request w)).

Definition successful_event (env : Env) (request : ProcessPaymentRequest)
    (w : World) : Event :=
  {| event_type := "payment.successful";
     ev_payment_id := new_payment_id env w;
     ev_timestamp := clock env (6 + clock_reads w);
     ev_data :=
       [ ("order_id", VStr (pr_order_id request));
         ("amount", VNum (pr_amount request));
         ("currency", VStr (Currency_value (pr_currency request)));
         ("payment_method",
          VStr (PaymentMethod_value (pr_payment_method request)));
         ("transaction_id", VStr (new_transaction_id env w));
         ("payment_intent_id", VStr (new_intent_id env w)) ] |}.

(** The world after a [process_payment] in which nothing failed. *)
Definition process_world (env : Env) (request : ProcessPaymentRequest)
    (w : World) : World :=
  mkWorld
    (payments w ++ [captured_row env request w])
    (refunds w)
    (6 + db_trips w)%nat
    (2 + rng_draws w)%nat
    (4 + uuid_draws w)%nat
    (7 + clock_reads w)%nat
    (S (sends w))
    (gateway_log w ++
       [ GwAuthorize (pr_amount request) (pr_payment_method request);
         GwCapture (new_intent_id env w) (pr_amount request) ])
    (publish_log w ++ [successful_event env request w])
    (if is_none (send_fault env (sends w))
     then topic_log w ++ [successful_event env request w]
     else topic_log w).

(** The keys a [process_payment] started in [w] will write are not in the
    [payments] table yet. *)
Definition payment_keys_fresh (env : Env) (w : World) : Prop :=
  existsb (fun r => String.eqb (pm_id r) (new_payment_id env w)) (payments w)
  = false /\
  existsb (fun r => opt_eqb (pm_transaction_id r) (new_transaction_id env w)
                    || opt_eqb (pm_payment_intent_id r) (new_intent_id env w))
          (payments w) = false.

(** Both draws of the gateway during a [process_payment] started in [w] are
    successes: authorize and capture both succeed. *)
Definition gateway_accepts (env : Env) (w : World) : Prop :=
  random_below_rate env (rng_draws w) = true /\
  random_below_rate env (S (rng_draws w)) = true.

(** ** Relations between the world before and after an operation *)

(** [same_but_status r r']: [r'] is [r] except possibly for [status] and
    [updated_at]. *)
Definition same_but_status (r r' : PaymentModel) : Prop :=
  pm_id r' = pm_id r /\
  pm_order_id r' = pm_order_id r /\
  pm_amount r' = pm_amount r /\
  pm_currency r' = pm_currency r /\
  pm_payment_method r' = pm_payment_method r /\
  pm_transaction_id r' = pm_transaction_id r /\
  pm_payment_intent_id r' = pm_payment_intent_id r /\
  pm_provider_response r' = pm_provider_response r /\
  pm_error_message r' = pm_error_message r /\
  pm_created_at r' = pm_created_at r /\
  pm_authorized_at r' = pm_authorized_at r /\
  pm_captured_at r' = pm_captured_at r /\
  pm_refunded_at r' = pm_refunded_at r.



(** [m] takes every world to a world related to it by [R], whatever it
    returns or raises. *)
Definition steps {A} (R : World -> World -> Prop) (m : M A) : Prop :=
  forall w, R w (snd (m w)).

(** ** Sequences of requests *)

Inductive Request :=
| Process (request : ProcessPaymentRequest)
| Refund (request : RefundRequest).

(** The world after one request, whatever it returned or raised. *)
Definition serve (env : Env) (r : Request) (w : World) : World :=
  match r with
  | Process request => snd (process_payment env request w)
  | Refund request => snd (refund_payment env request w)
  end.

(** The world after a sequence of requests served one after the other. *)
Definition serve_all (env : Env) (rs : list Request) (w : World) : World :=
  fold_left (fun w r => serve env r w) rs w.

(** The primary key of [payments] stays a key. *)
Definition keeps_key (w w' : World) : Prop :=
  payments_keyed w -> payments_keyed w'.


(** ** Comparing two producers *)

(** The environment [env] with the producer's behaviour replaced. *)
Definition with_send_fault (f : nat -> option exn) (env : Env) : Env :=
  {| store_fault := store_fault env;
     random_below_rate := random_below_rate env;
     random_index := random_index env;
     uuid4_hex := uuid4_hex env;
     clock := clock env;
     send_fault := f;
     format_status := format_status env |}.

(** The world without the record of what the producer accepted. *)
Definition forget_topic (w : World) : World :=
  mkWorld (payments w) (refunds w) (db_trips w) (rng_draws w) (uuid_draws w)
          (clock_reads w) (sends w) (gateway_log w) (publish_log w) [].

(** [m1] and [m2] return or raise the same thing and reach the same world,
    up to what the producer accepted, when started from worlds that agree up
    to that. *)
Definition same_outcome {A} (m1 m2 : M A) : Prop :=
  forall w1 w2,
    forget_topic w1 = forget_topic w2 ->
    fst (m1 w1) = fst (m2 w2)
    /\ forget_topic (snd (m1 w1)) = forget_topic (snd (m2 w2)).

(** An environment whose producer refuses every send. *)
Definition broker_down : nat -> option exn :=
  fun _ => Some (Exn "KafkaConnectionError" "broker unreachable").

(** ** Failures of the gateway and of the store *)

(** The gateway declines a [process_payment] started in [w]: the authorize
    draw fails, or it succeeds and the capture draw fails. *)
Definition gateway_declines (env : Env) (w : World) : Prop :=
  random_below_rate env (rng_draws w) = false \/
  (random_below_rate env (rng_draws w) = true /\
   random_below_rate env (S (rng_draws w)) = false).

(** An environment whose database is unreachable. *)
Definition db_error : exn := Exn "OperationalError" "connection refused".


(** An environment whose database answers [k] round trips and fails [n]
    times from then on, before it recovers. *)
Definition store_outage_env (k n : nat) : Env :=
  {| store_fault :=
       fun i => if (Nat.leb k i && Nat.ltb i (k + n))%bool
                then Some db_error else None;
     random_below_rate := fun _ => true;
     random_index := fun _ => O;
     uuid4_hex := fun n => hex_le 32 n;
     clock := fun n => Z.of_nat n;
     send_fault := fun _ => None;
     format_status := PaymentStatus_value |}.



(** ** The refund scenario of the specification

    What the scenario asks of the environment: the store always answers, the
    gateway always succeeds, and the refund ids and refund row keys drawn by
    the three refunds (UUIDs number 4 to 9) do not collide. *)
Definition scenario_env (env : Env) : Prop :=
  (forall n, store_fault env n = None)
  /\ (forall n, random_below_rate env n = true)
  /\ (forall i j,
        In (i, j) [(4, 6); (4, 8); (6, 8)]%nat ->
        String.eqb ("re_" ++ substring 0 16 (uuid4_hex env i))
                   ("re_" ++ substring 0 16 (uuid4_hex env j)) = false)
  /\ (forall i j,
        In (i, j) [(5, 7); (5, 9); (7, 9)]%nat ->
        String.eqb (uuid_str (uuid4_hex env i)) (uuid_str (uuid4_hex env j))
        = false).

(** ** Shapes of responses *)

(** The two shapes a [PaymentResponse] built by [process_payment] has. *)
Definition payment_response_shape (r : PaymentResponse) : Prop :=
  (resp_success r = true /\ resp_status r = CAPTURED
   /\ resp_transaction_id r <> None /\ resp_payment_intent_id r <> None
   /\ resp_error r = None)
  \/ (resp_success r = false /\ resp_status r = FAILED
      /\ resp_transaction_id r = None /\ resp_payment_intent_id r = None
      /\ resp_error r <> None).

(** The two shapes a [RefundResponse] built by [refund_payment] has. *)
Definition refund_response_shape (r : RefundResponse) : Prop :=
  (rresp_success r = true /\ rresp_refund_id r <> None
   /\ rresp_error r = None)
  \/ (rresp_success r = false /\ rresp_refund_id r = None
      /\ rresp_error r <> None).

(** What the gateway leaves alone: everything but its own log, the random
    generator, the UUID source and the clock. *)
Definition gateway_only (w w' : World) : Prop :=
  payments w' = payments w
  /\ refunds w' = refunds w
  /\ db_trips w' = db_trips w
  /\ sends w' = sends w
  /\ publish_log w' = publish_log w
  /\ topic_log w' = topic_log w.

(** An environment whose gateway authorizes the first payment and fails its
    capture. *)
Definition capture_failing_env : Env :=
  {| store_fault := fun _ => None;
     random_below_rate := fun n => Nat.eqb n 0;
     random_index := fun _ => O;
     uuid4_hex := fun n => hex_le 32 n;
     clock := fun n => Z.of_nat n;
     send_fault := fun _ => None;
     format_status := PaymentStatus_value |}.

(** ** A capture that the store loses track of *)


(** ** The events of the publisher, as the three methods build them *)

Definition successful_event_of (p : Payment) (t : Z) : Event :=
  {| event_type := "payment.successful";
     ev_payment_id := id p;
     ev_timestamp := t;
     ev_data :=
       [ ("order_id", VStr (order_id p));
         ("amount", VNum (amount p));
         ("currency", VStr (Currency_value (currency p)));
         ("payment_method", VStr (PaymentMethod_value (payment_method p)));
         ("transaction_id", opt_value (transaction_id p));
         ("payment_intent_id", opt_value (payment_intent_id p)) ] |}.

Definition failed_event_of (p : Payment) (msg : string) (t : Z) : Event :=
  {| event_type := "payment.failed";
     ev_payment_id := id p;
     ev_timestamp := t;
     ev_data :=
       [ ("order_id", VStr (order_id p));
         ("amount", VNum (amount p));
         ("currency", VStr (Currency_value (currency p)));
         ("payment_method", VStr (PaymentMethod_value (payment_method p)));
         ("error", VStr msg) ] |}.

Definition refunded_event_of (p : Payment) (refund_id : string) (amt : Z)
    (t : Z) : Event :=
  {| event_type := "payment.refunded";
     ev_payment_id := id p;
     ev_timestamp := t;
     ev_data :=
       [ ("order_id", VStr (order_id p));
         ("refund_id", VStr refund_id);
         ("amount", VNum amt);
         ("original_amount", VNum (amount p));
         ("currency", VStr (Currency_value (currency p))) ] |}.

(** ** What an operation adds to the logs and to the refunds table *)

(** The gateway log of [w'] is that of [w] followed by calls that all
    satisfy [ok]. *)
Definition calls_added (ok : GatewayCall -> Prop) (w w' : World) : Prop :=
  exists l, gateway_log w' = (gateway_log w ++ l)%list /\ Forall ok l.

(** The producer was handed the events [handed], all satisfying [ok], one per
    send counted, and accepted some of them. *)
Definition events_added (ok : Event -> Prop) (w w' : World) : Prop :=
  exists handed accepted,
    publish_log w' = (publish_log w ++ handed)%list
    /\ topic_log w' = (topic_log w ++ accepted)%list
    /\ incl accepted handed
    /\ Forall ok handed
    /\ sends w' = (sends w + length handed)%nat.

(** The refunds table of [w'] is that of [w] followed by rows that all
    satisfy [ok]. *)
Definition refunds_added (ok : RefundModel -> Prop) (w w' : World) : Prop :=
  exists added, refunds w' = (refunds w ++ added)%list /\ Forall ok added.

Definition is_void (c : GatewayCall) : bool :=
  match c with GwVoid _ => true | _ => false end.

(** ** The key constraints of the two tables *)

(** No two payments share a transaction id ([unique=True]); stated on rows
    with distinct primary keys. *)
Definition txn_unique (rows : list PaymentModel) : Prop :=
  forall r1 r2 t,
    In r1 rows -> In r2 rows ->
    pm_transaction_id r1 = Some t -> pm_transaction_id r2 = Some t ->
    pm_id r1 = pm_id r2.

Definition intent_unique (rows : list PaymentModel) : Prop :=
  forall r1 r2 t,
    In r1 rows -> In r2 rows ->
    pm_payment_intent_id r1 = Some t -> pm_payment_intent_id r2 = Some t ->
    pm_id r1 = pm_id r2.

(** The constraints declared in [database/models.py]: the two primary keys,
    the three [unique=True] columns, and the foreign key of [refunds]. *)
Definition store_constraints (w : World) : Prop :=
  NoDup (map pm_id (payments w))
  /\ txn_unique (payments w)
  /\ intent_unique (payments w)
  /\ NoDup (map rf_id (refunds w))
  /\ NoDup (map rf_refund_id (refunds w))
  /\ Forall (fun r => existsb (fun p => String.eqb (pm_id p) (rf_payment_id r))
                              (payments w) = true)
            (refunds w).

Definition keeps_constraints (w w' : World) : Prop :=
  store_constraints w -> store_constraints w'.

(** ** The row of a payment being processed *)

(** What [process_payment] can make of the row it created for [request]. *)
Definition row_of_request (request : ProcessPaymentRequest)
    (row : PaymentModel) : Prop :=
  pm_order_id row = pr_order_id request
  /\ pm_amount row = pr_amount request
  /\ pm_currency row = pr_currency request
  /\ pm_payment_method row = pr_payment_method request
  /\ status_in (pm_status row) [PENDING; PROCESSING; CAPTURED; FAILED] = true
  /\ pm_refunded_at row = None.

(** The table is [old] followed by one row with key [pid], made for
    [request]. *)
Definition sole_new_row (old : list PaymentModel) (pid : string)
    (request : ProcessPaymentRequest) (w : World) : Prop :=
  exists row,
    payments w = (old ++ [row])%list /\ pm_id row = pid
    /\ row_of_request request row.

(** ** The refund of a payment that was found *)

(** [refund_payment] from the status check on, for the payment the lookup
    by transaction id returned. *)
Definition refund_found (env : Env) (payment : Payment)
    (request : RefundRequest) : M RefundResponse :=
  if negb (status_in (status payment) [CAPTURED; PARTIALLY_REFUNDED]) then
    ret {| rresp_success := false;
           rresp_refund_id := None;
           rresp_amount := rr_amount request;
           rresp_error :=
             Some ("Payment in status "
                   ++ format_status env (status payment)
                   ++ " cannot be refunded") |}
  else
    try_except
      (result <- gateway_refund_payment env (rr_transaction_id request)
                   (rr_amount request) (rr_reason request) ;;
       ok <- subscript result "success" ;;
       if truthy ok then
         let new_status :=
           if rr_amount request >=? amount payment
           then REFUNDED else PARTIALLY_REFUNDED in
         update_status env (id payment) new_status ;;;
         refund_id <- subscript_str result "refund_id" ;;
         add_refund_record env (id payment) refund_id (rr_amount request)
           (rr_reason request) ;;;
         publish_payment_refunded env payment refund_id (rr_amount request) ;;;
         ret {| rresp_success := true;
                rresp_refund_id := Some refund_id;
                rresp_amount := rr_amount request;
                rresp_error := None |}
       else
         msg <- dict_get_str result "error_message"
                  "Refund processing failed" ;;
         ret {| rresp_success := false;
                rresp_refund_id := None;
                rresp_amount := rr_amount request;
                rresp_error := Some msg |})
      (fun e =>
         ret {| rresp_success := false;
                rresp_refund_id := None;
                rresp_amount := rr_amount request;
                rresp_error :=
                  Some ("Refund processing error: " ++ exn_str e) |}).

(** The status a refund of [amt] gives a payment of [total]. *)
Definition refund_target (amt total : Z) : PaymentStatus :=
  if amt >=? total then REFUNDED else PARTIALLY_REFUNDED.

(** ** How a stored payment may change between requests *)

(** [r'] is what a row [r] may have become: the same row in all columns
    but [status] and [updated_at]; the very same row if [r] was not in a
    refundable status; and, if the status differs, a refunded one. *)
Definition row_evolves (r r' : PaymentModel) : Prop :=
  same_but_status r r'
  /\ (status_in (pm_status r) [CAPTURED; PARTIALLY_REFUNDED] = false -> r' = r)
  /\ (pm_status r' = pm_status r
      \/ status_in (pm_status r') [REFUNDED; PARTIALLY_REFUNDED] = true).

(** What the columns of a stored payment say about each other. *)
Definition row_sound (r : PaymentModel) : Prop :=
  pm_status r <> AUTHORIZED
  /\ pm_authorized_at r = pm_captured_at r
  /\ (status_in (pm_status r) [CAPTURED; PARTIALLY_REFUNDED; REFUNDED] = true ->
      pm_transaction_id r <> None /\ pm_payment_intent_id r <> None
      /\ pm_provider_response r <> None /\ pm_captured_at r <> None)
  /\ (pm_status r = PENDING ->
      pm_transaction_id r = None /\ pm_payment_intent_id r = None
      /\ pm_provider_response r = None /\ pm_error_message r = None
      /\ pm_captured_at r = None)
  /\ (pm_status r = FAILED -> pm_error_message r <> None).

(** ** api/routes/payment_routes.py *)

(** What a route hands to the framework: the value it returns, which is
    answered with status 200; the [HTTPException] it raises; or any other
    exception, which it lets through. *)
Inductive route_result (A : Type) :=
| Returned (a : A)
| HTTPException (status_code : Z) (detail : option string)
| Escaped (e : exn).
Arguments Returned {A} a.
Arguments HTTPException {A} status_code detail.
Arguments Escaped {A} e.

Definition Route (A : Type) : Type := World -> route_result A * World.

Definition HTTP_400_BAD_REQUEST : Z := 400.
Definition HTTP_404_NOT_FOUND : Z := 404.
Definition HTTP_500_INTERNAL_SERVER_ERROR : Z := 500.

Module payment_routes.

Definition process_payment (env : Env) (request : ProcessPaymentRequest)
  : Route PaymentResponse :=
  fun w =>
    match process_payment env request w with
    | (Ok response, w') => (Returned response, w')
    | (Raise e, w') =>
        (HTTPException HTTP_500_INTERNAL_SERVER_ERROR
           (Some ("Payment processing failed: " ++ exn_str e)), w')
    end.

Definition refund_payment (env : Env) (request : RefundRequest)
  : Route RefundResponse :=
  fun w =>
    match refund_payment env request w with
    | (Ok response, w') =>
        if negb (rresp_success response) then
          (* raised inside the [try], passed on by [except HTTPException] *)
          (HTTPException HTTP_400_BAD_REQUEST (rresp_error response), w')
        else (Returned response, w')
    | (Raise e, w') =>
        (HTTPException HTTP_500_INTERNAL_SERVER_ERROR
           (Some ("Refund processing failed: " ++ exn_str e)), w')
    end.

(** The three [GET] routes have no [try]: what the service raises goes
    through. *)
Definition found_or_404 (detail : string) (lookup : M (option Payment))
  : Route Payment :=
  fun w =>
    match lookup w with
    | (Ok (Some payment), w') => (Returned payment, w')
    | (Ok None, w') =>
        (HTTPException HTTP_404_NOT_FOUND (Some detail), w')
    | (Raise e, w') => (Escaped e, w')
    end.

Definition get_payment (env : Env) (payment_id : string) : Route Payment :=
  found_or_404 "Payment not found" (get_payment env payment_id).

Definition get_payment_by_order (env : Env) (order_id : string)
  : Route Payment :=
  found_or_404 "Payment not found for this order"
    (get_payment_by_order env order_id).

Definition get_payment_by_transaction (env : Env) (transaction_id : string)
  : Route Payment :=
  found_or_404 "Payment not found" (get_payment_by_transaction env transaction_id).

End payment_routes.

(** ** database/models.py: the width of the text columns

    [order_id] is [String(255)] and the reason of a refund is [String(500)]:
    the database refuses an [INSERT] that carries a longer value, and the
    [commit] that sends it raises.  The request types put no bound on either
    field.  The repository functions above leave this refusal out; a
    statement that concludes that such a row was written asks for a value
    that fits. *)
Definition order_id_width : nat := 255.
Definition reason_width : nat := 500.

Definition order_id_fits (request : ProcessPaymentRequest) : Prop :=
  Nat.leb (String.length (pr_order_id request)) order_id_width = true.

Definition reason_fits (request : RefundRequest) : Prop :=
  match rr_reason request with
  | Some reason => Nat.leb (String.length reason) reason_width = true
  | None => True
  end.

(** A refund request that gives a reason. *)
Definition refund_because (tid : string) (amt : Z) (reason : string)
  : RefundRequest :=
  {| rr_transaction_id := tid; rr_amount := amt; rr_reason := Some reason |}.

(** * Properties *)

(** ** Lists of rows *)

Lemma filter_id_unique (rows : list PaymentModel) (r : PaymentModel) :
  NoDup (map pm_id rows) -> In r rows ->
  filter (fun x => String.eqb (pm_id x) (pm_id r)) rows = [r].
Proof.
  induction rows as [|a rows IH]; intros Hnd Hin; [destruct Hin|].
  cbn in Hnd. inversion Hnd as [|? ? Hnotin Hnd']; subst.
  assert (Hnone : forall l, ~ In (pm_id r) (map pm_id l) ->
            filter (fun x => String.eqb (pm_id x) (pm_id r)) l = []).
  { induction l as [|b l IHl]; cbn; intros Hn; [reflexivity|].
    destruct (String.eqb_spec (pm_id b) (pm_id r)) as [E|E].
    - exfalso. apply Hn. left. exact E.
    - apply IHl. intros Hin'. apply Hn. right. exact Hin'. }
  cbn. destruct Hin as [-> | Hin].
  - rewrite String.eqb_refl. f_equal. apply Hnone. exact Hnotin.
  - destruct (String.eqb_spec (pm_id a) (pm_id r)) as [E|E].
    + exfalso. apply Hnotin. rewrite E. apply in_map. exact Hin.
    + apply IH; assumption.
Qed.

Lemma filter_singleton_in {A} (f : A -> bool) (l : list A) (x : A) :
  filter f l = [x] -> In x l /\ f x = true.
Proof.
  intros H. apply filter_In. rewrite H. left. reflexivity.
Qed.

Lemma update_where_id_ids pid f rows :
  (forall r, pm_id (f r) = pm_id r) ->
  map pm_id (update_where_id pid f rows) = map pm_id rows.
Proof.
  intros Hf. unfold update_where_id. rewrite map_map. apply map_ext.
  intros r. destruct (String.eqb (pm_id r) pid); [apply Hf | reflexivity].
Qed.

Lemma filter_update_where_id pid f rows :
  (forall r, pm_id (f r) = pm_id r) ->
  filter (fun x => String.eqb (pm_id x) pid) (update_where_id pid f rows)
  = map f (filter (fun x => String.eqb (pm_id x) pid) rows).
Proof.
  intros Hf. induction rows as [|a rows IH]; [reflexivity|].
  cbn. destruct (String.eqb (pm_id a) pid) eqn:E.
  - rewrite Hf, E. cbn. f_equal. exact IH.
  - rewrite E. exact IH.
Qed.

Lemma filter_update_other pid pid' f rows :
  (forall r, pm_id (f r) = pm_id r) -> pid' <> pid ->
  filter (fun x => String.eqb (pm_id x) pid') (update_where_id pid f rows)
  = filter (fun x => String.eqb (pm_id x) pid') rows.
Proof.
  intros Hf Hne. induction rows as [|a rows IH]; [reflexivity|].
  cbn. destruct (String.eqb_spec (pm_id a) pid) as [E|E].
  - rewrite Hf. destruct (String.eqb_spec (pm_id a) pid') as [E'|E'].
    + congruence.
    + exact IH.
  - destruct (String.eqb (pm_id a) pid'); [f_equal|]; exact IH.
Qed.

(** ** Running the repository *)

Lemma get_by_id_run env pid w :
  store_fault env (db_trips w) = None ->
  get_by_id env pid w = scalar_one_or_none (rows_with_id pid w) (db_tick w).
Proof.
  intros H. unfold get_by_id, bind, db_trip, read_payments. rewrite H.
  reflexivity.
Qed.

Lemma get_by_transaction_id_inv env tid w p w1 :
  get_by_transaction_id env tid w = (Ok (Some p), w1) ->
  store_fault env (db_trips w) = None /\ w1 = db_tick w /\
  exists r, filter (fun r => opt_eqb (pm_transaction_id r) tid) (payments w) = [r]
            /\ p = _to_domain r.
Proof.
  unfold get_by_transaction_id, bind, db_trip, read_payments.
  destruct (store_fault env (db_trips w)); [discriminate|].
  destruct (filter _ (payments (db_tick w))) as [|r [|r' l]] eqn:E; cbn;
    intros H; inversion H; subst.
  repeat split. exists r. split; [exact E | reflexivity].
Qed.

Lemma update_status_run env pid s w :
  store_fault env (db_trips w) = None ->
  store_fault env (S (db_trips w)) = None ->
  update_status env pid s w =
  scalar_one_or_none
    (filter (fun r => String.eqb (pm_id r) pid)
       (update_where_id pid (set_status s (clock env (clock_reads w))) (payments w)))
    (db_tick (set_payments
       (update_where_id pid (set_status s (clock env (clock_reads w))) (payments w))
       (db_tick (clock_tick w)))).
Proof.
  intros H1 H2.
  unfold update_status, bind, utcnow, db_trip, read_payments, write_payments.
  cbn. rewrite H1. cbn. rewrite get_by_id_run by (cbn; exact H2).
  reflexivity.
Qed.

(** ** Running the publisher *)

Lemma publish_event_run env etype pid data w :
  _publish_event env etype pid data w =
  (Ok tt,
   log_send {| event_type := etype; ev_payment_id := pid;
               ev_timestamp := clock env (clock_reads w); ev_data := data |}
            (is_none (send_fault env (sends w)))
            (clock_tick w)).
Proof.
  unfold _publish_event, try_except, bind, utcnow, producer_send, ret.
  cbn. destruct (send_fault env (sends w)); reflexivity.
Qed.

(** ** Running the gateway *)

Lemma gateway_refund_run_ok env tid amt reason w :
  random_below_rate env (rng_draws w) = true ->
  gateway_refund_payment env tid amt reason w =
  (Ok (refund_ok_result env tid amt w),
   clock_tick (uuid_tick (rng_tick (log_call (GwRefund tid amt reason) w)))).
Proof.
  intros H.
  unfold gateway_refund_payment, bind, log_gateway_call, _simulate_processing,
    _should_succeed, ret, uuid4, utcnow.
  cbn. rewrite H. reflexivity.
Qed.

Lemma gateway_refund_run_fail env tid amt reason w :
  random_below_rate env (rng_draws w) = false ->
  gateway_refund_payment env tid amt reason w =
  (Ok [ ("success", VBool false);
        ("error_code", VStr "refund_failed");
        ("error_message", VStr "Failed to process refund") ],
   rng_tick (log_call (GwRefund tid amt reason) w)).
Proof.
  intros H.
  unfold gateway_refund_payment, bind, log_gateway_call, _simulate_processing,
    _should_succeed, ret.
  cbn. rewrite H. reflexivity.
Qed.

Lemma add_refund_record_run env pid rid amt reason w :
  store_fault env (db_trips w) = None ->
  existsb (fun r => String.eqb (rf_id r) (uuid_str (uuid4_hex env (uuid_draws w))))
          (refunds w) = false ->
  existsb (fun r => String.eqb (rf_refund_id r) rid) (refunds w) = false ->
  existsb (fun r => String.eqb (pm_id r) pid) (payments w) = true ->
  add_refund_record env pid rid amt reason w =
  (Ok tt,
   set_refunds
     (refunds w ++
        [ {| rf_id := uuid_str (uuid4_hex env (uuid_draws w));
             rf_payment_id := pid;
             rf_refund_id := rid;
             rf_amount := amt;
             rf_reason := reason;
             rf_created_at := clock env (clock_reads w) |} ])
     (db_tick (clock_tick (uuid_tick w)))).
Proof.
  intros Hs Hk Hr Hp.
  unfold add_refund_record, bind, uuid4, utcnow, db_trip, read_payments,
    read_refunds, write_refunds.
  cbn. rewrite Hs. cbn. rewrite Hk, Hr, Hp. reflexivity.
Qed.

Lemma refund_payment_gateway_failure env request w p w1 :
  get_by_transaction_id env (rr_transaction_id request) w = (Ok (Some p), w1) ->
  status_in (status p) [CAPTURED; PARTIALLY_REFUNDED] = true ->
  random_below_rate env (rng_draws w1) = false ->
  refund_payment env request w =
  (Ok {| rresp_success := false;
         rresp_refund_id := None;
         rresp_amount := rr_amount request;
         rresp_error := Some "Failed to process refund" |},
   rng_tick (log_call (GwRefund (rr_transaction_id request) (rr_amount request)
                                (rr_reason request)) w1)).
Proof.
  intros Hl Hs Hg. unfold refund_payment, bind at 1. rewrite Hl, Hs. cbn [negb].
  unfold try_except, bind. rewrite gateway_refund_run_fail by exact Hg.
  reflexivity.
Qed.

Lemma existsb_id_of_in rows r :
  In r rows -> existsb (fun x => String.eqb (pm_id x) (pm_id r)) rows = true.
Proof.
  intros H. apply existsb_exists. exists r. split; [exact H|].
  apply String.eqb_refl.
Qed.

Lemma refund_payment_run_ok env request w p w1 :
  payments_keyed w ->
  get_by_transaction_id env (rr_transaction_id request) w = (Ok (Some p), w1) ->
  status_in (status p) [CAPTURED; PARTIALLY_REFUNDED] = true ->
  random_below_rate env (rng_draws w1) = true ->
  store_available env w1 ->
  refund_keys_fresh env w1 ->
  refund_payment env request w =
  (Ok {| rresp_success := true;
         rresp_refund_id := Some (next_refund_id env w1);
         rresp_amount := rr_amount request;
         rresp_error := None |},
   refund_world env request p w1).
Proof.
  intros Hk Hl Hs Hg Hst [Hf1 Hf2].
  destruct (get_by_transaction_id_inv _ _ _ _ _ Hl) as (_ & Hw1 & r & Hr & Hp).
  destruct (filter_singleton_in _ _ _ Hr) as [Hin _].
  assert (Hpid : id p = pm_id r) by (subst p; reflexivity).
  unfold refund_payment. unfold bind at 1. rewrite Hl, Hs. cbn [negb].
  unfold try_except. unfold bind at 1.
  rewrite gateway_refund_run_ok by exact Hg.
  unfold bind at 1. cbn [subscript dict_get refund_ok_result String.eqb Ascii.eqb Bool.eqb ret truthy].
  unfold bind at 1.
  rewrite update_status_run.
  2:{ apply Hst. cbn. lia. }
  2:{ apply Hst. cbn. lia. }
  rewrite filter_update_where_id by reflexivity.
  assert (Hrows : filter (fun x => String.eqb (pm_id x) (id p)) (payments w1) = [r]).
  { rewrite Hw1, Hpid. cbn. apply filter_id_unique; assumption. }
  cbn [payments clock_tick uuid_tick rng_tick log_call clock_reads].
  rewrite Hrows. cbn [map scalar_one_or_none ret].
  unfold bind at 1. unfold subscript_str, bind at 1.
  cbn [subscript dict_get refund_ok_result String.eqb Ascii.eqb Bool.eqb ret as_str].
  unfold bind at 1. rewrite add_refund_record_run.
  - unfold bind at 1. unfold publish_payment_refunded.
    rewrite publish_event_run. reflexivity.
  - apply Hst. cbn. lia.
  - cbn. exact Hf1.
  - cbn. exact Hf2.
  - cbn. rewrite Hpid. 
    assert (Hin' : In (set_status (if rr_amount request >=? amount p then REFUNDED else PARTIALLY_REFUNDED) (clock env (S (clock_reads w1))) r)
               (update_where_id (pm_id r) (set_status (if rr_amount request >=? amount p then REFUNDED else PARTIALLY_REFUNDED) (clock env (S (clock_reads w1)))) (payments w1))).
    { unfold update_where_id. apply in_map_iff. exists r. rewrite String.eqb_refl.
      split; [reflexivity|]. rewrite Hw1. exact Hin. }
    apply existsb_exists. eexists. split; [exact Hin'|]. cbn. apply String.eqb_refl.
Qed.

Lemma get_by_transaction_id_frame env tid w r w1 :
  get_by_transaction_id env tid w = (r, w1) ->
  w1 = db_tick w.
Proof.
  unfold get_by_transaction_id, bind, db_trip, read_payments.
  destruct (store_fault env (db_trips w)).
  - intros H. inversion H. reflexivity.
  - destruct (filter _ (payments (db_tick w))) as [|x [|y l]]; cbn;
      intros H; inversion H; reflexivity.
Qed.

(** The gateway refund always answers with one of two dictionaries. *)
Lemma gateway_refund_cases env tid amt reason w :
  gateway_refund_payment env tid amt reason w =
    (Ok (refund_ok_result env tid amt w),
     clock_tick (uuid_tick (rng_tick (log_call (GwRefund tid amt reason) w))))
  \/
  gateway_refund_payment env tid amt reason w =
    (Ok [ ("success", VBool false);
          ("error_code", VStr "refund_failed");
          ("error_message", VStr "Failed to process refund") ],
     rng_tick (log_call (GwRefund tid amt reason) w)).
Proof.
  destruct (random_below_rate env (rng_draws w)) eqn:E.
  - left. apply gateway_refund_run_ok. exact E.
  - right. apply gateway_refund_run_fail. exact E.
Qed.

(** ** Claims on [refund_payment] *)

(** C7. A refund request whose payment is found in a status other than
    CAPTURED and PARTIALLY_REFUNDED (PENDING, PROCESSING, AUTHORIZED, FAILED,
    REFUNDED) is answered with a failure response that names the status; the
    gateway log, the payment rows and the refund rows are those left by the
    lookup, which are those before the call: the gateway is not invoked. *)
Theorem refund_rejected_unless_refundable
    (env : Env) (request : RefundRequest) (w w1 : World) (p : Payment) :
  get_by_transaction_id env (rr_transaction_id request) w = (Ok (Some p), w1) ->
  status p <> CAPTURED ->
  status p <> PARTIALLY_REFUNDED ->
  refund_payment env request w =
    (Ok {| rresp_success := false;
           rresp_refund_id := None;
           rresp_amount := rr_amount request;
           rresp_error :=
             Some ("Payment in status " ++ format_status env (status p)
                   ++ " cannot be refunded") |},
     w1)
  /\ gateway_log w1 = gateway_log w
  /\ rng_draws w1 = rng_draws w
  /\ payments w1 = payments w
  /\ refunds w1 = refunds w.
Proof.
  intros Hl Hc Hp. split.
  - unfold refund_payment, bind. rewrite Hl.
    destruct (status p); try congruence; reflexivity.
  - apply get_by_transaction_id_frame in Hl. subst w1. repeat split.
Qed.

Lemma refund_rejected_unless_refundable_witness :
  refund_payment calm_env (refund_of order1_tid 1) world_refunded =
    (Ok {| rresp_success := false;
           rresp_refund_id := None;
           rresp_amount := 1;
           rresp_error := Some "Payment in status refunded cannot be refunded" |},
     db_tick world_refunded)
  /\ gateway_log (db_tick world_refunded) = gateway_log world_refunded.
Proof.
  destruct (refund_rejected_unless_refundable calm_env (refund_of order1_tid 1)
              world_refunded (db_tick world_refunded)
              (first_payment world_refunded))
    as (H1 & H2 & _).
  - vm_compute. reflexivity.
  - vm_compute. discriminate.
  - vm_compute. discriminate.
  - split; [exact H1 | exact H2].
Defined.

(** A payment that never got a transaction id (PENDING, or FAILED at the
    gateway) cannot be named by a refund request at all: the lookup finds
    nothing and the request is answered "Payment not found", again without
    reaching the gateway. *)
Lemma refund_of_unknown_transaction
    (env : Env) (request : RefundRequest) (w w1 : World) :
  get_by_transaction_id env (rr_transaction_id request) w = (Ok None, w1) ->
  refund_payment env request w =
    (Ok {| rresp_success := false;
           rresp_refund_id := None;
           rresp_amount := rr_amount request;
           rresp_error := Some "Payment not found" |},
     w1)
  /\ gateway_log w1 = gateway_log w
  /\ payments w1 = payments w
  /\ refunds w1 = refunds w.
Proof.
  intros Hl. split.
  - unfold refund_payment, bind. rewrite Hl. reflexivity.
  - apply get_by_transaction_id_frame in Hl. subst w1. repeat split.
Qed.

Example refund_of_failed_payment :
  let w := snd (process_payment declining_env order1 initial_world) in
  map pm_status (payments w) = [FAILED]
  /\ map pm_transaction_id (payments w) = [None]
  /\ fst (refund_payment calm_env (refund_of order1_tid 4000) w)
     = Ok {| rresp_success := false;
             rresp_refund_id := None;
             rresp_amount := 4000;
             rresp_error := Some "Payment not found" |}
  /\ gateway_log (snd (refund_payment calm_env (refund_of order1_tid 4000) w))
     = gateway_log w.
Proof. vm_compute. repeat split. Qed.

(** C8. When the gateway refund call answers with a failure (a dictionary
    whose [success] entry is false), [refund_payment] returns a failure
    response whose error is the gateway's [error_message], and the payment rows
    and refund rows are exactly those before the call. *)
Theorem refund_gateway_failure_changes_nothing
    (env : Env) (request : RefundRequest) (w w1 w2 : World) (p : Payment)
    (gw_result : dict) :
  get_by_transaction_id env (rr_transaction_id request) w = (Ok (Some p), w1) ->
  status_in (status p) [CAPTURED; PARTIALLY_REFUNDED] = true ->
  gateway_refund_payment env (rr_transaction_id request) (rr_amount request)
    (rr_reason request) w1 = (Ok gw_result, w2) ->
  dict_get "success" gw_result = Some (VBool false) ->
  exists msg,
    dict_get "error_message" gw_result = Some (VStr msg)
    /\ refund_payment env request w =
         (Ok {| rresp_success := false;
                rresp_refund_id := None;
                rresp_amount := rr_amount request;
                rresp_error := Some msg |},
          w2)
    /\ payments w2 = payments w
    /\ refunds w2 = refunds w.
Proof.
  intros Hl Hs Hg Hfail.
  pose proof (get_by_transaction_id_frame _ _ _ _ _ Hl) as Hw1.
  destruct (gateway_refund_cases env (rr_transaction_id request)
              (rr_amount request) (rr_reason request) w1) as [E|E];
    rewrite E in Hg; inversion Hg; subst gw_result w2; clear Hg.
  - discriminate Hfail.
  - exists "Failed to process refund". split; [reflexivity|]. split.
    + unfold refund_payment. unfold bind at 1. rewrite Hl, Hs. cbn [negb].
      unfold try_except, bind. rewrite E. reflexivity.
    + subst w1. split; reflexivity.
Qed.

Lemma refund_gateway_failure_changes_nothing_witness :
  exists msg,
    refund_payment declining_env (refund_of order1_tid 4000) world_captured =
      (Ok {| rresp_success := false;
             rresp_refund_id := None;
             rresp_amount := 4000;
             rresp_error := Some msg |},
       snd (refund_payment declining_env (refund_of order1_tid 4000)
              world_captured))
    /\ payments (snd (refund_payment declining_env (refund_of order1_tid 4000)
                        world_captured)) = payments world_captured.
Proof.
  destruct (refund_gateway_failure_changes_nothing declining_env
              (refund_of order1_tid 4000) world_captured
              (db_tick world_captured)
              (snd (refund_payment declining_env (refund_of order1_tid 4000)
                      world_captured))
              (first_payment world_captured)
              [ ("success", VBool false);
                ("error_code", VStr "refund_failed");
                ("error_message", VStr "Failed to process refund") ])
    as (msg & _ & H1 & H2 & _).
  - vm_compute. reflexivity.
  - vm_compute. reflexivity.
  - vm_compute. reflexivity.
  - vm_compute. reflexivity.
  - exists msg. split; [exact H1 | exact H2].
Defined.

Lemma calm_store_available w : store_available calm_env w.
Proof. intros n _. reflexivity. Qed.

Lemma refund_world_row env request w p w1 :
  payments_keyed w ->
  get_by_transaction_id env (rr_transaction_id request) w = (Ok (Some p), w1) ->
  exists r,
    In r (payments w) /\ p = _to_domain r /\
    rows_with_id (id p) (refund_world env request p w1) =
      [set_status (refund_status (rr_amount request) (amount p))
                  (clock env (S (clock_reads w1))) r].
Proof.
  intros Hk Hl.
  destruct (get_by_transaction_id_inv _ _ _ _ _ Hl) as (_ & Hw1 & r & Hr & Hp).
  destruct (filter_singleton_in _ _ _ Hr) as [Hin _].
  exists r. split; [exact Hin|]. split; [exact Hp|].
  unfold rows_with_id, refund_world. cbn [payments].
  rewrite filter_update_where_id by reflexivity.
  replace (id p) with (pm_id r) by (subst p; reflexivity).
  subst w1. cbn [payments db_tick].
  rewrite filter_id_unique by assumption. reflexivity.
Qed.

(** C3. A refund request against a payment found in CAPTURED status, when the
    gateway refund succeeds and the store takes the writes (it answers, the
    keys of the refund row are fresh and the reason fits its column): the
    response is a success carrying the gateway's refund id; the payment's row
    gets status PARTIALLY_REFUNDED when [0 < r < original] and REFUNDED when
    [r = original]; one refund row for the payment, with that refund id and
    amount [r], is appended; and one [payment.refunded] event keyed by the
    payment id, carrying the refund id, [r] and the original amount, is handed
    to the producer (and reaches the topic when the send is accepted). *)
Theorem refund_of_captured_payment
    (env : Env) (request : RefundRequest) (w w1 : World) (p : Payment) :
  payments_keyed w ->
  get_by_transaction_id env (rr_transaction_id request) w = (Ok (Some p), w1) ->
  status p = CAPTURED ->
  random_below_rate env (rng_draws w1) = true ->
  store_available env w1 ->
  refund_keys_fresh env w1 ->
  reason_fits request ->
  exists (w' : World) (rid : string) (row : RefundModel) (ev : Event),
    refund_payment env request w =
      (Ok {| rresp_success := true;
             rresp_refund_id := Some rid;
             rresp_amount := rr_amount request;
             rresp_error := None |},
       w')
    /\ (0 < rr_amount request < amount p ->
        map pm_status (rows_with_id (id p) w') = [PARTIALLY_REFUNDED])
    /\ (rr_amount request = amount p ->
        map pm_status (rows_with_id (id p) w') = [REFUNDED])
    /\ refunds w' = (refunds w ++ [row])%list
    /\ rf_payment_id row = id p
    /\ rf_refund_id row = rid
    /\ rf_amount row = rr_amount request
    /\ publish_log w' = (publish_log w ++ [ev])%list
    /\ event_type ev = "payment.refunded"
    /\ ev_payment_id ev = id p
    /\ dict_get "refund_id" (ev_data ev) = Some (VStr rid)
    /\ dict_get "amount" (ev_data ev) = Some (VNum (rr_amount request))
    /\ dict_get "original_amount" (ev_data ev) = Some (VNum (amount p))
    /\ (send_fault env (sends w) = None -> topic_log w' = (topic_log w ++ [ev])%list).
Proof.
  intros Hk Hl Hs Hg Hst Hfr _.
  pose proof (get_by_transaction_id_frame _ _ _ _ _ Hl) as Hw1.
  destruct (refund_world_row env request w p w1 Hk Hl) as (r & _ & _ & Hrow).
  exists (refund_world env request p w1), (next_refund_id env w1),
         (refund_row env request p w1), (refund_event env request p w1).
  split.
  { apply refund_payment_run_ok; try assumption. rewrite Hs. reflexivity. }
  rewrite Hrow. unfold refund_status. cbn [map pm_status set_status].
  split. { intros [_ Hlt]. destruct (Z.geb_spec (rr_amount request) (amount p)); [lia | reflexivity]. }
  split. { intros ->. rewrite Z.geb_leb, Z.leb_refl. reflexivity. }
  subst w1. cbn. repeat split.
  intros Hsend. rewrite Hsend. reflexivity.
Qed.

Lemma world_captured_keyed : payments_keyed world_captured.
Proof.
  unfold payments_keyed. vm_compute. constructor; [intros [] | constructor].
Defined.

Lemma refund_of_captured_payment_witness :
  exists (w' : World) (rid : string),
    refund_payment calm_env
      (refund_because order1_tid 4000 "damaged in transit") world_captured =
      (Ok {| rresp_success := true;
             rresp_refund_id := Some rid;
             rresp_amount := 4000;
             rresp_error := None |},
       w')
    /\ map pm_status (rows_with_id (id (first_payment world_captured)) w')
       = [PARTIALLY_REFUNDED].
Proof.
  destruct (refund_of_captured_payment calm_env
              (refund_because order1_tid 4000 "damaged in transit")
              world_captured (db_tick world_captured)
              (first_payment world_captured))
    as (w' & rid & row & ev & H1 & H2 & _).
  - exact world_captured_keyed.
  - vm_compute. reflexivity.
  - vm_compute. reflexivity.
  - vm_compute. reflexivity.
  - intros n _. reflexivity.
  - split; vm_compute; reflexivity.
  - vm_compute. reflexivity.
  - exists w', rid. split; [exact H1|]. apply H2. vm_compute. split; reflexivity.
Defined.

(** ** Running [process_payment] *)

Lemma update_where_id_absent pid f rows :
  existsb (fun r => String.eqb (pm_id r) pid) rows = false ->
  update_where_id pid f rows = rows.
Proof.
  induction rows as [|a rows IH]; [reflexivity|]. cbn.
  intros H. apply orb_false_iff in H. destruct H as [Ha Hr].
  rewrite Ha. f_equal. apply IH. exact Hr.
Qed.

Lemma filter_id_absent pid rows :
  existsb (fun r => String.eqb (pm_id r) pid) rows = false ->
  filter (fun r => String.eqb (pm_id r) pid) rows = [].
Proof.
  induction rows as [|a rows IH]; [reflexivity|]. cbn.
  intros H. apply orb_false_iff in H. destruct H as [Ha Hr].
  rewrite Ha. apply IH. exact Hr.
Qed.

Lemma update_where_id_app pid f rows rows' :
  update_where_id pid f (rows ++ rows') =
  (update_where_id pid f rows ++ update_where_id pid f rows')%list.
Proof. apply map_app. Qed.

Lemma create_payment_run env request w :
  store_fault env (db_trips w) = None ->
  store_fault env (S (db_trips w)) = None ->
  existsb (fun r => String.eqb (pm_id r) (new_payment_id env w)) (payments w)
    = false ->
  create_payment env (pr_order_id request) (pr_amount request)
    (pr_currency request) (pr_payment_method request) w =
  (Ok (_to_domain (pending_row env request w)),
   db_tick (set_payments (payments w ++ [pending_row env request w])
              (db_tick (clock_tick (clock_tick (uuid_tick w)))))).
Proof.
  intros H1 H2 Hf.
  unfold create_payment, bind, uuid4, utcnow, db_trip, read_payments,
    write_payments, ret.
  cbn. rewrite H1. cbn. unfold new_payment_id in Hf. rewrite Hf. cbn.
  rewrite H2. reflexivity.
Qed.

Lemma gateway_process_run_ok env request details w :
  gateway_accepts env w ->
  gateway_process_payment env (pr_amount request) (pr_payment_method request)
    details w =
  (Ok [ ("success", VBool true);
        ("transaction_id",
         VStr ("txn_" ++ substring 0 16 (uuid4_hex env (2 + uuid_draws w))));
        ("payment_intent_id",
         VStr ("pi_" ++ substring 0 24 (uuid4_hex env (uuid_draws w))));
        ("status", VStr "captured");
        ("captured_at", VIso (clock env (S (clock_reads w))));
        ("amount", VNum (pr_amount request)) ],
   clock_tick (uuid_tick (rng_tick
     (log_call (GwCapture ("pi_" ++ substring 0 24 (uuid4_hex env (uuid_draws w)))
                          (pr_amount request))
        (clock_tick (uuid_tick (uuid_tick (rng_tick
           (log_call (GwAuthorize (pr_amount request) (pr_payment_method request))
                     w))))))))).
Proof.
  intros [H1 H2].
  unfold gateway_process_payment, authorize_payment, capture_payment, bind,
    log_gateway_call, _simulate_processing, _should_succeed, ret, uuid4, utcnow.
  cbn. rewrite H1. cbn. rewrite H2. reflexivity.
Qed.

Lemma update_payment_success_run env pid tid iid resp w :
  store_fault env (db_trips w) = None ->
  store_fault env (S (db_trips w)) = None ->
  unique_clash pid tid iid (payments w) = false ->
  update_payment_success env pid tid iid resp w =
  scalar_one_or_none
    (filter (fun r => String.eqb (pm_id r) pid)
       (update_where_id pid (set_success tid iid resp (clock env (clock_reads w)))
          (payments w)))
    (db_tick (set_payments
       (update_where_id pid (set_success tid iid resp (clock env (clock_reads w)))
          (payments w))
       (db_tick (clock_tick w)))).
Proof.
  intros H1 H2 Hu.
  unfold update_payment_success, bind, utcnow, db_trip, read_payments,
    write_payments.
  cbn. rewrite H1. cbn. rewrite Hu. cbn.
  rewrite get_by_id_run by (cbn; exact H2).
  reflexivity.
Qed.

Lemma unique_clash_fresh pid tid iid rows x :
  existsb (fun r => opt_eqb (pm_transaction_id r) tid
                    || opt_eqb (pm_payment_intent_id r) iid) rows = false ->
  pm_id x = pid ->
  unique_clash pid tid iid (rows ++ [x]) = false.
Proof.
  intros Hf Hx. unfold unique_clash. apply andb_false_iff. right.
  rewrite existsb_app. apply orb_false_iff. split.
  - apply not_true_is_false. intros H. apply existsb_exists in H.
    destruct H as (r & Hin & Hr). apply andb_true_iff in Hr.
    destruct Hr as [_ Hr].
    assert (Hex : existsb (fun r => opt_eqb (pm_transaction_id r) tid
                    || opt_eqb (pm_payment_intent_id r) iid) rows = true).
    { apply existsb_exists. exists r. split; assumption. }
    congruence.
  - cbn. rewrite Hx, String.eqb_refl. reflexivity.
Qed.

Lemma process_payment_run_ok env request w :
  store_available env w ->
  gateway_accepts env w ->
  payment_keys_fresh env w ->
  process_payment env request w =
  (Ok {| resp_success := true;
         resp_transaction_id := Some (new_transaction_id env w);
         resp_payment_intent_id := Some (new_intent_id env w);
         resp_status := CAPTURED;
         resp_error := None |},
   process_world env request w).
Proof.
  intros Hst [Hg1 Hg2] [Hf1 Hf2].
  unfold process_payment. unfold bind at 1.
  rewrite create_payment_run; try (apply Hst; lia); [|exact Hf1].
  unfold bind at 1. unfold try_except at 1.
  unfold process_payment_try. unfold bind at 1.
  rewrite update_status_run by (apply Hst; cbn; lia).
  cbn [payments set_payments db_tick clock_tick uuid_tick clock_reads].
  rewrite update_where_id_app. rewrite (update_where_id_absent _ _ (payments w)) by exact Hf1.
  rewrite filter_app, filter_id_absent by exact Hf1.
  cbn [update_where_id map pending_row pm_id _to_domain id].
  rewrite String.eqb_refl.
  cbn [app filter set_status pm_id]. rewrite String.eqb_refl.
  cbn [scalar_one_or_none ret]. unfold bind at 1.
  rewrite gateway_process_run_ok by (split; cbn; assumption).
  cbn [uuid_draws db_tick clock_reads].
  unfold bind at 1.
  cbn [subscript dict_get String.eqb Ascii.eqb Bool.eqb ret truthy].
  unfold subscript_str. unfold bind at 1. unfold bind at 1.
  cbn [subscript dict_get String.eqb Ascii.eqb Bool.eqb ret as_str].
  unfold bind at 1. unfold bind at 1.
  cbn [subscript dict_get String.eqb Ascii.eqb Bool.eqb ret as_str].
  unfold bind at 1.
  rewrite update_payment_success_run.
  2:{ apply Hst. cbn. lia. }
  2:{ apply Hst. cbn. lia. }
  2:{ cbn [payments clock_tick uuid_tick rng_tick log_call db_tick
           set_payments].
      apply unique_clash_fresh; [exact Hf2 | reflexivity]. }
  cbn [payments clock_tick uuid_tick rng_tick log_call db_tick set_payments].
  rewrite update_where_id_app, (update_where_id_absent _ _ (payments w)) by exact Hf1.
  rewrite filter_app, filter_id_absent by exact Hf1.
  cbn [update_where_id map pm_id set_status].
  rewrite String.eqb_refl.
  cbn [app filter set_success pm_id]. rewrite String.eqb_refl.
  cbn [scalar_one_or_none ret process_payment_finish].
  unfold try_except, bind, getattr, ret, publish_payment_successful.
  rewrite publish_event_run.
  unfold process_world, log_send.
  cbn [gateway_log log_call rng_tick uuid_tick clock_tick db_tick set_payments].
  rewrite <- app_assoc. reflexivity.
Qed.

Lemma filter_none_of_existsb {A} (f g : A -> bool) (l : list A) :
  existsb g l = false ->
  (forall x, f x = true -> g x = true) ->
  filter f l = [].
Proof.
  intros He Hfg. induction l as [|a l IH]; [reflexivity|].
  cbn in He. apply orb_false_iff in He. destruct He as [Ha Hl].
  cbn. destruct (f a) eqn:E.
  - apply Hfg in E. congruence.
  - apply IH. exact Hl.
Qed.

(** ** Claims on [process_payment] *)

(** C6. When authorize and capture both succeed, the store takes every write
    and accepts the generated keys, and the order id of the request fits its
    column, [process_payment] answers success with
    status CAPTURED and the gateway's transaction and intent ids; both ids are
    non-empty; in the resulting table exactly one row carries that transaction
    id and exactly one carries that intent id, and it is the new payment's
    row, which has status CAPTURED and [authorized_at = captured_at]; exactly
    one event, of type [payment.successful] and keyed by the payment id, is
    handed to the producer. *)
Theorem process_payment_captured
    (env : Env) (request : ProcessPaymentRequest) (w : World) :
  store_available env w ->
  gateway_accepts env w ->
  payment_keys_fresh env w ->
  order_id_fits request ->
  exists (w' : World) (tid iid : string) (row : PaymentModel) (now : Z)
         (ev : Event),
    process_payment env request w =
      (Ok {| resp_success := true;
             resp_transaction_id := Some tid;
             resp_payment_intent_id := Some iid;
             resp_status := CAPTURED;
             resp_error := None |},
       w')
    /\ tid <> "" /\ iid <> ""
    /\ payments w' = (payments w ++ [row])%list
    /\ pm_status row = CAPTURED
    /\ pm_order_id row = pr_order_id request
    /\ pm_amount row = pr_amount request
    /\ pm_authorized_at row = Some now
    /\ pm_captured_at row = Some now
    /\ filter (fun r => opt_eqb (pm_transaction_id r) tid) (payments w') = [row]
    /\ filter (fun r => opt_eqb (pm_payment_intent_id r) iid) (payments w')
       = [row]
    /\ publish_log w' = (publish_log w ++ [ev])%list
    /\ event_type ev = "payment.successful"
    /\ ev_payment_id ev = pm_id row.
Proof.
  intros Hst Hg Hfr _.
  exists (process_world env request w), (new_transaction_id env w),
         (new_intent_id env w), (captured_row env request w),
         (clock env (5 + clock_reads w)), (successful_event env request w).
  split; [apply process_payment_run_ok; assumption|].
  destruct Hfr as [_ Hf2].
  split; [discriminate|]. split; [discriminate|].
  repeat (split; [reflexivity|]).
  split; [|split]; [ | | repeat split ].
  - unfold process_world. cbn [payments]. rewrite filter_app.
    rewrite (filter_none_of_existsb _ _ _ Hf2)
      by (intros x Hx; rewrite Hx; reflexivity).
    cbn [filter captured_row set_success pm_transaction_id opt_eqb app].
    rewrite String.eqb_refl. reflexivity.
  - unfold process_world. cbn [payments]. rewrite filter_app.
    rewrite (filter_none_of_existsb _ _ _ Hf2)
      by (intros x Hx; rewrite Hx; apply orb_true_r).
    cbn [filter captured_row set_success pm_payment_intent_id opt_eqb app].
    rewrite String.eqb_refl. reflexivity.
Qed.

Lemma process_payment_captured_witness :
  exists (w' : World) (tid iid : string) (row : PaymentModel),
    process_payment calm_env order1 world_captured =
      (Ok {| resp_success := true;
             resp_transaction_id := Some tid;
             resp_payment_intent_id := Some iid;
             resp_status := CAPTURED;
             resp_error := None |},
       w')
    /\ tid <> "" /\ iid <> ""
    /\ payments w' = (payments world_captured ++ [row])%list
    /\ filter (fun r => opt_eqb (pm_transaction_id r) tid) (payments w') = [row]
    /\ filter (fun r => opt_eqb (pm_payment_intent_id r) iid) (payments w')
       = [row].
Proof.
  destruct (process_payment_captured calm_env order1 world_captured)
    as (w' & tid & iid & row & now & ev & H1 & H2 & H3 & H4 & _ & _ & _ & _
        & _ & H5 & H6 & _).
  - intros n _. reflexivity.
  - split; reflexivity.
  - split; vm_compute; reflexivity.
  - reflexivity.
  - exists w', tid, iid, row.
    exact (conj H1 (conj H2 (conj H3 (conj H4 (conj H5 H6))))).
Defined.

(** ** Frame reasoning

    A relation [R] between worlds that is a preorder and looks at the two
    tables only is kept by every operation as soon as it is kept by the
    writes the operation performs. *)

Section Frame.

Variable env : Env.
Variable R : World -> World -> Prop.
Hypothesis R_refl : forall w, R w w.
Hypothesis R_trans : forall a b c, R a b -> R b c -> R a c.
Hypothesis R_tables :
  forall w w', payments w' = payments w -> R w w'.
Hypothesis R_refunds : forall rs w, R w (set_refunds rs w).
Hypothesis R_status :
  forall pid s t w,
    R w (set_payments (update_where_id pid (set_status s t) (payments w)) w).
Hypothesis R_success :
  forall pid tid iid resp t w,
    R w (set_payments
           (update_where_id pid (set_success tid iid resp t) (payments w)) w).
Hypothesis R_failure :
  forall pid msg resp t w,
    R w (set_payments
           (update_where_id pid (set_failure msg resp t) (payments w)) w).
Hypothesis R_insert :
  forall row w,
    pm_status row = PENDING -> pm_refunded_at row = None ->
    existsb (fun r => String.eqb (pm_id r) (pm_id row)) (payments w) = false ->
    R w (set_payments (payments w ++ [row]) w).

Lemma steps_ret {A} (a : A) : steps R (ret a).
Proof. intros w. apply R_refl. Qed.

Lemma steps_raise {A} (e : exn) : steps R (@raise A e).
Proof. intros w. apply R_refl. Qed.

Lemma steps_bind {A B} (m : M A) (k : A -> M B) :
  steps R m -> (forall a, steps R (k a)) -> steps R (bind m k).
Proof.
  intros Hm Hk w. unfold bind. specialize (Hm w).
  destruct (m w) as [[a|e] w1]; cbn in *.
  - eapply R_trans; [exact Hm | apply Hk].
  - exact Hm.
Qed.

Lemma steps_try_except {A} (body : M A) (handler : exn -> M A) :
  steps R body -> (forall e, steps R (handler e)) ->
  steps R (try_except body handler).
Proof.
  intros Hm Hk w. unfold try_except. specialize (Hm w).
  destruct (body w) as [[a|e] w1]; cbn in *.
  - exact Hm.
  - eapply R_trans; [exact Hm | apply Hk].
Qed.

Lemma steps_db_trip : steps R (db_trip env).
Proof.
  intros w. unfold db_trip.
  destruct (store_fault env (db_trips w)); apply R_tables; reflexivity.
Qed.

Lemma steps_uuid4 : steps R (uuid4 env).
Proof. intros w. apply R_tables. reflexivity. Qed.

Lemma steps_utcnow : steps R (utcnow env).
Proof. intros w. apply R_tables. reflexivity. Qed.

Lemma steps_log_gateway_call c : steps R (log_gateway_call c).
Proof. intros w. apply R_tables. reflexivity. Qed.

Lemma steps_should_succeed : steps R (_should_succeed env).
Proof. intros w. apply R_tables. reflexivity. Qed.

Lemma steps_random_choice l : steps R (random_choice env l).
Proof. intros w. apply R_tables. reflexivity. Qed.

Lemma steps_producer_send ev : steps R (producer_send env ev).
Proof.
  intros w. unfold producer_send.
  destruct (send_fault env (sends w)); apply R_tables; reflexivity.
Qed.

Lemma steps_read_payments_bind {B} (k : list PaymentModel -> M B) :
  (forall w, R w (snd (k (payments w) w))) -> steps R (bind read_payments k).
Proof. intros H w. apply H. Qed.

Lemma step_bind_at {A B} (m : M A) (k : A -> M B) w :
  R w (snd (m w)) -> (forall a, steps R (k a)) -> R w (snd (bind m k w)).
Proof.
  intros Hm Hk. unfold bind.
  destruct (m w) as [[a|e] w1]; cbn in *.
  - eapply R_trans; [exact Hm | apply Hk].
  - exact Hm.
Qed.

Lemma steps_read_refunds : steps R read_refunds.
Proof. intros w. apply R_refl. Qed.

Lemma steps_write_refunds rs : steps R (write_refunds rs).
Proof. intros w. apply R_refunds. Qed.

Lemma steps_subscript d k : steps R (subscript d k).
Proof. unfold subscript. destruct (dict_get k d); [apply steps_ret | apply steps_raise]. Qed.

Lemma steps_as_str k v : steps R (as_str k v).
Proof. destruct v; first [apply steps_ret | apply steps_raise]. Qed.

Lemma steps_scalar_one_or_none rows : steps R (scalar_one_or_none rows).
Proof.
  destruct rows as [|a [|b l]]; first [apply steps_ret | apply steps_raise].
Qed.

Lemma steps_getattr p a : steps R (getattr p a).
Proof. destruct p; [apply steps_ret | apply steps_raise]. Qed.

Ltac steps_basic :=
  repeat
    match goal with
    | |- steps _ (if ?b then _ else _) => destruct b
    | |- steps _ (match ?x with _ => _ end) => destruct x
    | |- steps _ (bind read_payments _) =>
        apply steps_read_payments_bind; intros ?
    | |- steps _ (bind _ _) => apply steps_bind; [|intros ?]
    | |- steps _ (try_except _ _) => apply steps_try_except; [|intros ?]
    | |- steps _ _ =>
        first
          [ apply steps_ret | apply steps_raise
          | apply steps_db_trip | apply steps_uuid4 | apply steps_utcnow
          | apply steps_log_gateway_call | apply steps_should_succeed
          | apply steps_random_choice | apply steps_producer_send
          | apply steps_read_refunds
          | apply steps_write_refunds | apply steps_subscript
          | apply steps_as_str
          | apply steps_scalar_one_or_none | apply steps_getattr ]
    end.

Lemma steps_get_by_id pid : steps R (get_by_id env pid).
Proof.
  unfold get_by_id. steps_basic. apply steps_scalar_one_or_none.
Qed.

Lemma steps_get_by_transaction_id tid : steps R (get_by_transaction_id env tid).
Proof.
  unfold get_by_transaction_id. steps_basic. apply steps_scalar_one_or_none.
Qed.

Lemma steps_update_status pid s : steps R (update_status env pid s).
Proof.
  unfold update_status. steps_basic.
  apply step_bind_at; [apply R_status | intros _; apply steps_get_by_id].
Qed.

Lemma steps_update_payment_success pid tid iid resp :
  steps R (update_payment_success env pid tid iid resp).
Proof.
  unfold update_payment_success. steps_basic.
  apply step_bind_at; [|intros _; apply steps_get_by_id].
  destruct (unique_clash pid tid iid (payments w));
    [apply R_refl | apply R_success].
Qed.

Lemma steps_update_payment_failure pid msg resp :
  steps R (update_payment_failure env pid msg resp).
Proof.
  unfold update_payment_failure. steps_basic.
  apply step_bind_at; [apply R_failure | intros _; apply steps_get_by_id].
Qed.

Lemma steps_create_payment oid amt cur meth :
  steps R (create_payment env oid amt cur meth).
Proof.
  unfold create_payment. steps_basic.
  apply step_bind_at; [|intros _; steps_basic].
  match goal with |- context [if ?b then _ else _] => destruct b eqn:E end;
    [apply R_refl | apply R_insert; [reflexivity | reflexivity | exact E]].
Qed.

Lemma steps_add_refund_record pid rid amt reason :
  steps R (add_refund_record env pid rid amt reason).
Proof.
  unfold add_refund_record. steps_basic.
  unfold bind, read_refunds. cbn.
  repeat match goal with |- context [if ?b then _ else _] => destruct b end;
    first [apply R_refl | apply R_refunds].
Qed.

Lemma steps_publish_event etype pid data :
  steps R (_publish_event env etype pid data).
Proof. unfold _publish_event. steps_basic. Qed.

Lemma steps_gateway_refund_payment tid amt reason :
  steps R (gateway_refund_payment env tid amt reason).
Proof. unfold gateway_refund_payment, _simulate_processing. steps_basic. Qed.

Lemma steps_gateway_process_payment amt meth details :
  steps R (gateway_process_payment env amt meth details).
Proof.
  unfold gateway_process_payment, authorize_payment, capture_payment,
    _simulate_processing.
  steps_basic.
Qed.

Lemma steps_refund_payment request : steps R (refund_payment env request).
Proof.
  unfold refund_payment, subscript_str, dict_get_str, publish_payment_refunded.
  steps_basic;
    first [ apply steps_get_by_transaction_id
          | apply steps_gateway_refund_payment
          | apply steps_update_status
          | apply steps_add_refund_record
          | apply steps_publish_event
          | idtac ];
    steps_basic.
Qed.

Lemma steps_process_payment_except p e :
  steps R (process_payment_except env p e).
Proof.
  unfold process_payment_except. steps_basic.
  apply steps_update_payment_failure.
Qed.

Lemma steps_process_payment request : steps R (process_payment env request).
Proof.
  unfold process_payment, process_payment_try, process_payment_finish,
    subscript_str, dict_get_str, publish_payment_successful,
    publish_payment_failed.
  steps_basic;
    first [ apply steps_create_payment
          | apply steps_gateway_process_payment
          | apply steps_update_status
          | apply steps_update_payment_success
          | apply steps_update_payment_failure
          | apply steps_process_payment_except
          | apply steps_publish_event
          | idtac ];
    steps_basic;
    first [ apply steps_update_payment_success
          | apply steps_update_payment_failure
          | apply steps_publish_event
          | apply steps_process_payment_except
          | idtac ].
Qed.

End Frame.

(** ** The two frame relations *)

Lemma same_but_status_refl r : same_but_status r r.
Proof. repeat split. Qed.

Lemma same_but_status_trans a b c :
  same_but_status a b -> same_but_status b c -> same_but_status a c.
Proof.
  unfold same_but_status. intros H1 H2.
  repeat match goal with H : _ /\ _ |- _ => destruct H end.
  repeat split; congruence.
Qed.
















Lemma keeps_key_update pid f w :
  (forall r, pm_id (f r) = pm_id r) ->
  keeps_key w (set_payments (update_where_id pid f (payments w)) w).
Proof.
  intros Hf. unfold keeps_key, payments_keyed. cbn [payments set_payments].
  rewrite update_where_id_ids by exact Hf. trivial.
Qed.

Lemma keeps_key_insert row w :
  pm_status row = PENDING -> pm_refunded_at row = None ->
  existsb (fun r => String.eqb (pm_id r) (pm_id row)) (payments w) = false ->
  keeps_key w (set_payments (payments w ++ [row]) w).
Proof.
  intros _ _ Hf. unfold keeps_key, payments_keyed. cbn [payments set_payments].
  intros Hnd. rewrite map_app. cbn [map].
  apply NoDup_app; [exact Hnd | repeat constructor; intros [] |].
  intros x Hx [Hx'|[]]. subst x.
  apply in_map_iff in Hx. destruct Hx as (r & Hr & Hin).
  assert (existsb (fun r => String.eqb (pm_id r) (pm_id row)) (payments w)
          = true).
  { apply existsb_exists. exists r. split; [exact Hin|].
    rewrite Hr. apply String.eqb_refl. }
  congruence.
Qed.

Lemma process_payment_keeps_key env request w :
  keeps_key w (snd (process_payment env request w)).
Proof.
  apply (steps_process_payment env keeps_key).
  - intros a H. exact H.
  - intros a b c H1 H2 H. apply H2, H1, H.
  - intros a b E. unfold keeps_key, payments_keyed. rewrite E. trivial.
  - intros. apply keeps_key_update. reflexivity.
  - intros. apply keeps_key_update. reflexivity.
  - intros. apply keeps_key_update. reflexivity.
  - apply keeps_key_insert.
Qed.

Lemma refund_payment_keeps_key env request w :
  keeps_key w (snd (refund_payment env request w)).
Proof.
  apply (steps_refund_payment env keeps_key).
  - intros a H. exact H.
  - intros a b c H1 H2 H. apply H2, H1, H.
  - intros a b E. unfold keeps_key, payments_keyed. rewrite E. trivial.
  - intros rs a H. exact H.
  - intros. apply keeps_key_update. reflexivity.
Qed.

Lemma serve_all_keyed env rs w :
  payments_keyed w -> payments_keyed (serve_all env rs w).
Proof.
  revert w. induction rs as [|r rs IH]; intros w H; [exact H|].
  cbn. apply IH. destruct r as [request|request]; cbn [serve].
  - apply process_payment_keeps_key. exact H.
  - apply refund_payment_keeps_key. exact H.
Qed.

(** ** Claim on the timestamps *)



(** ** Claim on the transitions of the store *)

Lemma existsb_id_of_filter pid rows :
  filter (fun r => String.eqb (pm_id r) pid) rows = [] ->
  existsb (fun r => String.eqb (pm_id r) pid) rows = false.
Proof.
  induction rows as [|a rows IH]; [reflexivity|]. cbn.
  destruct (String.eqb (pm_id a) pid); [discriminate|]. exact IH.
Qed.

Lemma update_unknown_id_run env pid f w :
  rows_with_id pid w = [] ->
  store_fault env (db_trips w) = None ->
  store_fault env (S (db_trips w)) = None ->
  (db_trip env ;;;
   rows <- read_payments ;;
   write_payments (update_where_id pid f rows) ;;;
   get_by_id env pid) w
  = (Ok None, db_tick (db_tick w)).
Proof.
  intros Hr H1 H2.
  pose proof (existsb_id_of_filter _ _ Hr) as He.
  unfold bind, db_trip, read_payments, write_payments. rewrite H1.
  cbn [payments db_tick]. rewrite (update_where_id_absent _ _ _ He).
  rewrite get_by_id_run by (cbn; exact H2).
  unfold rows_with_id. cbn [payments set_payments db_tick].
  unfold rows_with_id in Hr. rewrite Hr. cbn.
  destruct w; reflexivity.
Qed.

(** C4, as the code has it. For an identifier that no row of [payments]
    carries, the three transition operations of the store do not fail when the
    database answers: they change no row and return the empty result [None].
    No NotFound error exists in the repository. *)
Theorem transition_of_unknown_id_returns_none
    (env : Env) (pid : string) (w : World) :
  rows_with_id pid w = [] ->
  store_fault env (db_trips w) = None ->
  store_fault env (S (db_trips w)) = None ->
  (forall s,
     exists w', update_status env pid s w = (Ok None, w')
                /\ payments w' = payments w /\ refunds w' = refunds w)
  /\ (forall tid iid resp,
        exists w', update_payment_success env pid tid iid resp w = (Ok None, w')
                   /\ payments w' = payments w /\ refunds w' = refunds w)
  /\ (forall msg resp,
        exists w', update_payment_failure env pid msg resp w = (Ok None, w')
                   /\ payments w' = payments w /\ refunds w' = refunds w).
Proof.
  intros Hr H1 H2.
  pose proof (existsb_id_of_filter _ _ Hr) as He.
  split; [|split].
  - intros s. exists (db_tick (db_tick (clock_tick w))). split; [|split; reflexivity].
    unfold update_status. unfold bind at 1. cbn [utcnow].
    apply (update_unknown_id_run env pid _ (clock_tick w)); assumption.
  - intros tid iid resp.
    exists (db_tick (db_tick (clock_tick w))). split; [|split; reflexivity].
    unfold update_payment_success. unfold bind at 1. cbn [utcnow].
    rewrite <- (update_unknown_id_run env pid
                  (set_success tid iid resp (clock env (clock_reads w)))
                  (clock_tick w)) by assumption.
    unfold bind, db_trip, read_payments. cbn [db_trips clock_tick].
    rewrite H1. cbn [payments db_tick clock_tick].
    unfold unique_clash. rewrite He. reflexivity.
  - intros msg resp.
    exists (db_tick (db_tick (clock_tick w))). split; [|split; reflexivity].
    unfold update_payment_failure. unfold bind at 1. cbn [utcnow].
    apply (update_unknown_id_run env pid _ (clock_tick w)); assumption.
Qed.

Lemma transition_of_unknown_id_returns_none_witness :
  exists w',
    update_status calm_env "no-such-payment" PROCESSING world_captured
    = (Ok None, w')
    /\ payments w' = payments world_captured.
Proof.
  destruct (transition_of_unknown_id_returns_none calm_env "no-such-payment"
              world_captured) as (H & _ & _).
  - vm_compute. reflexivity.
  - reflexivity.
  - reflexivity.
  - destruct (H PROCESSING) as (w' & Hrun & Hp & _).
    exists w'. exact (conj Hrun Hp).
Defined.

(** C4, as the specification states it, fails: [update_status] on an
    identifier that is not in the store returns [None] without raising. *)
Lemma update_status_unknown_id_counterexample :
  rows_with_id "no-such-payment" world_captured = []
  /\ fst (update_status calm_env "no-such-payment" PROCESSING world_captured)
     = Ok None
  /\ fst (update_payment_success calm_env "no-such-payment" "txn_x" "pi_x" []
            world_captured)
     = Ok None.
Proof. vm_compute. repeat split. Qed.

(** ** The producer does not influence the outcome *)

Section Producers.

Variables env1 env2 : Env.
Hypothesis same_store : forall n, store_fault env1 n = store_fault env2 n.
Hypothesis same_rate :
  forall n, random_below_rate env1 n = random_below_rate env2 n.
Hypothesis same_index : forall n, random_index env1 n = random_index env2 n.
Hypothesis same_uuid : forall n, uuid4_hex env1 n = uuid4_hex env2 n.
Hypothesis same_clock : forall n, clock env1 n = clock env2 n.
Hypothesis same_format : forall s, format_status env1 s = format_status env2 s.

Lemma same_ret {A} (a : A) : same_outcome (ret a) (ret a).
Proof. intros w1 w2 H. split; [reflexivity | exact H]. Qed.

Lemma same_raise {A} (e : exn) : same_outcome (@raise A e) (raise e).
Proof. intros w1 w2 H. split; [reflexivity | exact H]. Qed.

Lemma same_bind {A B} (m1 m2 : M A) (k1 k2 : A -> M B) :
  same_outcome m1 m2 -> (forall a, same_outcome (k1 a) (k2 a)) ->
  same_outcome (bind m1 k1) (bind m2 k2).
Proof.
  intros Hm Hk w1 w2 H. unfold bind. destruct (Hm w1 w2 H) as [Hr Hw].
  destruct (m1 w1) as [[a1|e1] w1'], (m2 w2) as [[a2|e2] w2'];
    cbn in Hr, Hw; try discriminate; inversion Hr; subst.
  - apply Hk. exact Hw.
  - split; [reflexivity | exact Hw].
Qed.

Lemma same_try_except {A} (b1 b2 : M A) (h1 h2 : exn -> M A) :
  same_outcome b1 b2 -> (forall e, same_outcome (h1 e) (h2 e)) ->
  same_outcome (try_except b1 h1) (try_except b2 h2).
Proof.
  intros Hm Hk w1 w2 H. unfold try_except.
  destruct (Hm w1 w2 H) as [Hr Hw].
  destruct (b1 w1) as [[a1|e1] w1'], (b2 w2) as [[a2|e2] w2'];
    cbn in Hr, Hw; try discriminate; inversion Hr; subst.
  - split; [reflexivity | exact Hw].
  - apply Hk. exact Hw.
Qed.

Ltac same_world :=
  let H := fresh in
  intros [? ? ? ? ? ? ? ? ? ?] [? ? ? ? ? ? ? ? ? ?] H;
  unfold forget_topic in H; cbn in H; inversion H; subst; clear H.

Lemma same_db_trip : same_outcome (db_trip env1) (db_trip env2).
Proof.
  same_world. unfold db_trip. cbn. rewrite same_store.
  destruct (store_fault env2 _); split; reflexivity.
Qed.

Lemma same_uuid4 : same_outcome (uuid4 env1) (uuid4 env2).
Proof. same_world. unfold uuid4. cbn. rewrite same_uuid. split; reflexivity. Qed.

Lemma same_utcnow : same_outcome (utcnow env1) (utcnow env2).
Proof. same_world. unfold utcnow. cbn. rewrite same_clock. split; reflexivity. Qed.

Lemma same_log_gateway_call c :
  same_outcome (log_gateway_call c) (log_gateway_call c).
Proof. same_world. split; reflexivity. Qed.

Lemma same_should_succeed :
  same_outcome (_should_succeed env1) (_should_succeed env2).
Proof.
  same_world. unfold _should_succeed. cbn. rewrite same_rate.
  split; reflexivity.
Qed.

Lemma same_random_choice l :
  same_outcome (random_choice env1 l) (random_choice env2 l).
Proof.
  same_world. unfold random_choice. cbn. rewrite same_index.
  split; reflexivity.
Qed.

Lemma same_read_payments : same_outcome read_payments read_payments.
Proof. same_world. split; reflexivity. Qed.

Lemma same_read_refunds : same_outcome read_refunds read_refunds.
Proof. same_world. split; reflexivity. Qed.

Lemma same_write_payments ps :
  same_outcome (write_payments ps) (write_payments ps).
Proof. same_world. split; reflexivity. Qed.

Lemma same_write_refunds rs :
  same_outcome (write_refunds rs) (write_refunds rs).
Proof. same_world. split; reflexivity. Qed.

Lemma same_subscript d k : same_outcome (subscript d k) (subscript d k).
Proof.
  unfold subscript. destruct (dict_get k d); [apply same_ret|apply same_raise].
Qed.

Lemma same_as_str k v : same_outcome (as_str k v) (as_str k v).
Proof. destruct v; first [apply same_ret | apply same_raise]. Qed.

Lemma same_scalar_one_or_none rows :
  same_outcome (scalar_one_or_none rows) (scalar_one_or_none rows).
Proof.
  destruct rows as [|a [|b l]]; first [apply same_ret | apply same_raise].
Qed.

Lemma same_getattr p a : same_outcome (getattr p a) (getattr p a).
Proof. destruct p; [apply same_ret | apply same_raise]. Qed.

(** The one place where the two producers are consulted. *)
Lemma same_publish_event etype pid data :
  same_outcome (_publish_event env1 etype pid data)
               (_publish_event env2 etype pid data).
Proof.
  intros w1 w2 H. rewrite !publish_event_run. split; [reflexivity|].
  revert H. destruct w1, w2. unfold forget_topic. cbn.
  intros H. inversion H; subst. rewrite same_clock. reflexivity.
Qed.

Ltac same_basic :=
  repeat
    match goal with
    | |- same_outcome (if ?b then _ else _) _ => destruct b
    | |- same_outcome (match ?x with _ => _ end) _ => destruct x
    | |- same_outcome (bind _ _) _ => apply same_bind; [|intros ?]
    | |- same_outcome (try_except _ _) _ => apply same_try_except; [|intros ?]
    | |- same_outcome _ _ =>
        first
          [ apply same_ret | apply same_raise
          | rewrite same_format; apply same_ret
          | apply same_db_trip | apply same_uuid4 | apply same_utcnow
          | apply same_log_gateway_call | apply same_should_succeed
          | apply same_random_choice | apply same_read_payments
          | apply same_read_refunds | apply same_write_payments
          | apply same_write_refunds | apply same_subscript
          | apply same_as_str | apply same_scalar_one_or_none
          | apply same_getattr | apply same_publish_event ]
    end.

Lemma same_get_by_id pid :
  same_outcome (get_by_id env1 pid) (get_by_id env2 pid).
Proof. unfold get_by_id. same_basic. Qed.

Lemma same_get_by_transaction_id tid :
  same_outcome (get_by_transaction_id env1 tid)
               (get_by_transaction_id env2 tid).
Proof. unfold get_by_transaction_id. same_basic. Qed.

Lemma same_update_status pid s :
  same_outcome (update_status env1 pid s) (update_status env2 pid s).
Proof. unfold update_status. same_basic. apply same_get_by_id. Qed.

Lemma same_update_payment_success pid tid iid resp :
  same_outcome (update_payment_success env1 pid tid iid resp)
               (update_payment_success env2 pid tid iid resp).
Proof. unfold update_payment_success. same_basic; apply same_get_by_id. Qed.

Lemma same_update_payment_failure pid msg resp :
  same_outcome (update_payment_failure env1 pid msg resp)
               (update_payment_failure env2 pid msg resp).
Proof. unfold update_payment_failure. same_basic. apply same_get_by_id. Qed.

Lemma same_create_payment oid amt cur meth :
  same_outcome (create_payment env1 oid amt cur meth)
               (create_payment env2 oid amt cur meth).
Proof.
  unfold create_payment. same_basic.
Qed.

Lemma same_add_refund_record pid rid amt reason :
  same_outcome (add_refund_record env1 pid rid amt reason)
               (add_refund_record env2 pid rid amt reason).
Proof. unfold add_refund_record. same_basic. Qed.

Lemma same_gateway_refund_payment tid amt reason :
  same_outcome (gateway_refund_payment env1 tid amt reason)
               (gateway_refund_payment env2 tid amt reason).
Proof. unfold gateway_refund_payment, _simulate_processing. same_basic. Qed.

Lemma same_gateway_process_payment amt meth details :
  same_outcome (gateway_process_payment env1 amt meth details)
               (gateway_process_payment env2 amt meth details).
Proof.
  unfold gateway_process_payment, authorize_payment, capture_payment,
    _simulate_processing.
  same_basic.
Qed.

Lemma same_process_payment_except p e :
  same_outcome (process_payment_except env1 p e)
               (process_payment_except env2 p e).
Proof.
  unfold process_payment_except. same_basic.
  apply same_update_payment_failure.
Qed.

Lemma same_refund_payment request :
  same_outcome (refund_payment env1 request) (refund_payment env2 request).
Proof.
  unfold refund_payment, subscript_str, dict_get_str, publish_payment_refunded.
  same_basic;
    first [ apply same_get_by_transaction_id
          | apply same_gateway_refund_payment
          | apply same_update_status
          | apply same_add_refund_record
          | idtac ];
    same_basic.
Qed.

Lemma same_process_payment request :
  same_outcome (process_payment env1 request) (process_payment env2 request).
Proof.
  unfold process_payment, process_payment_try, process_payment_finish,
    subscript_str, dict_get_str, publish_payment_successful,
    publish_payment_failed.
  same_basic;
    first [ apply same_create_payment
          | apply same_gateway_process_payment
          | apply same_update_status
          | apply same_update_payment_success
          | apply same_update_payment_failure
          | apply same_process_payment_except
          | idtac ];
    same_basic;
    first [ apply same_update_payment_success
          | apply same_update_payment_failure
          | apply same_process_payment_except
          | idtac ].
Qed.

End Producers.

(** ** Claim on the publisher *)

(** C9. Whatever the producer does, [_publish_event], and so each of the
    three [publish_payment_*] methods, returns normally and leaves both tables
    as they were: a failed send is swallowed. Consequently the response of
    [process_payment] and of [refund_payment], and the tables they leave, are
    the same whether sends fail or not: replacing the producer's behaviour by
    any other changes neither the result nor the rows. *)
Theorem publish_failures_are_swallowed (env : Env) :
  (forall etype pid data w,
     exists w', _publish_event env etype pid data w = (Ok tt, w')
                /\ payments w' = payments w
                /\ refunds w' = refunds w)
  /\ (forall p w, fst (publish_payment_successful env p w) = Ok tt)
  /\ (forall p msg w, fst (publish_payment_failed env p msg w) = Ok tt)
  /\ (forall p rid amt w, fst (publish_payment_refunded env p rid amt w) = Ok tt)
  /\ (forall f request w,
        fst (process_payment (with_send_fault f env) request w)
        = fst (process_payment env request w)
        /\ payments (snd (process_payment (with_send_fault f env) request w))
           = payments (snd (process_payment env request w))
        /\ refunds (snd (process_payment (with_send_fault f env) request w))
           = refunds (snd (process_payment env request w)))
  /\ (forall f request w,
        fst (refund_payment (with_send_fault f env) request w)
        = fst (refund_payment env request w)
        /\ payments (snd (refund_payment (with_send_fault f env) request w))
           = payments (snd (refund_payment env request w))
        /\ refunds (snd (refund_payment (with_send_fault f env) request w))
           = refunds (snd (refund_payment env request w))).
Proof.
  split.
  { intros etype pid data w. eexists. split; [apply publish_event_run|].
    split; reflexivity. }
  split. { intros. unfold publish_payment_successful. rewrite publish_event_run. reflexivity. }
  split. { intros. unfold publish_payment_failed. rewrite publish_event_run. reflexivity. }
  split. { intros. unfold publish_payment_refunded. rewrite publish_event_run. reflexivity. }
  split.
  - intros f request w.
    assert (H : same_outcome (process_payment (with_send_fault f env) request)
                             (process_payment env request))
      by (apply same_process_payment; intros; reflexivity).
    destruct (H w w eq_refl) as [Hr Hw].
    split; [exact Hr|]. split.
    + exact (f_equal payments Hw).
    + exact (f_equal refunds Hw).
  - intros f request w.
    assert (H : same_outcome (refund_payment (with_send_fault f env) request)
                             (refund_payment env request))
      by (apply same_refund_payment; intros; reflexivity).
    destruct (H w w eq_refl) as [Hr Hw].
    split; [exact Hr|]. split.
    + exact (f_equal payments Hw).
    + exact (f_equal refunds Hw).
Qed.

Example publish_to_dead_broker :
  fst (refund_payment (with_send_fault broker_down calm_env)
         (refund_of order1_tid 4000) world_captured)
  = Ok {| rresp_success := true;
          rresp_refund_id := Some "re_4000000000000000";
          rresp_amount := 4000;
          rresp_error := None |}
  /\ topic_log (snd (refund_payment (with_send_fault broker_down calm_env)
                       (refund_of order1_tid 4000) world_captured))
     = topic_log world_captured.
Proof. vm_compute. split; reflexivity. Qed.

(** ** The failure paths of [process_payment] *)

Lemma bind_ok_inv {A B} (m : M A) (k : A -> M B) w b w' :
  bind m k w = (Ok b, w') ->
  exists a w1, m w = (Ok a, w1) /\ k a w1 = (Ok b, w').
Proof.
  unfold bind. destruct (m w) as [[a|e] w1]; [|discriminate].
  intros H. exists a, w1. split; [reflexivity | exact H].
Qed.

Lemma existsb_update_where_id pid pid' f rows :
  (forall r, pm_id (f r) = pm_id r) ->
  existsb (fun r => String.eqb (pm_id r) pid') (update_where_id pid f rows)
  = existsb (fun r => String.eqb (pm_id r) pid') rows.
Proof.
  intros Hf. induction rows as [|a rows IH]; [reflexivity|].
  change (update_where_id pid f (a :: rows))
    with ((if String.eqb (pm_id a) pid then f a else a)
          :: update_where_id pid f rows).
  cbn [existsb]. rewrite IH. f_equal.
  destruct (String.eqb (pm_id a) pid); [rewrite Hf|]; reflexivity.
Qed.









Lemma process_payment_after_create env request w p w1 :
  create_payment env (pr_order_id request) (pr_amount request)
    (pr_currency request) (pr_payment_method request) w = (Ok p, w1) ->
  process_payment env request w =
  match process_payment_try env p request w1 with
  | (Ok progress, w2) => process_payment_finish env progress w2
  | (Raise e, w2) => process_payment_except env (Some p) e w2
  end.
Proof.
  intros Hc. unfold process_payment. unfold bind at 1. rewrite Hc.
  unfold bind at 1. unfold try_except at 1.
  destruct (process_payment_try env p request w1) as [[progress|e] w2].
  - reflexivity.
  - unfold bind. 
    destruct (process_payment_except env (Some p) e w2) as [[r|e'] w3];
      reflexivity.
Qed.



Lemma gateway_process_declined env amt meth details w :
  gateway_declines env w ->
  exists result wg msg,
    gateway_process_payment env amt meth details w = (Ok result, wg)
    /\ dict_get "success" result = Some (VBool false)
    /\ dict_get "error_message" result = Some (VStr msg)
    /\ payments wg = payments w
    /\ db_trips wg = db_trips w
    /\ sends wg = sends w
    /\ publish_log wg = publish_log w.
Proof.
  unfold gateway_process_payment, authorize_payment, capture_payment, bind,
    log_gateway_call, _simulate_processing, _should_succeed, ret, uuid4,
    utcnow, random_choice.
  intros [H | [H1 H2]]; cbn.
  - rewrite H. cbn. do 3 eexists. repeat split.
  - rewrite H1. cbn. rewrite H2. do 3 eexists. repeat split.
Qed.

Lemma update_payment_failure_run env pid msg resp w :
  store_fault env (db_trips w) = None ->
  store_fault env (S (db_trips w)) = None ->
  update_payment_failure env pid msg resp w =
  scalar_one_or_none
    (filter (fun r => String.eqb (pm_id r) pid)
       (update_where_id pid (set_failure msg resp (clock env (clock_reads w)))
          (payments w)))
    (db_tick (set_payments
       (update_where_id pid (set_failure msg resp (clock env (clock_reads w)))
          (payments w))
       (db_tick (clock_tick w)))).
Proof.
  intros H1 H2.
  unfold update_payment_failure, bind, utcnow, db_trip, read_payments,
    write_payments.
  cbn. rewrite H1. cbn. rewrite get_by_id_run by (cbn; exact H2).
  reflexivity.
Qed.

Lemma process_payment_run_declined env request w :
  store_available env w ->
  existsb (fun r => String.eqb (pm_id r) (new_payment_id env w)) (payments w)
    = false ->
  gateway_declines env w ->
  exists w' msg row result ev,
    process_payment env request w =
      (Ok {| resp_success := false;
             resp_transaction_id := None;
             resp_payment_intent_id := None;
             resp_status := FAILED;
             resp_error := Some msg |},
       w')
    /\ payments w' = (payments w ++ [row])%list
    /\ pm_id row = new_payment_id env w
    /\ pm_status row = FAILED
    /\ pm_error_message row = Some msg
    /\ pm_provider_response row = Some result
    /\ dict_get "success" result = Some (VBool false)
    /\ dict_get "error_message" result = Some (VStr msg)
    /\ publish_log w' = (publish_log w ++ [ev])%list
    /\ event_type ev = "payment.failed"
    /\ ev_payment_id ev = pm_id row
    /\ dict_get "error" (ev_data ev) = Some (VStr msg).
Proof.
  intros Hst Hf Hg.
  rewrite (process_payment_after_create env request w
             (_to_domain (pending_row env request w)) _
             (create_payment_run env request w
                (Hst _ (Nat.le_refl _)) (Hst _ (Nat.le_succ_diag_r _)) Hf)).
  unfold process_payment_try. unfold bind at 1.
  rewrite update_status_run by (apply Hst; cbn; lia).
  cbn [payments set_payments db_tick clock_tick uuid_tick clock_reads].
  rewrite update_where_id_app,
    (update_where_id_absent _ _ (payments w)) by exact Hf.
  rewrite filter_app, filter_id_absent by exact Hf.
  cbn [update_where_id map pending_row pm_id _to_domain id].
  rewrite String.eqb_refl.
  cbn [app filter set_status pm_id]. rewrite String.eqb_refl.
  cbn [scalar_one_or_none ret]. unfold bind at 1.
  match goal with
  | |- context [gateway_process_payment env ?a ?m ?d ?w0] =>
      destruct (gateway_process_declined env a m d w0)
        as (result & wg & msg & Hrun & Hsucc & Hmsg & Hpay & Hdb & Hsend & Hpub);
        [exact Hg | rewrite Hrun]
  end.
  cbn [payments set_payments db_tick db_trips sends publish_log clock_tick
       uuid_tick] in Hpay, Hdb, Hsend, Hpub.
  unfold bind at 1. unfold subscript at 1. rewrite Hsucc.
  cbn [ret truthy]. unfold bind at 1. unfold dict_get_str at 1.
  rewrite Hmsg. cbn [as_str ret]. unfold bind at 1.
  rewrite update_payment_failure_run
    by (rewrite Hdb; apply Hst; lia).
  rewrite Hpay.
  rewrite update_where_id_app,
    (update_where_id_absent _ _ (payments w)) by exact Hf.
  rewrite filter_app, filter_id_absent by exact Hf.
  cbn [update_where_id map pm_id set_status].
  rewrite String.eqb_refl.
  cbn [app filter set_failure pm_id]. rewrite String.eqb_refl.
  cbn [scalar_one_or_none ret process_payment_finish].
  unfold try_except, bind, getattr, ret, publish_payment_failed.
  rewrite publish_event_run.
  do 5 eexists. split; [reflexivity|].
  cbn [payments publish_log log_send clock_tick db_tick set_payments].
  rewrite Hpub.
  repeat split; try reflexivity; assumption.
Qed.




(** ** Refunds against a table of one payment *)



Lemma get_by_transaction_id_single env tid w r :
  payments w = [r] ->
  pm_transaction_id r = Some tid ->
  store_fault env (db_trips w) = None ->
  get_by_transaction_id env tid w = (Ok (Some (_to_domain r)), db_tick w).
Proof.
  intros Hp Ht Hs.
  unfold get_by_transaction_id, bind, db_trip, read_payments. rewrite Hs.
  cbn [payments db_tick]. rewrite Hp. cbn [filter]. rewrite Ht.
  cbn [opt_eqb]. rewrite String.eqb_refl. reflexivity.
Qed.

Lemma refund_payment_single_row env request w r :
  payments w = [r] ->
  pm_transaction_id r = Some (rr_transaction_id request) ->
  status_in (pm_status r) [CAPTURED; PARTIALLY_REFUNDED] = true ->
  store_available env w ->
  random_below_rate env (rng_draws w) = true ->
  refund_keys_fresh env (db_tick w) ->
  refund_payment env request w =
    (Ok {| rresp_success := true;
           rresp_refund_id := Some (next_refund_id env (db_tick w));
           rresp_amount := rr_amount request;
           rresp_error := None |},
     refund_world env request (_to_domain r) (db_tick w))
  /\ payments (refund_world env request (_to_domain r) (db_tick w)) =
       [set_status (refund_status (rr_amount request) (pm_amount r))
                   (clock env (S (clock_reads w))) r].
Proof.
  intros Hp Ht Hs Hst Hg Hfr. split.
  - apply refund_payment_run_ok; try assumption.
    + unfold payments_keyed. rewrite Hp. repeat constructor. intros [].
    + apply get_by_transaction_id_single; try assumption.
      apply Hst. apply Nat.le_refl.
    + intros n Hn. apply Hst. cbn in Hn. lia.
  - unfold refund_world. cbn [payments db_tick]. rewrite Hp.
    cbn [update_where_id map _to_domain id amount]. rewrite String.eqb_refl.
    reflexivity.
Qed.

(** ** Claims on the sum of refunds and on the refund scenario *)

(** C2, as the code has it. Order "ORD-1" for 100.00 is processed with a
    gateway that always succeeds: the payment is CAPTURED. The refund of 40.00
    succeeds and leaves PARTIALLY_REFUNDED. The refund of 60.00 succeeds and
    leaves PARTIALLY_REFUNDED again, because the requested amount, not the
    sum, is compared with the original amount. A third refund of any positive
    amount [a] is therefore not rejected: it succeeds and leaves REFUNDED when
    [a >= 100.00] and PARTIALLY_REFUNDED otherwise. *)
Theorem refund_scenario (env : Env) (a : Z) :
  scenario_env env ->
  0 < a ->
  exists (tid iid rid1 rid2 rid3 : string) (w1 w2 w3 w4 : World),
    process_payment env order1 initial_world =
      (Ok {| resp_success := true;
             resp_transaction_id := Some tid;
             resp_payment_intent_id := Some iid;
             resp_status := CAPTURED;
             resp_error := None |}, w1)
    /\ map pm_status (payments w1) = [CAPTURED]
    /\ refund_payment env (refund_of tid 4000) w1 =
         (Ok {| rresp_success := true;
                rresp_refund_id := Some rid1;
                rresp_amount := 4000;
                rresp_error := None |}, w2)
    /\ map pm_status (payments w2) = [PARTIALLY_REFUNDED]
    /\ refund_payment env (refund_of tid 6000) w2 =
         (Ok {| rresp_success := true;
                rresp_refund_id := Some rid2;
                rresp_amount := 6000;
                rresp_error := None |}, w3)
    /\ map pm_status (payments w3) = [PARTIALLY_REFUNDED]
    /\ refund_payment env (refund_of tid a) w3 =
         (Ok {| rresp_success := true;
                rresp_refund_id := Some rid3;
                rresp_amount := a;
                rresp_error := None |}, w4)
    /\ map pm_status (payments w4) =
         [if a >=? 10000 then REFUNDED else PARTIALLY_REFUNDED]
    /\ map rf_amount (refunds w4) = [4000; 6000; a].
Proof.
  intros (Hstore & Hgw & Hre & Hkey) Ha.
  assert (Hst : forall w, store_available env w) by (intros w n _; apply Hstore).
  set (tid := new_transaction_id env initial_world).
  set (w1 := process_world env order1 initial_world).
  set (r1 := captured_row env order1 initial_world).
  destruct (refund_payment_single_row env (refund_of tid 4000) w1 r1)
    as [Hrun2 Hpay2]; try reflexivity; try apply Hst; try apply Hgw.
  { split; reflexivity. }
  set (w2 := refund_world env (refund_of tid 4000) (_to_domain r1) (db_tick w1))
    in *.
  set (r2 := set_status (refund_status (rr_amount (refund_of tid 4000))
                           (pm_amount r1))
                        (clock env (S (clock_reads w1))) r1) in *.
  destruct (refund_payment_single_row env (refund_of tid 6000) w2 r2)
    as [Hrun3 Hpay3]; try exact Hpay2; try reflexivity; try apply Hst;
    try apply Hgw.
  { split.
    - change (String.eqb (uuid_str (uuid4_hex env 5))
                         (uuid_str (uuid4_hex env 7)) || false = false).
      rewrite (Hkey 5%nat 7%nat) by (cbn; auto). reflexivity.
    - change (String.eqb ("re_" ++ substring 0 16 (uuid4_hex env 4))
                         ("re_" ++ substring 0 16 (uuid4_hex env 6)) || false
              = false).
      rewrite (Hre 4%nat 6%nat) by (cbn; auto). reflexivity. }
  set (w3 := refund_world env (refund_of tid 6000) (_to_domain r2) (db_tick w2))
    in *.
  set (r3 := set_status (refund_status (rr_amount (refund_of tid 6000))
                           (pm_amount r2))
                        (clock env (S (clock_reads w2))) r2) in *.
  destruct (refund_payment_single_row env (refund_of tid a) w3 r3)
    as [Hrun4 Hpay4]; try exact Hpay3; try reflexivity; try apply Hst;
    try apply Hgw.
  { split.
    - change (String.eqb (uuid_str (uuid4_hex env 5))
                         (uuid_str (uuid4_hex env 9))
              || (String.eqb (uuid_str (uuid4_hex env 7))
                             (uuid_str (uuid4_hex env 9)) || false) = false).
      rewrite (Hkey 5%nat 9%nat), (Hkey 7%nat 9%nat) by (cbn; auto).
      reflexivity.
    - change (String.eqb ("re_" ++ substring 0 16 (uuid4_hex env 4))
                         ("re_" ++ substring 0 16 (uuid4_hex env 8))
              || (String.eqb ("re_" ++ substring 0 16 (uuid4_hex env 6))
                             ("re_" ++ substring 0 16 (uuid4_hex env 8))
                  || false) = false).
      rewrite (Hre 4%nat 8%nat), (Hre 6%nat 8%nat) by (cbn; auto).
      reflexivity. }
  exists tid, (new_intent_id env initial_world),
         (next_refund_id env (db_tick w1)), (next_refund_id env (db_tick w2)),
         (next_refund_id env (db_tick w3)), w1, w2, w3.
  eexists.
  split.
  { apply process_payment_run_ok; [apply Hst | split; apply Hgw |].
    split; reflexivity. }
  split; [reflexivity|].
  split; [exact Hrun2|].
  split; [rewrite Hpay2; reflexivity|].
  split; [exact Hrun3|].
  split; [rewrite Hpay3; reflexivity|].
  split; [exact Hrun4|].
  split; [rewrite Hpay4; reflexivity|].
  reflexivity.
Qed.

Lemma calm_env_scenario : scenario_env calm_env.
Proof.
  split; [reflexivity|]. split; [reflexivity|]. split.
  - intros i j H. cbn in H.
    repeat (destruct H as [H|H]; [inversion H; subst; reflexivity|]).
    destruct H.
  - intros i j H. cbn in H.
    repeat (destruct H as [H|H]; [inversion H; subst; reflexivity|]).
    destruct H.
Defined.

Lemma refund_scenario_witness :
  exists (tid rid3 : string) (w3 w4 : World),
    map pm_status (payments w3) = [PARTIALLY_REFUNDED]
    /\ refund_payment calm_env (refund_of tid 1) w3 =
         (Ok {| rresp_success := true;
                rresp_refund_id := Some rid3;
                rresp_amount := 1;
                rresp_error := None |}, w4)
    /\ map rf_amount (refunds w4) = [4000; 6000; 1].
Proof.
  destruct (refund_scenario calm_env 1 calm_env_scenario)
    as (tid & iid & rid1 & rid2 & rid3 & w1 & w2 & w3 & w4 &
        _ & _ & _ & _ & _ & H3 & H4 & _ & H5).
  - lia.
  - exists tid, rid3, w3, w4. exact (conj H3 (conj H4 H5)).
Defined.

(** C2, as the specification states it, fails: after the refunds of 40.00 and
    60.00 the payment is PARTIALLY_REFUNDED, not REFUNDED, and a third refund,
    here of 0.01, is accepted. *)
Lemma refund_scenario_counterexample :
  fst (process_payment calm_env order1 initial_world)
  = Ok {| resp_success := true;
          resp_transaction_id := Some order1_tid;
          resp_payment_intent_id := Some "pi_100000000000000000000000";
          resp_status := CAPTURED;
          resp_error := None |}
  /\ (let w2 := snd (refund_payment calm_env (refund_of order1_tid 4000)
                       world_captured) in
      let w3 := snd (refund_payment calm_env (refund_of order1_tid 6000) w2) in
      map pm_status (payments w2) = [PARTIALLY_REFUNDED]
      /\ fst (refund_payment calm_env (refund_of order1_tid 6000) w2)
         = Ok {| rresp_success := true;
                 rresp_refund_id := Some "re_6000000000000000";
                 rresp_amount := 6000;
                 rresp_error := None |}
      /\ map pm_status (payments w3) = [PARTIALLY_REFUNDED]
      /\ map pm_status (payments w3) <> [REFUNDED]
      /\ fst (refund_payment calm_env (refund_of order1_tid 1) w3)
         = Ok {| rresp_success := true;
                 rresp_refund_id := Some "re_8000000000000000";
                 rresp_amount := 1;
                 rresp_error := None |}).
Proof.
  vm_compute. repeat split. discriminate.
Qed.




(** * Further properties of the payment service *)

(** ** Lookups *)

(** X1. A lookup by id, by order id or by transaction id, whatever it returns
    or raises, changes nothing but the count of database round trips: tables,
    gateway log, producer log and the other counters are untouched. The three
    query methods of the service are these lookups. *)
Theorem lookups_only_count_a_round_trip (env : Env) (k : string) (w : World) :
  snd (get_by_id env k w) = db_tick w
  /\ snd (get_by_order_id env k w) = db_tick w
  /\ snd (get_by_transaction_id env k w) = db_tick w
  /\ snd (get_payment env k w) = db_tick w
  /\ snd (get_payment_by_order env k w) = db_tick w
  /\ snd (get_payment_by_transaction env k w) = db_tick w.
Proof.
  assert (H : forall f : PaymentModel -> bool,
            snd ((db_trip env ;;;
                  rows <- read_payments ;;
                  scalar_one_or_none (filter f rows)) w) = db_tick w).
  { intros f. unfold bind, db_trip, read_payments.
    destruct (store_fault env (db_trips w)); [reflexivity|].
    destruct (filter f (payments (db_tick w))) as [|a [|b l]]; reflexivity. }
  repeat split; apply H.
Qed.

(** X2. Insert, then look up: the payment returned by [create_payment] is the
    one [get_by_id] returns for its id right afterwards (when the database
    answers), and it is PENDING with no transaction id. *)
Theorem create_then_get_by_id
    (env : Env) (oid : string) (amt : Z) (cur : Currency)
    (meth : PaymentMethod) (w w1 : World) (p : Payment) :
  create_payment env oid amt cur meth w = (Ok p, w1) ->
  store_fault env (db_trips w1) = None ->
  get_by_id env (id p) w1 = (Ok (Some p), db_tick w1)
  /\ status p = PENDING
  /\ transaction_id p = None
  /\ order_id p = oid /\ amount p = amt.
Proof.
  unfold create_payment. intros H Hs.
  apply bind_ok_inv in H. destruct H as (u & wa & Hu & H).
  apply bind_ok_inv in H. destruct H as (t1 & wb & Ht1 & H).
  apply bind_ok_inv in H. destruct H as (t2 & wc & Ht2 & H).
  apply bind_ok_inv in H. destruct H as (x1 & wd & Hd1 & H).
  apply bind_ok_inv in H. destruct H as (rows & we & Hrows & H).
  apply bind_ok_inv in H. destruct H as (x2 & wf & Hwr & H).
  apply bind_ok_inv in H. destruct H as (x3 & wg & Hd2 & H).
  inversion H; subst; clear H.
  inversion Hrows; subst; clear Hrows.
  destruct (existsb _ (payments we)) eqn:Hfresh; [discriminate|].
  inversion Hwr; subst; clear Hwr.
  unfold db_trip in Hd2.
  destruct (store_fault env _); inversion Hd2; subst; clear Hd2.
  split; [|repeat split].
  rewrite get_by_id_run by exact Hs.
  unfold rows_with_id. cbn [payments set_payments db_tick _to_domain id].
  cbn [pm_id]. rewrite filter_app, (filter_id_absent _ _ Hfresh).
  cbn [filter app pm_id].
  rewrite String.eqb_refl. reflexivity.
Qed.

Lemma create_then_get_by_id_witness :
  exists p w1,
    create_payment calm_env "ORD-1" 10000 USD CREDIT_CARD initial_world
    = (Ok p, w1)
    /\ get_by_id calm_env (id p) w1 = (Ok (Some p), db_tick w1).
Proof.
  eexists. eexists. split; [vm_compute; reflexivity|].
  apply (create_then_get_by_id calm_env "ORD-1" 10000 USD CREDIT_CARD
           initial_world).
  - vm_compute. reflexivity.
  - reflexivity.
Defined.

Lemma refund_payment_returns_after_lookup
    (env : Env) (request : RefundRequest) (w w1 : World)
    (found : option Payment) :
  get_by_transaction_id env (rr_transaction_id request) w = (Ok found, w1) ->
  exists resp w',
    refund_payment env request w = (Ok resp, w')
    /\ rresp_amount resp = rr_amount request.
Proof.
  intros Hl. unfold refund_payment. unfold bind at 1. rewrite Hl.
  destruct found as [p|]; [|eexists; eexists; split; reflexivity].
  destruct (negb _); [eexists; eexists; split; reflexivity|].
  unfold try_except.
  match goal with
  | |- context [match ?b w1 with _ => _ end] =>
      assert (Hamt : forall r w2, b w1 = (Ok r, w2) ->
                                  rresp_amount r = rr_amount request);
        [|destruct (b w1) as [[r|e] w2] eqn:E]
  end.
  - intros r w2 H.
    apply bind_ok_inv in H. destruct H as (result & wa & _ & H).
    apply bind_ok_inv in H. destruct H as (ok & wb & _ & H).
    destruct (truthy ok).
    + apply bind_ok_inv in H. destruct H as (x & wc & _ & H).
      apply bind_ok_inv in H. destruct H as (rid & wd & _ & H).
      apply bind_ok_inv in H. destruct H as (y & we & _ & H).
      apply bind_ok_inv in H. destruct H as (z & wf & _ & H).
      inversion H. reflexivity.
    + apply bind_ok_inv in H. destruct H as (msg & wc & _ & H).
      inversion H. reflexivity.
  - exists r, w2. split; [reflexivity | eapply Hamt; reflexivity].
  - eexists. eexists. split; reflexivity.
Qed.

(** X3. Once the lookup by transaction id has returned (a payment or
    nothing), [refund_payment] never raises: every later exception, from the
    gateway, the store or the response dictionary, is turned into a failure
    response by its [except] clause. It can raise only what the lookup
    raises. *)
Theorem refund_payment_raises_only_at_lookup
    (env : Env) (request : RefundRequest) (w w1 : World)
    (found : option Payment) :
  get_by_transaction_id env (rr_transaction_id request) w = (Ok found, w1) ->
  exists resp w',
    refund_payment env request w = (Ok resp, w')
    /\ rresp_amount resp = rr_amount request.
Proof. exact (refund_payment_returns_after_lookup env request w w1 found). Qed.

Lemma refund_payment_raises_only_at_lookup_witness :
  exists resp w',
    refund_payment (store_outage_env 7 3) (refund_of order1_tid 4000)
      world_captured = (Ok resp, w')
    /\ rresp_amount resp = 4000.
Proof.
  apply (refund_payment_raises_only_at_lookup (store_outage_env 7 3)
           (refund_of order1_tid 4000) world_captured
           (db_tick world_captured) (Some (first_payment world_captured))).
  vm_compute. reflexivity.
Defined.

(** The store failing in the middle of a refund: the gateway has refunded,
    the status update is refused, the caller gets a failure response. *)
Example refund_with_store_outage :
  fst (refund_payment (store_outage_env 7 3) (refund_of order1_tid 4000)
         world_captured)
  = Ok {| rresp_success := false;
          rresp_refund_id := None;
          rresp_amount := 4000;
          rresp_error := Some "Refund processing error: connection refused" |}
  /\ gateway_log (snd (refund_payment (store_outage_env 7 3)
                         (refund_of order1_tid 4000) world_captured))
     = (gateway_log world_captured ++ [GwRefund order1_tid 4000 None])%list
  /\ refunds (snd (refund_payment (store_outage_env 7 3)
                     (refund_of order1_tid 4000) world_captured)) = [].
Proof. vm_compute. repeat split. Qed.

(** X4. Process, then look up: when the gateway accepts, the store takes the
    writes and the order id fits its column, [process_payment] succeeds and
    the payment is then found by its transaction id and by its id; both
    lookups return the same payment, and it is CAPTURED for the requested
    order and amount with the ids of the response. *)
Theorem process_then_lookup
    (env : Env) (request : ProcessPaymentRequest) (w : World) :
  store_available env w ->
  gateway_accepts env w ->
  payment_keys_fresh env w ->
  order_id_fits request ->
  exists (w' : World) (p : Payment) (tid iid : string),
    process_payment env request w =
      (Ok {| resp_success := true;
             resp_transaction_id := Some tid;
             resp_payment_intent_id := Some iid;
             resp_status := CAPTURED;
             resp_error := None |}, w')
    /\ get_payment_by_transaction env tid w' = (Ok (Some p), db_tick w')
    /\ get_payment env (id p) w' = (Ok (Some p), db_tick w')
    /\ status p = CAPTURED
    /\ order_id p = pr_order_id request
    /\ amount p = pr_amount request
    /\ transaction_id p = Some tid
    /\ payment_intent_id p = Some iid.
Proof.
  intros Hst Hg Hfr _.
  exists (process_world env request w),
         (_to_domain (captured_row env request w)),
         (new_transaction_id env w), (new_intent_id env w).
  split; [apply process_payment_run_ok; assumption|].
  destruct Hfr as [Hf1 Hf2].
  assert (Hs : store_fault env (db_trips (process_world env request w)) = None).
  { apply Hst. cbn. lia. }
  split; [|split; [|repeat split]].
  - unfold get_payment_by_transaction, get_by_transaction_id, bind, db_trip,
      read_payments.
    rewrite Hs. cbn [payments db_tick process_world].
    rewrite filter_app.
    rewrite (filter_none_of_existsb _ _ _ Hf2)
      by (intros x Hx; rewrite Hx; reflexivity).
    cbn [filter captured_row set_success pm_transaction_id opt_eqb app].
    rewrite String.eqb_refl. reflexivity.
  - unfold get_payment. rewrite get_by_id_run by exact Hs.
    unfold rows_with_id. cbn [payments process_world _to_domain id].
    rewrite filter_app.
    change (pm_id (captured_row env request w)) with (new_payment_id env w).
    rewrite (filter_id_absent _ _ Hf1).
    cbn [filter app].
    change (pm_id (captured_row env request w)) with (new_payment_id env w).
    rewrite String.eqb_refl. reflexivity.
Qed.

Lemma process_then_lookup_witness :
  exists (w' : World) (p : Payment) (tid : string),
    get_payment_by_transaction calm_env tid w' = (Ok (Some p), db_tick w')
    /\ status p = CAPTURED
    /\ amount p = 10000.
Proof.
  destruct (process_then_lookup calm_env order1 world_captured)
    as (w' & p & tid & iid & _ & H1 & _ & H2 & _ & H3 & _).
  - intros n _. reflexivity.
  - split; reflexivity.
  - split; vm_compute; reflexivity.
  - reflexivity.
  - exists w', p, tid. exact (conj H1 (conj H2 H3)).
Defined.




(** ** The gateway *)

Lemma random_choice_in env (l : list string) w :
  l <> [] ->
  exists c, random_choice env l w = (Ok c, rng_tick w) /\ In c l.
Proof.
  intros Hl. eexists. split; [reflexivity|].
  apply nth_In. apply Nat.mod_upper_bound.
  destruct l; [congruence | discriminate].
Qed.

(** X6. When authorize fails, the combined gateway call returns authorize's
    answer as it is and capture is never attempted: the gateway's log gains
    the authorize call only and no identifier is drawn. The answer carries one
    of the three decline codes, with the message the table gives for that
    code, never the fallback message. *)
Theorem gateway_authorize_failure_skips_capture
    (env : Env) (amt : Z) (meth : PaymentMethod) (details : dict) (w : World) :
  random_below_rate env (rng_draws w) = false ->
  exists (result : dict) (w' : World) (code : string),
    gateway_process_payment env amt meth details w = (Ok result, w')
    /\ authorize_payment env amt meth details w = (Ok result, w')
    /\ gateway_log w' = (gateway_log w ++ [GwAuthorize amt meth])%list
    /\ uuid_draws w' = uuid_draws w
    /\ dict_get "success" result = Some (VBool false)
    /\ dict_get "error_code" result = Some (VStr code)
    /\ In code ["insufficient_funds"; "card_declined"; "expired_card"]
    /\ dict_get "error_message" result = Some (VStr (_get_error_message code))
    /\ _get_error_message code <> "Payment processing error".
Proof.
  intros H.
  destruct (random_choice_in env
              ["insufficient_funds"; "card_declined"; "expired_card"]
              (rng_tick (log_call (GwAuthorize amt meth) w)))
    as (code & Hc & Hin); [discriminate|].
  assert (Ha : authorize_payment env amt meth details w =
               (Ok [ ("success", VBool false);
                     ("error_code", VStr code);
                     ("error_message", VStr (_get_error_message code));
                     ("status", VStr "failed") ],
                rng_tick (rng_tick (log_call (GwAuthorize amt meth) w)))).
  { unfold authorize_payment, bind, log_gateway_call, _simulate_processing,
      _should_succeed, ret.
    cbn [rng_draws log_call]. rewrite H. rewrite Hc. reflexivity. }
  do 3 eexists. split; [|split; [exact Ha|]].
  - unfold gateway_process_payment. unfold bind at 1. rewrite Ha. reflexivity.
  - repeat split; try reflexivity; try exact Hin.
    cbn in Hin. destruct Hin as [<-|[<-|[<-|[]]]]; discriminate.
Qed.

Lemma gateway_authorize_failure_skips_capture_witness :
  exists (result : dict) (w' : World),
    gateway_process_payment declining_env 10000 CREDIT_CARD [] initial_world
    = (Ok result, w')
    /\ gateway_log w' = [GwAuthorize 10000 CREDIT_CARD].
Proof.
  destruct (gateway_authorize_failure_skips_capture declining_env 10000
              CREDIT_CARD [] initial_world)
    as (result & w' & code & H1 & _ & H2 & _).
  - reflexivity.
  - exists result, w'. exact (conj H1 H2).
Defined.

(** X7. When authorize succeeds and capture fails, the combined call answers
    [capture_failed] with "Failed to capture payment"; the authorization is
    left as it is: the log shows authorize then capture of the issued intent,
    and no void. *)
Theorem gateway_capture_failure_leaves_authorization
    (env : Env) (amt : Z) (meth : PaymentMethod) (details : dict) (w : World) :
  random_below_rate env (rng_draws w) = true ->
  random_below_rate env (S (rng_draws w)) = false ->
  exists (w' : World),
    gateway_process_payment env amt meth details w =
      (Ok [ ("success", VBool false);
            ("error_code", VStr "capture_failed");
            ("error_message", VStr "Failed to capture payment");
            ("status", VStr "failed") ], w')
    /\ gateway_log w' =
         (gateway_log w ++
            [ GwAuthorize amt meth;
              GwCapture ("pi_" ++ substring 0 24 (uuid4_hex env (uuid_draws w)))
                        amt ])%list
    /\ _get_error_message "capture_failed" = "Failed to capture payment".
Proof.
  intros H1 H2.
  unfold gateway_process_payment, authorize_payment, capture_payment, bind,
    log_gateway_call, _simulate_processing, _should_succeed, ret, uuid4,
    utcnow.
  cbn. rewrite H1. cbn. rewrite H2. eexists. split; [reflexivity|].
  split; [|reflexivity]. cbn. rewrite <- app_assoc. reflexivity.
Qed.

Lemma gateway_capture_failure_leaves_authorization_witness :
  exists w',
    gateway_process_payment capture_failing_env 10000 CREDIT_CARD []
      initial_world =
      (Ok [ ("success", VBool false);
            ("error_code", VStr "capture_failed");
            ("error_message", VStr "Failed to capture payment");
            ("status", VStr "failed") ], w')
    /\ gateway_log w' =
         [ GwAuthorize 10000 CREDIT_CARD;
           GwCapture "pi_000000000000000000000000" 10000 ].
Proof.
  destruct (gateway_capture_failure_leaves_authorization capture_failing_env
              10000 CREDIT_CARD [] initial_world) as (w' & H1 & H2 & _).
  - reflexivity.
  - reflexivity.
  - exists w'. exact (conj H1 H2).
Defined.

(** X8. The gateway never raises and keeps to itself: whatever the draws,
    each of its calls returns a dictionary with a [success] entry and leaves
    the two tables, the database counter and the producer's logs as they
    were. *)
Theorem gateway_returns_and_keeps_to_itself
    (env : Env) (amt : Z) (meth : PaymentMethod) (details : dict)
    (tid iid : string) (reason : option string) (w : World) :
  (exists result w' b,
     gateway_process_payment env amt meth details w = (Ok result, w')
     /\ dict_get "success" result = Some (VBool b) /\ gateway_only w w')
  /\ (exists result w' b,
        gateway_refund_payment env tid amt reason w = (Ok result, w')
        /\ dict_get "success" result = Some (VBool b) /\ gateway_only w w')
  /\ (exists result w',
        void_authorization iid w = (Ok result, w')
        /\ dict_get "success" result = Some (VBool true)
        /\ gateway_only w w' /\ rng_draws w' = rng_draws w).
Proof.
  split; [|split].
  - unfold gateway_process_payment, authorize_payment, capture_payment, bind,
      log_gateway_call, _simulate_processing, _should_succeed, ret, uuid4,
      utcnow, random_choice.
    cbn. destruct (random_below_rate env (rng_draws w)); cbn.
    + destruct (random_below_rate env (S (rng_draws w)));
        do 3 eexists; repeat split.
    + do 3 eexists. repeat split.
  - destruct (gateway_refund_cases env tid amt reason w) as [E|E]; rewrite E;
      do 3 eexists; repeat split.
  - do 2 eexists. repeat split.
Qed.

(** ** Responses *)

Lemma try_except_ok_inv {A} (b : M A) (h : exn -> M A) w a w' :
  try_except b h w = (Ok a, w') ->
  b w = (Ok a, w')
  \/ exists e w1, b w = (Raise e, w1) /\ h e w1 = (Ok a, w').
Proof.
  unfold try_except. destruct (b w) as [[x|e] w1]; intros H.
  - left. exact H.
  - right. exists e, w1. split; [reflexivity | exact H].
Qed.

Lemma process_payment_except_shape env p e w r w' :
  process_payment_except env p e w = (Ok r, w') ->
  resp_success r = false /\ resp_status r = FAILED
  /\ resp_transaction_id r = None /\ resp_payment_intent_id r = None
  /\ resp_error r = Some ("Payment processing error: " ++ exn_str e).
Proof.
  unfold process_payment_except. intros H.
  apply bind_ok_inv in H. destruct H as (q & wa & _ & H).
  apply bind_ok_inv in H. destruct H as (o & wb & _ & H).
  inversion H. repeat split.
Qed.

Lemma process_payment_shape
    (env : Env) (request : ProcessPaymentRequest) (w w' : World)
    (resp : PaymentResponse) :
  process_payment env request w = (Ok resp, w') ->
  payment_response_shape resp.
Proof.
  unfold process_payment. intros H.
  apply bind_ok_inv in H. destruct H as (p & w1 & _ & H).
  apply bind_ok_inv in H. destruct H as (progress & w2 & Hp & H).
  assert (Hfail : forall q e wa r wb,
            process_payment_except env q e wa = (Ok r, wb) ->
            payment_response_shape r).
  { intros q e wa r wb He. right.
    destruct (process_payment_except_shape _ _ _ _ _ _ He)
      as (H1 & H2 & H3 & H4 & H5).
    rewrite H5. repeat split; try assumption. discriminate. }
  destruct progress as [response | payment' tid iid | payment' msg];
    cbn [process_payment_finish] in H.
  - inversion H; subst.
    apply try_except_ok_inv in Hp. destruct Hp as [Hp | (e & wa & _ & Hp)].
    + unfold process_payment_try in Hp.
      apply bind_ok_inv in Hp. destruct Hp as (x & wb & _ & Hp).
      apply bind_ok_inv in Hp. destruct Hp as (result & wc & _ & Hp).
      apply bind_ok_inv in Hp. destruct Hp as (ok & wd & _ & Hp).
      destruct (truthy ok).
      * apply bind_ok_inv in Hp. destruct Hp as (t & we & _ & Hp).
        apply bind_ok_inv in Hp. destruct Hp as (i & wf & _ & Hp).
        apply bind_ok_inv in Hp. destruct Hp as (q & wg & _ & Hp).
        discriminate Hp.
      * apply bind_ok_inv in Hp. destruct Hp as (m & we & _ & Hp).
        apply bind_ok_inv in Hp. destruct Hp as (q & wf & _ & Hp).
        discriminate Hp.
    + apply bind_ok_inv in Hp. destruct Hp as (r & wb & He & Hp).
      inversion Hp; subst. eapply Hfail. exact He.
  - apply try_except_ok_inv in H. destruct H as [H | (e & wa & _ & H)].
    + apply bind_ok_inv in H. destruct H as (q & wb & _ & H).
      apply bind_ok_inv in H. destruct H as (x & wc & _ & H).
      inversion H. left. repeat split; discriminate.
    + eapply Hfail. exact H.
  - apply try_except_ok_inv in H. destruct H as [H | (e & wa & _ & H)].
    + apply bind_ok_inv in H. destruct H as (q & wb & _ & H).
      apply bind_ok_inv in H. destruct H as (x & wc & _ & H).
      inversion H. right. repeat split. discriminate.
    + eapply Hfail. exact H.
Qed.

(** X9. Every response [process_payment] returns has one of two shapes:
    success with status CAPTURED, both gateway ids and no error; or failure
    with status FAILED, no ids and an error text. A failure response never
    carries a transaction id, even when the gateway had captured. *)
Theorem process_payment_response_shape
    (env : Env) (request : ProcessPaymentRequest) (w w' : World)
    (resp : PaymentResponse) :
  process_payment env request w = (Ok resp, w') ->
  payment_response_shape resp.
Proof. exact (process_payment_shape env request w w' resp). Qed.

Lemma process_payment_response_shape_witness :
  payment_response_shape
    {| resp_success := false;
       resp_transaction_id := None;
       resp_payment_intent_id := None;
       resp_status := FAILED;
       resp_error := Some "Payment processing error: connection refused" |}.
Proof.
  apply (process_payment_response_shape (store_outage_env 5 1) order1
           initial_world
           (snd (process_payment (store_outage_env 5 1) order1 initial_world))).
  vm_compute. reflexivity.
Defined.

Lemma refund_payment_shape
    (env : Env) (request : RefundRequest) (w w' : World)
    (resp : RefundResponse) :
  refund_payment env request w = (Ok resp, w') ->
  refund_response_shape resp /\ rresp_amount resp = rr_amount request.
Proof.
  unfold refund_payment. intros H.
  apply bind_ok_inv in H. destruct H as (found & w1 & _ & H).
  destruct found as [p|].
  2:{ inversion H. split; [right; repeat split; discriminate | reflexivity]. }
  destruct (negb _).
  { inversion H. split; [right; repeat split; discriminate | reflexivity]. }
  apply try_except_ok_inv in H. destruct H as [H | (e & wa & _ & H)].
  - apply bind_ok_inv in H. destruct H as (result & wb & _ & H).
    apply bind_ok_inv in H. destruct H as (ok & wc & _ & H).
    destruct (truthy ok).
    + apply bind_ok_inv in H. destruct H as (x & wd & _ & H).
      apply bind_ok_inv in H. destruct H as (rid & we & _ & H).
      apply bind_ok_inv in H. destruct H as (y & wf & _ & H).
      apply bind_ok_inv in H. destruct H as (z & wg & _ & H).
      inversion H. split; [left; repeat split; discriminate | reflexivity].
    + apply bind_ok_inv in H. destruct H as (msg & wd & _ & H).
      inversion H. split; [right; repeat split; discriminate | reflexivity].
  - inversion H. split; [right; repeat split; discriminate | reflexivity].
Qed.

(** X10. Every response [refund_payment] returns has one of two shapes:
    success with a refund id and no error, or failure with no refund id and an
    error text; in both it echoes the requested amount. *)
Theorem refund_payment_response_shape
    (env : Env) (request : RefundRequest) (w w' : World)
    (resp : RefundResponse) :
  refund_payment env request w = (Ok resp, w') ->
  refund_response_shape resp /\ rresp_amount resp = rr_amount request.
Proof. exact (refund_payment_shape env request w w' resp). Qed.

Lemma refund_payment_response_shape_witness :
  refund_response_shape
    {| rresp_success := false;
       rresp_refund_id := None;
       rresp_amount := 4000;
       rresp_error := Some "Refund processing error: connection refused" |}.
Proof.
  apply (refund_payment_response_shape (store_outage_env 7 3)
           (refund_of order1_tid 4000) world_captured
           (snd (refund_payment (store_outage_env 7 3)
                   (refund_of order1_tid 4000) world_captured))).
  vm_compute. reflexivity.
Defined.

(** ** A capture that the store loses track of *)




(** ** Discipline of an operation

    A finer frame than the one above: the relation [R] is asked to hold across
    each kind of elementary change of the world separately, and across the
    writes, gateway calls and sends only when they are of the kind the
    operation performs. *)

Section Discipline.

Variable env : Env.
Variable R : World -> World -> Prop.
Variable call_ok : GatewayCall -> Prop.
Variable event_ok : Event -> Prop.
Variable target_ok : string -> Prop.
Variable status_ok : PaymentStatus -> Prop.
Variable payment_ok : PaymentModel -> Prop.
Variable refund_ok : RefundModel -> Prop.

Hypothesis R_refl : forall w, R w w.
Hypothesis R_trans : forall a b c, R a b -> R b c -> R a c.
Hypothesis R_db : forall w, R w (db_tick w).
Hypothesis R_rng : forall w, R w (rng_tick w).
Hypothesis R_uuid : forall w, R w (uuid_tick w).
Hypothesis R_clock : forall w, R w (clock_tick w).
Hypothesis R_call : forall c w, call_ok c -> R w (log_call c w).
Hypothesis R_send : forall ev b w, event_ok ev -> R w (log_send ev b w).
Hypothesis R_status :
  forall pid s t w,
    target_ok pid ->
    status_ok s ->
    R w (set_payments (update_where_id pid (set_status s t) (payments w)) w).
Hypothesis R_success :
  forall pid tid iid resp t w,
    target_ok pid ->
    unique_clash pid tid iid (payments w) = false ->
    R w (set_payments
           (update_where_id pid (set_success tid iid resp t) (payments w)) w).
Hypothesis R_failure :
  forall pid msg resp t w,
    target_ok pid ->
    R w (set_payments
           (update_where_id pid (set_failure msg resp t) (payments w)) w).
Hypothesis R_insert :
  forall row w,
    payment_ok row ->
    pm_status row = PENDING ->
    pm_transaction_id row = None ->
    pm_payment_intent_id row = None ->
    existsb (fun r => String.eqb (pm_id r) (pm_id row)) (payments w) = false ->
    R w (set_payments (payments w ++ [row]) w).
Hypothesis R_refund :
  forall row w,
    refund_ok row ->
    existsb (fun r => String.eqb (rf_id r) (rf_id row)) (refunds w) = false ->
    existsb (fun r => String.eqb (rf_refund_id r) (rf_refund_id row))
            (refunds w) = false ->
    existsb (fun r => String.eqb (pm_id r) (rf_payment_id row)) (payments w)
      = true ->
    R w (set_refunds (refunds w ++ [row]) w).

Lemma d_db_trip : steps R (db_trip env).
Proof.
  intros w. unfold db_trip.
  destruct (store_fault env (db_trips w)); apply R_db.
Qed.

Lemma d_uuid4 : steps R (uuid4 env).
Proof. intros w. apply R_uuid. Qed.

Lemma d_utcnow : steps R (utcnow env).
Proof. intros w. apply R_clock. Qed.

Lemma d_should_succeed : steps R (_should_succeed env).
Proof. intros w. apply R_rng. Qed.

Lemma d_random_choice l : steps R (random_choice env l).
Proof. intros w. apply R_rng. Qed.

Lemma d_log_gateway_call c : call_ok c -> steps R (log_gateway_call c).
Proof. intros H w. apply R_call. exact H. Qed.

Lemma d_producer_send ev : event_ok ev -> steps R (producer_send env ev).
Proof.
  intros H w. unfold producer_send.
  destruct (send_fault env (sends w)); apply R_send; exact H.
Qed.

Ltac d_basic :=
  repeat
    match goal with
    | |- steps _ (if ?b then _ else _) => destruct b eqn:?
    | |- steps _ (match ?x with _ => _ end) => destruct x
    | |- steps _ (bind read_payments _) =>
        apply steps_read_payments_bind; intros ?
    | |- steps _ (bind _ _) => apply (steps_bind R R_trans); [|intros ?]
    | |- steps _ (try_except _ _) =>
        apply (steps_try_except R R_trans); [|intros ?]
    | |- steps _ _ =>
        first
          [ apply (steps_ret R R_refl) | apply (steps_raise R R_refl)
          | apply d_db_trip | apply d_uuid4 | apply d_utcnow
          | apply d_should_succeed | apply d_random_choice
          | apply (steps_read_refunds R R_refl)
          | apply (steps_subscript R R_refl)
          | apply (steps_as_str R R_refl)
          | apply (steps_scalar_one_or_none R R_refl)
          | apply (steps_getattr R R_refl) ]
    end.

Lemma d_get_by_id pid : steps R (get_by_id env pid).
Proof.
  unfold get_by_id. d_basic. apply (steps_scalar_one_or_none R R_refl).
Qed.

Lemma d_get_by_transaction_id tid : steps R (get_by_transaction_id env tid).
Proof.
  unfold get_by_transaction_id. d_basic.
  apply (steps_scalar_one_or_none R R_refl).
Qed.

Lemma d_update_status pid s :
  target_ok pid -> status_ok s -> steps R (update_status env pid s).
Proof.
  intros Ht Hs. unfold update_status. d_basic.
  apply (step_bind_at R R_trans);
    [apply R_status; [exact Ht | exact Hs] | intros _; apply d_get_by_id].
Qed.

Lemma d_update_payment_success pid tid iid resp :
  target_ok pid -> steps R (update_payment_success env pid tid iid resp).
Proof.
  intros Ht. unfold update_payment_success. d_basic.
  apply (step_bind_at R R_trans); [|intros _; apply d_get_by_id].
  destruct (unique_clash pid tid iid (payments w)) eqn:E;
    [apply R_refl | apply R_success; [exact Ht | exact E]].
Qed.

Lemma d_update_payment_failure pid msg resp :
  target_ok pid -> steps R (update_payment_failure env pid msg resp).
Proof.
  intros Ht. unfold update_payment_failure. d_basic.
  apply (step_bind_at R R_trans);
    [apply R_failure; exact Ht | intros _; apply d_get_by_id].
Qed.

Lemma d_create_payment oid amt cur meth :
  (forall pid t1 t2,
     payment_ok
       {| pm_id := pid; pm_order_id := oid; pm_amount := amt;
          pm_currency := cur; pm_payment_method := meth;
          pm_status := PENDING; pm_transaction_id := None;
          pm_payment_intent_id := None; pm_provider_response := None;
          pm_error_message := None; pm_created_at := t1;
          pm_updated_at := t2; pm_authorized_at := None;
          pm_captured_at := None; pm_refunded_at := None |}) ->
  steps R (create_payment env oid amt cur meth).
Proof.
  intros Hp. unfold create_payment. d_basic.
  apply (step_bind_at R R_trans); [|intros _; d_basic].
  match goal with |- context [if ?b then _ else _] => destruct b eqn:E end;
    [apply R_refl
    | apply R_insert; [apply Hp | reflexivity .. | exact E]].
Qed.

Lemma d_add_refund_record pid rid amt reason :
  (forall k t,
     refund_ok {| rf_id := k; rf_payment_id := pid; rf_refund_id := rid;
                  rf_amount := amt; rf_reason := reason;
                  rf_created_at := t |}) ->
  steps R (add_refund_record env pid rid amt reason).
Proof.
  intros Hr. unfold add_refund_record. d_basic.
  unfold bind, read_refunds. cbn [fst snd].
  match goal with |- context [if ?b then _ else _] => destruct b eqn:E1 end;
    [apply R_refl|].
  match goal with |- context [if ?b then _ else _] => destruct b eqn:E2 end;
    [apply R_refl|].
  match goal with |- context [if ?b then _ else _] => destruct b eqn:E3 end;
    [apply R_refl|].
  apply R_refund; [apply Hr | exact E1 | exact E2 |].
  apply negb_false_iff in E3. exact E3.
Qed.

Lemma d_publish_event etype pid data :
  (forall t, event_ok {| event_type := etype; ev_payment_id := pid;
                         ev_timestamp := t; ev_data := data |}) ->
  steps R (_publish_event env etype pid data).
Proof.
  intros H. unfold _publish_event. d_basic. apply d_producer_send. apply H.
Qed.

Lemma d_gateway_refund_payment tid amt reason :
  call_ok (GwRefund tid amt reason) ->
  steps R (gateway_refund_payment env tid amt reason).
Proof.
  intros H. unfold gateway_refund_payment, _simulate_processing.
  d_basic; try (apply d_log_gateway_call; exact H); d_basic.
Qed.

Lemma d_gateway_process_payment amt meth details :
  call_ok (GwAuthorize amt meth) ->
  (forall iid, call_ok (GwCapture iid amt)) ->
  steps R (gateway_process_payment env amt meth details).
Proof.
  intros Ha Hc.
  unfold gateway_process_payment, authorize_payment, capture_payment,
    _simulate_processing.
  d_basic;
    try (apply d_log_gateway_call; first [exact Ha | apply Hc]);
    d_basic.
Qed.

Lemma d_void_authorization iid :
  call_ok (GwVoid iid) -> steps R (void_authorization iid).
Proof.
  intros H. unfold void_authorization, _simulate_processing.
  d_basic; try (apply d_log_gateway_call; exact H); d_basic.
Qed.

Lemma d_process_payment_except p e :
  (forall q, p = Some q -> target_ok (id q)) ->
  steps R (process_payment_except env p e).
Proof.
  intros Ht. unfold process_payment_except. destruct p as [q|].
  - change (steps R (update_payment_failure env (id q) (exn_str e) None ;;;
                     ret {| resp_success := false;
                            resp_transaction_id := None;
                            resp_payment_intent_id := None;
                            resp_status := FAILED;
                            resp_error :=
                              Some ("Payment processing error: "
                                    ++ exn_str e) |})).
    d_basic. apply d_update_payment_failure. apply Ht. reflexivity.
  - intros w. apply R_refl.
Qed.

Lemma d_refund_payment request :
  (forall pid, target_ok pid) ->
  status_ok REFUNDED ->
  status_ok PARTIALLY_REFUNDED ->
  call_ok (GwRefund (rr_transaction_id request) (rr_amount request)
                    (rr_reason request)) ->
  (forall p rid t,
     event_ok (refunded_event_of p rid (rr_amount request) t)) ->
  (forall k pid rid t,
     refund_ok {| rf_id := k; rf_payment_id := pid; rf_refund_id := rid;
                  rf_amount := rr_amount request;
                  rf_reason := rr_reason request; rf_created_at := t |}) ->
  steps R (refund_payment env request).
Proof.
  intros Ht Hs1 Hs2 Hc He Hr.
  unfold refund_payment, subscript_str, dict_get_str, publish_payment_refunded.
  d_basic;
    first [ apply d_get_by_transaction_id
          | apply d_gateway_refund_payment; exact Hc
          | apply d_update_status;
            [ apply Ht
            | match goal with
              | |- status_ok (if ?b then _ else _) => destruct b
              end; assumption ]
          | apply d_add_refund_record; intros; apply Hr
          | apply d_publish_event; intros t; apply He
          | idtac ];
    d_basic.
Qed.

Lemma d_process_payment_try p request :
  target_ok (id p) ->
  status_ok PROCESSING ->
  call_ok (GwAuthorize (pr_amount request) (pr_payment_method request)) ->
  (forall iid, call_ok (GwCapture iid (pr_amount request))) ->
  steps R (process_payment_try env p request).
Proof.
  intros Ht Hs Ha Hc.
  unfold process_payment_try, subscript_str, dict_get_str.
  d_basic;
    first [ apply d_gateway_process_payment; assumption
          | apply d_update_status; [exact Ht | exact Hs]
          | apply d_update_payment_success; exact Ht
          | apply d_update_payment_failure; exact Ht
          | idtac ];
    d_basic;
    first [ apply d_update_payment_success; exact Ht
          | apply d_update_payment_failure; exact Ht
          | idtac ].
Qed.

Lemma d_process_payment_finish progress :
  (forall q tid iid, progress = Succeeded (Some q) tid iid ->
                     target_ok (id q)) ->
  (forall q msg, progress = Declined (Some q) msg -> target_ok (id q)) ->
  (forall p t, event_ok (successful_event_of p t)) ->
  (forall p msg t, event_ok (failed_event_of p msg t)) ->
  steps R (process_payment_finish env progress).
Proof.
  intros Ht1 Ht2 Hs Hf.
  unfold process_payment_finish, publish_payment_successful,
    publish_payment_failed.
  destruct progress as [response | payment' tid iid | payment' msg].
  - apply (steps_ret R R_refl).
  - apply (steps_try_except R R_trans).
    + d_basic. apply d_publish_event. intros t. apply Hs.
    + intros e. apply d_process_payment_except. intros q ->.
      eapply Ht1. reflexivity.
  - apply (steps_try_except R R_trans).
    + d_basic. apply d_publish_event. intros t. apply Hf.
    + intros e. apply d_process_payment_except. intros q ->.
      eapply Ht2. reflexivity.
Qed.

Lemma d_process_payment request :
  (forall pid, target_ok pid) ->
  status_ok PROCESSING ->
  (forall pid t1 t2,
     payment_ok
       {| pm_id := pid; pm_order_id := pr_order_id request;
          pm_amount := pr_amount request;
          pm_currency := pr_currency request;
          pm_payment_method := pr_payment_method request;
          pm_status := PENDING; pm_transaction_id := None;
          pm_payment_intent_id := None; pm_provider_response := None;
          pm_error_message := None; pm_created_at := t1;
          pm_updated_at := t2; pm_authorized_at := None;
          pm_captured_at := None; pm_refunded_at := None |}) ->
  call_ok (GwAuthorize (pr_amount request) (pr_payment_method request)) ->
  (forall iid, call_ok (GwCapture iid (pr_amount request))) ->
  (forall p t, event_ok (successful_event_of p t)) ->
  (forall p msg t, event_ok (failed_event_of p msg t)) ->
  steps R (process_payment env request).
Proof.
  intros Ht Hst Hp Ha Hc Hs Hf. unfold process_payment.
  apply (steps_bind R R_trans); [apply d_create_payment; exact Hp | intros p].
  apply (steps_bind R R_trans).
  - apply (steps_try_except R R_trans).
    + apply d_process_payment_try; [apply Ht | assumption ..].
    + intros e. apply (steps_bind R R_trans);
        [ apply d_process_payment_except; intros; apply Ht
        | intros ?; apply (steps_ret R R_refl)].
  - intros progress. apply d_process_payment_finish;
      [intros; apply Ht | intros; apply Ht | assumption ..].
Qed.

Lemma d_refund_found payment request :
  target_ok (id payment) ->
  status_ok (refund_target (rr_amount request) (amount payment)) ->
  call_ok (GwRefund (rr_transaction_id request) (rr_amount request)
                    (rr_reason request)) ->
  (forall rid t,
     event_ok (refunded_event_of payment rid (rr_amount request) t)) ->
  (forall k rid t,
     refund_ok {| rf_id := k; rf_payment_id := id payment;
                  rf_refund_id := rid; rf_amount := rr_amount request;
                  rf_reason := rr_reason request; rf_created_at := t |}) ->
  steps R (refund_found env payment request).
Proof.
  intros Ht Hs Hc He Hr.
  unfold refund_found, subscript_str, dict_get_str, publish_payment_refunded.
  d_basic;
    first [ apply d_gateway_refund_payment; exact Hc
          | apply d_update_status; [exact Ht | exact Hs]
          | apply d_add_refund_record; intros; apply Hr
          | apply d_publish_event; intros t; apply He
          | idtac ];
    d_basic.
Qed.

End Discipline.

(** ** What the two operations ask of the gateway *)

Lemma calls_added_same ok w w' :
  gateway_log w' = gateway_log w -> calls_added ok w w'.
Proof. intros H. exists []. rewrite H, app_nil_r. split; [reflexivity|constructor]. Qed.

Lemma calls_added_trans ok a b c :
  calls_added ok a b -> calls_added ok b c -> calls_added ok a c.
Proof.
  intros (x & Hx & Fx) (y & Hy & Fy). exists (x ++ y)%list. split.
  - rewrite Hy, Hx, app_assoc. reflexivity.
  - apply Forall_app. split; assumption.
Qed.

Lemma calls_added_call (ok : GatewayCall -> Prop) c w :
  ok c -> calls_added ok w (log_call c w).
Proof. intros H. exists [c]. split; [reflexivity | repeat constructor; exact H]. Qed.

Ltac by_same lemma := intros; apply lemma; reflexivity.

Lemma process_payment_calls env request w :
  calls_added
    (fun c => c = GwAuthorize (pr_amount request) (pr_payment_method request)
              \/ exists iid, c = GwCapture iid (pr_amount request))
    w (snd (process_payment env request w)).
Proof.
  apply d_process_payment
    with (call_ok := fun c =>
            c = GwAuthorize (pr_amount request) (pr_payment_method request)
            \/ exists iid, c = GwCapture iid (pr_amount request))
         (event_ok := fun _ => True) (target_ok := fun _ => True)
         (status_ok := fun _ => True)
         (payment_ok := fun _ => True);
    first [ by_same calls_added_same
          | apply calls_added_trans
          | intros c w0 H; apply calls_added_call; exact H
          | intros; exact I
          | left; reflexivity
          | intros iid; right; exists iid; reflexivity ].
Qed.

Lemma refund_payment_calls env request w :
  calls_added
    (fun c => c = GwRefund (rr_transaction_id request) (rr_amount request)
                           (rr_reason request))
    w (snd (refund_payment env request w)).
Proof.
  apply d_refund_payment
    with (call_ok := fun c =>
            c = GwRefund (rr_transaction_id request) (rr_amount request)
                         (rr_reason request))
         (event_ok := fun _ => True) (target_ok := fun _ => True)
         (status_ok := fun _ => True)
         (refund_ok := fun _ => True);
    first [ by_same calls_added_same
          | apply calls_added_trans
          | intros c w0 H; apply calls_added_call; exact H
          | intros; exact I
          | reflexivity ].
Qed.

(** X12. What the orchestrator asks of the gateway, in every environment and
    whatever fails: [process_payment] only adds authorize and capture calls
    for the requested amount to the gateway's log; [refund_payment] only adds
    refund calls for the request's own transaction id, amount and reason; and
    after any sequence of requests from the empty store the log holds no
    void. *)
Theorem gateway_call_discipline (env : Env) :
  (forall request w,
     calls_added
       (fun c => c = GwAuthorize (pr_amount request) (pr_payment_method request)
                 \/ exists iid, c = GwCapture iid (pr_amount request))
       w (snd (process_payment env request w)))
  /\ (forall request w,
        calls_added
          (fun c => c = GwRefund (rr_transaction_id request)
                                 (rr_amount request) (rr_reason request))
          w (snd (refund_payment env request w)))
  /\ (forall rs,
        forallb (fun c => negb (is_void c))
                (gateway_log (serve_all env rs initial_world)) = true).
Proof.
  split; [intros; apply process_payment_calls|].
  split; [intros; apply refund_payment_calls|].
  intros rs.
  assert (H : forall w,
            forallb (fun c => negb (is_void c)) (gateway_log w) = true ->
            forallb (fun c => negb (is_void c))
                    (gateway_log (serve_all env rs w)) = true).
  { induction rs as [|r rs IH]; intros w Hw; [exact Hw|].
    cbn [serve_all fold_left]. apply IH.
    assert (Hadd : calls_added (fun c => is_void c = false) w (serve env r w)).
    { destruct r as [request|request]; cbn [serve].
      - destruct (process_payment_calls env request w) as (l & Hl & Fl).
        exists l. split; [exact Hl|].
        eapply Forall_impl; [|exact Fl].
        intros c [-> | (iid & ->)]; reflexivity.
      - destruct (refund_payment_calls env request w) as (l & Hl & Fl).
        exists l. split; [exact Hl|].
        eapply Forall_impl; [|exact Fl]. intros c ->. reflexivity. }
    destruct Hadd as (l & -> & Fl). rewrite forallb_app, Hw. cbn [andb].
    apply forallb_forall. intros c Hc. rewrite Forall_forall in Fl.
    rewrite (Fl c Hc). reflexivity. }
  apply H. reflexivity.
Qed.

(** ** What the two operations hand to the producer *)

Lemma events_added_same ok w w' :
  publish_log w' = publish_log w -> topic_log w' = topic_log w ->
  sends w' = sends w ->
  events_added ok w w'.
Proof.
  intros H1 H2 H3. exists [], []. rewrite H1, H2, H3, !app_nil_r.
  repeat split; try constructor. intros x []. cbn. lia.
Qed.

Lemma events_added_trans ok a b c :
  events_added ok a b -> events_added ok b c -> events_added ok a c.
Proof.
  intros (h1 & a1 & Hp1 & Ht1 & Hi1 & Hf1 & Hs1)
         (h2 & a2 & Hp2 & Ht2 & Hi2 & Hf2 & Hs2).
  exists (h1 ++ h2)%list, (a1 ++ a2)%list. repeat split.
  - rewrite Hp2, Hp1, app_assoc. reflexivity.
  - rewrite Ht2, Ht1, app_assoc. reflexivity.
  - intros x Hx. apply in_app_or in Hx. apply in_or_app.
    destruct Hx as [Hx|Hx]; [left; apply Hi1 | right; apply Hi2]; exact Hx.
  - apply Forall_app. split; assumption.
  - rewrite Hs2, Hs1, length_app. lia.
Qed.

Lemma events_added_send (ok : Event -> Prop) ev b w :
  ok ev -> events_added ok w (log_send ev b w).
Proof.
  intros H. exists [ev], (if b then [ev] else []).
  cbn [publish_log topic_log sends log_send]. repeat split.
  - destruct b; [reflexivity | rewrite app_nil_r; reflexivity].
  - destruct b; intros x Hx; [exact Hx | destruct Hx].
  - repeat constructor. exact H.
  - cbn. lia.
Qed.

Ltac events_same := intros; apply events_added_same; reflexivity.

Lemma process_payment_events env request w :
  events_added
    (fun ev => event_type ev = "payment.successful"
               \/ event_type ev = "payment.failed")
    w (snd (process_payment env request w)).
Proof.
  apply d_process_payment
    with (call_ok := fun _ => True)
         (event_ok := fun ev => event_type ev = "payment.successful"
                                \/ event_type ev = "payment.failed")
         (target_ok := fun _ => True) (status_ok := fun _ => True)
         (payment_ok := fun _ => True);
    first [ events_same
          | apply events_added_trans
          | intros ev b w0 H; apply events_added_send; exact H
          | intros; exact I
          | intros; left; reflexivity
          | intros; right; reflexivity ].
Qed.

Lemma refund_payment_events env request w :
  events_added
    (fun ev => event_type ev = "payment.refunded"
               /\ dict_get "amount" (ev_data ev)
                  = Some (VNum (rr_amount request)))
    w (snd (refund_payment env request w)).
Proof.
  apply d_refund_payment
    with (call_ok := fun _ => True)
         (event_ok := fun ev => event_type ev = "payment.refunded"
                                /\ dict_get "amount" (ev_data ev)
                                   = Some (VNum (rr_amount request)))
         (target_ok := fun _ => True) (status_ok := fun _ => True)
         (refund_ok := fun _ => True);
    first [ events_same
          | apply events_added_trans
          | intros ev b w0 H; apply events_added_send; exact H
          | intros; exact I
          | intros; split; reflexivity ].
Qed.

(** X13. What the orchestrator hands to the producer, in every environment
    and whatever fails: [process_payment] only hands [payment.successful] and
    [payment.failed] events, [refund_payment] only [payment.refunded] events
    carrying the requested amount; every send is counted; and after any
    sequence of requests from the empty store, every event the producer
    accepted is one it was handed, and it was handed as many events as sends
    were made. *)
Theorem publisher_discipline (env : Env) :
  (forall request w,
     events_added
       (fun ev => event_type ev = "payment.successful"
                  \/ event_type ev = "payment.failed")
       w (snd (process_payment env request w)))
  /\ (forall request w,
        events_added
          (fun ev => event_type ev = "payment.refunded"
                     /\ dict_get "amount" (ev_data ev)
                        = Some (VNum (rr_amount request)))
          w (snd (refund_payment env request w)))
  /\ (forall rs,
        incl (topic_log (serve_all env rs initial_world))
             (publish_log (serve_all env rs initial_world))
        /\ length (publish_log (serve_all env rs initial_world))
           = sends (serve_all env rs initial_world)).
Proof.
  split; [intros; apply process_payment_events|].
  split; [intros; apply refund_payment_events|].
  intros rs.
  assert (H : forall w,
            incl (topic_log w) (publish_log w) /\
            length (publish_log w) = sends w ->
            incl (topic_log (serve_all env rs w))
                 (publish_log (serve_all env rs w)) /\
            length (publish_log (serve_all env rs w))
            = sends (serve_all env rs w)).
  { induction rs as [|r rs IH]; intros w Hw; [exact Hw|].
    cbn [serve_all fold_left]. apply IH.
    assert (Hadd : events_added (fun _ => True) w (serve env r w)).
    { destruct r as [request|request]; cbn [serve].
      - destruct (process_payment_events env request w)
          as (h & a & H1 & H2 & H3 & _ & H5).
        exists h, a. repeat split; try assumption.
        apply Forall_forall. intros; exact I.
      - destruct (refund_payment_events env request w)
          as (h & a & H1 & H2 & H3 & _ & H5).
        exists h, a. repeat split; try assumption.
        apply Forall_forall. intros; exact I. }
    destruct Hadd as (h & a & H1 & H2 & H3 & _ & H5).
    destruct Hw as [Hi Hl]. rewrite H1, H2, H5, length_app. split; [|lia].
    intros x Hx. apply in_app_or in Hx. apply in_or_app.
    destruct Hx as [Hx|Hx]; [left; apply Hi | right; apply H3]; exact Hx. }
  apply H. split; [intros x [] | reflexivity].
Qed.

(** ** What the two operations write to the refunds table *)

Lemma refunds_added_same ok w w' :
  refunds w' = refunds w -> refunds_added ok w w'.
Proof.
  intros H. exists []. rewrite H, app_nil_r. split; [reflexivity|constructor].
Qed.

Lemma refunds_added_trans ok a b c :
  refunds_added ok a b -> refunds_added ok b c -> refunds_added ok a c.
Proof.
  intros (x & Hx & Fx) (y & Hy & Fy). exists (x ++ y)%list. split.
  - rewrite Hy, Hx, app_assoc. reflexivity.
  - apply Forall_app. split; assumption.
Qed.

Lemma process_payment_keeps_refunds env request w :
  refunds (snd (process_payment env request w)) = refunds w.
Proof.
  apply d_process_payment
    with (R := fun a b => refunds b = refunds a)
         (call_ok := fun _ => True) (event_ok := fun _ => True)
         (target_ok := fun _ => True) (status_ok := fun _ => True)
         (payment_ok := fun _ => True);
    first [ intros; reflexivity
          | intros a b c H1 H2; congruence
          | intros; exact I ].
Qed.

Lemma refund_payment_refunds env request w :
  refunds_added
    (fun r => rf_amount r = rr_amount request
              /\ rf_reason r = rr_reason request)
    w (snd (refund_payment env request w)).
Proof.
  apply d_refund_payment
    with (call_ok := fun _ => True) (event_ok := fun _ => True)
         (target_ok := fun _ => True) (status_ok := fun _ => True)
         (refund_ok := fun r => rf_amount r = rr_amount request
                                /\ rf_reason r = rr_reason request);
    first [ by_same refunds_added_same
          | apply refunds_added_trans
          | intros row w0 H _ _ _; exists [row];
            split; [reflexivity | constructor; [exact H | constructor]]
          | intros; exact I
          | intros; split; reflexivity ].
Qed.

(** X14. The refunds table is append-only. [process_payment] never touches
    it; [refund_payment] at most appends rows that carry the requested amount
    and reason; so after any sequence of requests, whatever fails, the rows
    that were there are still there, unchanged and in the same order. *)
Theorem refunds_table_is_append_only (env : Env) :
  (forall request w,
     refunds (snd (process_payment env request w)) = refunds w)
  /\ (forall request w,
        refunds_added
          (fun r => rf_amount r = rr_amount request
                    /\ rf_reason r = rr_reason request)
          w (snd (refund_payment env request w)))
  /\ (forall rs w,
        exists added,
          refunds (serve_all env rs w) = (refunds w ++ added)%list).
Proof.
  split; [intros; apply process_payment_keeps_refunds|].
  split; [intros; apply refund_payment_refunds|].
  intros rs. induction rs as [|r rs IH]; intros w.
  - exists []. rewrite app_nil_r. reflexivity.
  - destruct (IH (serve env r w)) as (added & Hadded).
    change (serve_all env (r :: rs) w) with (serve_all env rs (serve env r w)).
    rewrite Hadded.
    destruct r as [request|request]; cbn [serve].
    + rewrite process_payment_keeps_refunds. exists added. reflexivity.
    + destruct (refund_payment_refunds env request w) as (x & -> & _).
      exists (x ++ added)%list. rewrite app_assoc. reflexivity.
Qed.

(** ** The key constraints are kept *)

Lemma in_update_where_id pid f rows r' :
  In r' (update_where_id pid f rows) ->
  exists r, In r rows
            /\ r' = (if String.eqb (pm_id r) pid then f r else r).
Proof.
  unfold update_where_id. intros H. apply in_map_iff in H.
  destruct H as (r & Hr & Hin). exists r. split; [exact Hin | symmetry; exact Hr].
Qed.

Lemma keeps_constraints_tables w w' :
  payments w' = payments w -> refunds w' = refunds w ->
  keeps_constraints w w'.
Proof.
  intros H1 H2. unfold keeps_constraints, store_constraints.
  rewrite H1, H2. trivial.
Qed.

Lemma NoDup_snoc_fresh {A} (l : list A) (a : A) :
  NoDup l -> ~ In a l -> NoDup (l ++ [a]).
Proof.
  intros Hl Ha. apply NoDup_app; [exact Hl | repeat constructor; intros [] |].
  intros x Hx [<-|[]]. exact (Ha Hx).
Qed.

Lemma fk_update pid f (rows : list PaymentModel) (rs : list RefundModel) :
  (forall r, pm_id (f r) = pm_id r) ->
  Forall (fun r => existsb (fun p => String.eqb (pm_id p) (rf_payment_id r))
                           rows = true) rs ->
  Forall (fun r => existsb (fun p => String.eqb (pm_id p) (rf_payment_id r))
                           (update_where_id pid f rows) = true) rs.
Proof.
  intros Hf H. eapply Forall_impl; [|exact H].
  intros r Hr. cbn beta. rewrite existsb_update_where_id by exact Hf. exact Hr.
Qed.

(** An update that keeps id, transaction id and intent id keeps the
    constraints. *)
Lemma keeps_constraints_update pid f w :
  (forall r, pm_id (f r) = pm_id r) ->
  (forall r, pm_transaction_id (f r) = pm_transaction_id r) ->
  (forall r, pm_payment_intent_id (f r) = pm_payment_intent_id r) ->
  keeps_constraints w (set_payments (update_where_id pid f (payments w)) w).
Proof.
  intros Hid Ht Hi (H1 & H2 & H3 & H4 & H5 & H6).
  unfold store_constraints. cbn [payments refunds set_payments].
  assert (Hsame : forall r' , In r' (update_where_id pid f (payments w)) ->
            exists r, In r (payments w) /\ pm_id r' = pm_id r
                      /\ pm_transaction_id r' = pm_transaction_id r
                      /\ pm_payment_intent_id r' = pm_payment_intent_id r).
  { intros r' Hr'. apply in_update_where_id in Hr'.
    destruct Hr' as (r & Hin & ->). exists r. split; [exact Hin|].
    destruct (String.eqb (pm_id r) pid); auto. }
  split; [rewrite update_where_id_ids by exact Hid; exact H1|].
  split; [|split].
  - intros r1 r2 t Hr1 Hr2 E1 E2.
    destruct (Hsame _ Hr1) as (a & Ha & Ia & Ta & _).
    destruct (Hsame _ Hr2) as (b & Hb & Ib & Tb & _).
    rewrite Ia, Ib. apply (H2 a b t); congruence.
  - intros r1 r2 t Hr1 Hr2 E1 E2.
    destruct (Hsame _ Hr1) as (a & Ha & Ia & _ & Ta).
    destruct (Hsame _ Hr2) as (b & Hb & Ib & _ & Tb).
    rewrite Ia, Ib. apply (H3 a b t); congruence.
  - split; [exact H4|]. split; [exact H5|]. apply fk_update; assumption.
Qed.

Lemma unique_clash_false_inv pid tid iid rows a b :
  unique_clash pid tid iid rows = false ->
  In a rows -> pm_id a = pid ->
  In b rows -> pm_id b <> pid ->
  pm_transaction_id b <> Some tid /\ pm_payment_intent_id b <> Some iid.
Proof.
  unfold unique_clash. intros H Ha Ia Hb Ib.
  apply andb_false_iff in H. destruct H as [H|H].
  - assert (existsb (fun r => String.eqb (pm_id r) pid) rows = true).
    { apply existsb_exists. exists a. split; [exact Ha|].
      rewrite Ia. apply String.eqb_refl. }
    congruence.
  - assert (Hb' : (negb (String.eqb (pm_id b) pid)
                   && (opt_eqb (pm_transaction_id b) tid
                       || opt_eqb (pm_payment_intent_id b) iid))%bool = false).
    { apply not_true_is_false. intros Hb'.
      assert (existsb (fun r => negb (String.eqb (pm_id r) pid)
                                && (opt_eqb (pm_transaction_id r) tid
                                    || opt_eqb (pm_payment_intent_id r) iid))
                      rows = true).
      { apply existsb_exists. exists b. split; assumption. }
      congruence. }
    destruct (String.eqb_spec (pm_id b) pid) as [E|_]; [contradiction|].
    cbn [negb andb] in Hb'. apply orb_false_iff in Hb'.
    destruct Hb' as [Hb1 Hb2]. split; intros E.
    + rewrite E in Hb1. cbn in Hb1. rewrite String.eqb_refl in Hb1.
      discriminate.
    + rewrite E in Hb2. cbn in Hb2. rewrite String.eqb_refl in Hb2.
      discriminate.
Qed.

Lemma keeps_constraints_success pid tid iid resp t w :
  unique_clash pid tid iid (payments w) = false ->
  keeps_constraints w
    (set_payments
       (update_where_id pid (set_success tid iid resp t) (payments w)) w).
Proof.
  intros Hu (H1 & H2 & H3 & H4 & H5 & H6).
  unfold store_constraints. cbn [payments refunds set_payments].
  split; [rewrite update_where_id_ids by reflexivity; exact H1|].
  assert (Hcase : forall r',
            In r' (update_where_id pid (set_success tid iid resp t)
                     (payments w)) ->
            exists r, In r (payments w) /\ pm_id r' = pm_id r /\
              ((pm_id r = pid /\ pm_transaction_id r' = Some tid
                /\ pm_payment_intent_id r' = Some iid)
               \/ (pm_id r <> pid /\ r' = r))).
  { intros r' Hr'. apply in_update_where_id in Hr'.
    destruct Hr' as (r & Hin & ->). exists r. split; [exact Hin|].
    destruct (String.eqb_spec (pm_id r) pid) as [E|E].
    - split; [reflexivity|]. left. repeat split. exact E.
    - split; [reflexivity|]. right. split; [exact E | reflexivity]. }
  split; [|split].
  - intros r1 r2 x Hr1 Hr2 E1 E2.
    destruct (Hcase _ Hr1) as (a & Ha & Ia & [(Pa & Ta & _) | (Pa & ->)]);
      destruct (Hcase _ Hr2) as (b & Hb & Ib & [(Pb & Tb & _) | (Pb & ->)]).
    + congruence.
    + exfalso. rewrite Ta in E1.
      destruct (unique_clash_false_inv _ _ _ _ a b Hu Ha Pa Hb Pb) as [Hn _].
      apply Hn. congruence.
    + exfalso. rewrite Tb in E2.
      destruct (unique_clash_false_inv _ _ _ _ b a Hu Hb Pb Ha Pa) as [Hn _].
      apply Hn. congruence.
    + apply (H2 a b x); assumption.
  - intros r1 r2 x Hr1 Hr2 E1 E2.
    destruct (Hcase _ Hr1) as (a & Ha & Ia & [(Pa & _ & Ta) | (Pa & ->)]);
      destruct (Hcase _ Hr2) as (b & Hb & Ib & [(Pb & _ & Tb) | (Pb & ->)]).
    + congruence.
    + exfalso. rewrite Ta in E1.
      destruct (unique_clash_false_inv _ _ _ _ a b Hu Ha Pa Hb Pb) as [_ Hn].
      apply Hn. congruence.
    + exfalso. rewrite Tb in E2.
      destruct (unique_clash_false_inv _ _ _ _ b a Hu Hb Pb Ha Pa) as [_ Hn].
      apply Hn. congruence.
    + apply (H3 a b x); assumption.
  - split; [exact H4|]. split; [exact H5|]. apply fk_update; [reflexivity|].
    exact H6.
Qed.

Lemma not_in_of_existsb_false {A B} (g : A -> B) (eqb : B -> B -> bool)
    (l : list A) (k : B) :
  (forall x, eqb x x = true) ->
  existsb (fun r => eqb (g r) k) l = false -> ~ In k (map g l).
Proof.
  intros Hrefl He Hin. apply in_map_iff in Hin. destruct Hin as (r & <- & Hr).
  assert (existsb (fun r0 => eqb (g r0) (g r)) l = true).
  { apply existsb_exists. exists r. split; [exact Hr | apply Hrefl]. }
  congruence.
Qed.

Lemma keeps_constraints_insert row w :
  pm_transaction_id row = None ->
  pm_payment_intent_id row = None ->
  existsb (fun r => String.eqb (pm_id r) (pm_id row)) (payments w) = false ->
  keeps_constraints w (set_payments (payments w ++ [row]) w).
Proof.
  intros Ht Hi Hf (H1 & H2 & H3 & H4 & H5 & H6).
  unfold store_constraints. cbn [payments refunds set_payments].
  split.
  { rewrite map_app. cbn [map]. apply NoDup_snoc_fresh; [exact H1|].
    apply (not_in_of_existsb_false pm_id String.eqb);
      [apply String.eqb_refl | exact Hf]. }
  split; [|split].
  - intros r1 r2 x Hr1 Hr2 E1 E2.
    apply in_app_or in Hr1. apply in_app_or in Hr2.
    destruct Hr1 as [Hr1|[<-|[]]]; [|congruence].
    destruct Hr2 as [Hr2|[<-|[]]]; [|congruence].
    apply (H2 r1 r2 x); assumption.
  - intros r1 r2 x Hr1 Hr2 E1 E2.
    apply in_app_or in Hr1. apply in_app_or in Hr2.
    destruct Hr1 as [Hr1|[<-|[]]]; [|congruence].
    destruct Hr2 as [Hr2|[<-|[]]]; [|congruence].
    apply (H3 r1 r2 x); assumption.
  - split; [exact H4|]. split; [exact H5|].
    eapply Forall_impl; [|exact H6]. intros r Hr. cbn beta.
    rewrite existsb_app, Hr. reflexivity.
Qed.

Lemma keeps_constraints_refund row w :
  existsb (fun r => String.eqb (rf_id r) (rf_id row)) (refunds w) = false ->
  existsb (fun r => String.eqb (rf_refund_id r) (rf_refund_id row))
          (refunds w) = false ->
  existsb (fun r => String.eqb (pm_id r) (rf_payment_id row)) (payments w)
    = true ->
  keeps_constraints w (set_refunds (refunds w ++ [row]) w).
Proof.
  intros Hk Hr Hp (H1 & H2 & H3 & H4 & H5 & H6).
  unfold store_constraints. cbn [payments refunds set_refunds].
  repeat split; try assumption.
  - rewrite map_app. cbn [map]. apply NoDup_snoc_fresh; [exact H4|].
    apply (not_in_of_existsb_false rf_id String.eqb);
      [apply String.eqb_refl | exact Hk].
  - rewrite map_app. cbn [map]. apply NoDup_snoc_fresh; [exact H5|].
    apply (not_in_of_existsb_false rf_refund_id String.eqb);
      [apply String.eqb_refl | exact Hr].
  - apply Forall_app. split; [exact H6|]. constructor; [exact Hp|constructor].
Qed.

Ltac constraints_side :=
  first
    [ intros; apply keeps_constraints_tables; reflexivity
    | intros a b c Hab Hbc Ha; exact (Hbc (Hab Ha))
    | intros; apply keeps_constraints_update; reflexivity
    | intros; apply keeps_constraints_success; assumption
    | intros; apply keeps_constraints_insert; assumption
    | intros; apply keeps_constraints_refund; assumption
    | intros; exact I ].

Lemma process_payment_keeps_constraints env request w :
  keeps_constraints w (snd (process_payment env request w)).
Proof.
  apply d_process_payment
    with (call_ok := fun _ => True) (event_ok := fun _ => True)
         (target_ok := fun _ => True) (status_ok := fun _ => True)
         (payment_ok := fun _ => True);
    constraints_side.
Qed.

Lemma refund_payment_keeps_constraints env request w :
  keeps_constraints w (snd (refund_payment env request w)).
Proof.
  apply d_refund_payment
    with (call_ok := fun _ => True) (event_ok := fun _ => True)
         (target_ok := fun _ => True) (status_ok := fun _ => True)
         (refund_ok := fun _ => True);
    constraints_side.
Qed.

Lemma serve_all_keeps_constraints env rs w :
  store_constraints w -> store_constraints (serve_all env rs w).
Proof.
  revert w. induction rs as [|r rs IH]; intros w Hw; [exact Hw|].
  change (serve_all env (r :: rs) w) with (serve_all env rs (serve env r w)).
  apply IH. destruct r as [request|request]; cbn [serve].
  - apply process_payment_keeps_constraints. exact Hw.
  - apply refund_payment_keeps_constraints. exact Hw.
Qed.

Lemma initial_world_constraints : store_constraints initial_world.
Proof.
  unfold store_constraints. cbn.
  repeat split; try constructor; intros r1 r2 t [].
Qed.

(** X15. The key constraints of [database/models.py] hold in every store the
    service can produce: after any sequence of process and refund requests,
    in any environment and whatever fails, payment ids are pairwise distinct,
    no two payments share a transaction id or an intent id, refund row ids and
    gateway refund ids are pairwise distinct, and every refund row belongs to
    an existing payment. *)
Theorem store_constraints_always_hold (env : Env) (rs : list Request) :
  store_constraints (serve_all env rs initial_world).
Proof.
  apply serve_all_keeps_constraints. apply initial_world_constraints.
Qed.

Lemma NoDup_map_filter {A B} (g : A -> B) (f : A -> bool) (l : list A) :
  NoDup (map g l) -> NoDup (map g (filter f l)).
Proof.
  induction l as [|a l IH]; cbn; intros H; [constructor|].
  inversion H as [|? ? Hn Hl]; subst.
  destruct (f a); [|apply IH; exact Hl].
  cbn. constructor; [|apply IH; exact Hl].
  intros Hin. apply Hn. apply in_map_iff in Hin.
  destruct Hin as (x & Hx & Hf). apply filter_In in Hf.
  rewrite <- Hx. apply in_map. apply Hf.
Qed.

Lemma filter_at_most_one (f : PaymentModel -> bool) (rows : list PaymentModel) :
  NoDup (map pm_id rows) ->
  (forall r1 r2, In r1 rows -> In r2 rows -> f r1 = true -> f r2 = true ->
                 pm_id r1 = pm_id r2) ->
  filter f rows = [] \/ exists r, filter f rows = [r].
Proof.
  intros Hnd Hsame.
  pose proof (NoDup_map_filter pm_id f rows Hnd) as Hf.
  destruct (filter f rows) as [|a [|b l]] eqn:E; [left; reflexivity | right; eauto |].
  exfalso.
  assert (Ha : In a (filter f rows)) by (rewrite E; left; reflexivity).
  assert (Hb : In b (filter f rows)) by (rewrite E; right; left; reflexivity).
  apply filter_In in Ha. apply filter_In in Hb.
  destruct Ha as [Ha Fa], Hb as [Hb Fb].
  pose proof (Hsame a b Ha Hb Fa Fb) as Hid.
  cbn in Hf. inversion Hf as [|? ? Hn _]; subst. apply Hn. left.
  symmetry. exact Hid.
Qed.

(** X16. In a store that satisfies the key constraints (every store the
    service produces does), the lookups by id and by transaction id cannot
    find two rows: when the database answers they return a payment or
    [None], never MultipleResultsFound. *)
Theorem keyed_lookups_return
    (env : Env) (k : string) (w : World) :
  store_constraints w ->
  store_fault env (db_trips w) = None ->
  (exists o, get_by_id env k w = (Ok o, db_tick w))
  /\ (exists o, get_by_transaction_id env k w = (Ok o, db_tick w)).
Proof.
  intros (H1 & H2 & _) Hs. split.
  - rewrite get_by_id_run by exact Hs. unfold rows_with_id.
    destruct (filter_at_most_one (fun r => String.eqb (pm_id r) k)
                (payments w) H1) as [E | (r & E)].
    + intros r1 r2 _ _ E1 E2.
      apply String.eqb_eq in E1. apply String.eqb_eq in E2. congruence.
    + rewrite E. eexists. reflexivity.
    + rewrite E. eexists. reflexivity.
  - unfold get_by_transaction_id, bind, db_trip, read_payments. rewrite Hs.
    cbn [payments db_tick].
    destruct (filter_at_most_one
                (fun r => opt_eqb (pm_transaction_id r) k)
                (payments w) H1) as [E | (r & E)].
    + intros r1 r2 Hr1 Hr2 E1 E2. apply (H2 r1 r2 k Hr1 Hr2).
      * destruct (pm_transaction_id r1); [|discriminate].
        cbn in E1. apply String.eqb_eq in E1. congruence.
      * destruct (pm_transaction_id r2); [|discriminate].
        cbn in E2. apply String.eqb_eq in E2. congruence.
    + rewrite E. eexists. reflexivity.
    + rewrite E. eexists. reflexivity.
Qed.

Lemma keyed_lookups_return_witness :
  exists o,
    get_by_transaction_id calm_env order1_tid
      (serve_all calm_env [Process order1; Process order1] initial_world)
    = (Ok o,
       db_tick (serve_all calm_env [Process order1; Process order1]
                  initial_world)).
Proof.
  apply (keyed_lookups_return calm_env order1_tid
           (serve_all calm_env [Process order1; Process order1]
              initial_world)).
  - apply serve_all_keeps_constraints. apply initial_world_constraints.
  - reflexivity.
Defined.

(** ** [process_payment] works on its own row *)

Lemma get_by_id_result_id env pid w q w' :
  get_by_id env pid w = (Ok (Some q), w') -> id q = pid.
Proof.
  unfold get_by_id, bind, db_trip, read_payments.
  destruct (store_fault env (db_trips w)); [discriminate|].
  cbn [payments db_tick].
  destruct (filter (fun r => String.eqb (pm_id r) pid) (payments w))
    as [|r [|r' l]] eqn:E; cbn; intros H; inversion H; subst.
  destruct (filter_singleton_in _ _ _ E) as [_ Hr].
  apply String.eqb_eq in Hr. exact Hr.
Qed.

Lemma update_payment_success_result_id env pid tid iid resp w q w' :
  update_payment_success env pid tid iid resp w = (Ok (Some q), w') ->
  id q = pid.
Proof.
  unfold update_payment_success. intros H.
  apply bind_ok_inv in H. destruct H as (now & w1 & _ & H).
  apply bind_ok_inv in H. destruct H as (x & w2 & _ & H).
  apply bind_ok_inv in H. destruct H as (rows & w3 & _ & H).
  apply bind_ok_inv in H. destruct H as (y & w4 & _ & H).
  eapply get_by_id_result_id. exact H.
Qed.

Lemma update_payment_failure_result_id env pid msg resp w q w' :
  update_payment_failure env pid msg resp w = (Ok (Some q), w') ->
  id q = pid.
Proof.
  unfold update_payment_failure. intros H.
  apply bind_ok_inv in H. destruct H as (now & w1 & _ & H).
  apply bind_ok_inv in H. destruct H as (x & w2 & _ & H).
  apply bind_ok_inv in H. destruct H as (rows & w3 & _ & H).
  apply bind_ok_inv in H. destruct H as (y & w4 & _ & H).
  eapply get_by_id_result_id. exact H.
Qed.

Lemma process_payment_try_result_id env p request w1 progress w2 :
  process_payment_try env p request w1 = (Ok progress, w2) ->
  (forall q tid iid, progress = Succeeded (Some q) tid iid -> id q = id p)
  /\ (forall q msg, progress = Declined (Some q) msg -> id q = id p).
Proof.
  unfold process_payment_try. intros H.
  apply bind_ok_inv in H. destruct H as (o & wa & _ & H).
  apply bind_ok_inv in H. destruct H as (result & wb & _ & H).
  apply bind_ok_inv in H. destruct H as (ok & wc & _ & H).
  destruct (truthy ok).
  - apply bind_ok_inv in H. destruct H as (tid & wd & _ & H).
    apply bind_ok_inv in H. destruct H as (iid & we & _ & H).
    apply bind_ok_inv in H. destruct H as (p' & wf & Hup & H).
    inversion H; subst. split.
    + intros q t i E. inversion E; subst.
      eapply update_payment_success_result_id. exact Hup.
    + intros q m E. discriminate E.
  - apply bind_ok_inv in H. destruct H as (msg & wd & _ & H).
    apply bind_ok_inv in H. destruct H as (p' & we & Hup & H).
    inversion H; subst. split.
    + intros q t i E. discriminate E.
    + intros q m E. inversion E; subst.
      eapply update_payment_failure_result_id. exact Hup.
Qed.

Lemma create_payment_cases env request w :
  payments (snd (create_payment env (pr_order_id request) (pr_amount request)
                   (pr_currency request) (pr_payment_method request) w))
  = payments w
  /\ (forall p, fst (create_payment env (pr_order_id request)
                       (pr_amount request) (pr_currency request)
                       (pr_payment_method request) w) <> Ok p)
  \/ existsb (fun r => String.eqb (pm_id r) (new_payment_id env w))
             (payments w) = false
     /\ sole_new_row (payments w) (new_payment_id env w) request
          (snd (create_payment env (pr_order_id request) (pr_amount request)
                  (pr_currency request) (pr_payment_method request) w))
     /\ (forall p, fst (create_payment env (pr_order_id request)
                          (pr_amount request) (pr_currency request)
                          (pr_payment_method request) w) = Ok p ->
                   id p = new_payment_id env w).
Proof.
  unfold create_payment, bind, uuid4, utcnow, db_trip, read_payments,
    write_payments, raise, ret.
  cbn [db_trips uuid_tick clock_tick payments db_tick uuid_draws clock_reads].
  destruct (store_fault env (db_trips w)).
  { left. split; [reflexivity | discriminate]. }
  fold (new_payment_id env w).
  change (payments (db_tick (clock_tick (clock_tick (uuid_tick w)))))
    with (payments w).
  destruct (existsb (fun r => String.eqb (pm_id r) (new_payment_id env w))
              (payments w)) eqn:E.
  { left. split; [reflexivity | discriminate]. }
  right. split; [reflexivity|].
  cbn [db_trips set_payments db_tick clock_tick uuid_tick].
  destruct (store_fault env (S (db_trips w))); cbn [fst snd].
  - split; [|discriminate].
    eexists. cbn [payments db_tick set_payments].
    split; [reflexivity|]. repeat split.
  - split.
    + eexists. cbn [payments db_tick set_payments].
      split; [reflexivity|]. repeat split.
    + intros p H. inversion H. reflexivity.
Qed.

Section OwnRow.

Variable env : Env.
Variable request : ProcessPaymentRequest.
Variable old : list PaymentModel.
Variable pid : string.
Hypothesis pid_fresh :
  existsb (fun r => String.eqb (pm_id r) pid) old = false.

Let own (w w' : World) : Prop :=
  sole_new_row old pid request w -> sole_new_row old pid request w'.

Lemma own_tables w w' : payments w' = payments w -> own w w'.
Proof. intros E (row & H & Hr). exists row. rewrite E. split; assumption. Qed.

Lemma own_update f w :
  (forall r, pm_id (f r) = pm_id r) ->
  (forall r, row_of_request request r -> row_of_request request (f r)) ->
  own w (set_payments (update_where_id pid f (payments w)) w).
Proof.
  intros Hid Hok (row & Hp & Hr & Hrow). exists (f row).
  cbn [payments set_payments]. rewrite Hp, update_where_id_app.
  rewrite (update_where_id_absent _ _ old) by exact pid_fresh.
  cbn [update_where_id map]. rewrite Hr, String.eqb_refl.
  split; [reflexivity|]. split; [rewrite Hid; exact Hr | apply Hok; exact Hrow].
Qed.

Ltac own_side :=
  first
    [ intros; apply own_tables; reflexivity
    | intros a b c Hab Hbc Ha; exact (Hbc (Hab Ha))
    | intros p0 s t w0 -> ->; apply own_update;
      [ reflexivity
      | intros r (? & ? & ? & ? & _ & ?); repeat split; assumption ]
    | intros p0 ? ? ? t w0 -> _; apply own_update;
      [ reflexivity
      | intros r (? & ? & ? & ? & _ & ?); repeat split; assumption ]
    | intros p0 ? ? t w0 ->; apply own_update;
      [ reflexivity
      | intros r (? & ? & ? & ? & _ & ?); repeat split; assumption ]
    | intros; exact I
    | reflexivity ].

Lemma own_process_payment_try p :
  id p = pid -> steps own (process_payment_try env p request).
Proof.
  intros Hp.
  apply d_process_payment_try
    with (call_ok := fun _ => True) (target_ok := fun x => x = pid)
         (status_ok := fun s => s = PROCESSING);
    first [exact Hp | own_side].
Qed.

Lemma own_process_payment_except p e :
  (forall q, p = Some q -> id q = pid) ->
  steps own (process_payment_except env p e).
Proof.
  intros Hp.
  apply d_process_payment_except with (target_ok := fun x => x = pid);
    first [exact Hp | own_side].
Qed.

Lemma own_process_payment_finish progress :
  (forall q tid iid, progress = Succeeded (Some q) tid iid -> id q = pid) ->
  (forall q msg, progress = Declined (Some q) msg -> id q = pid) ->
  steps own (process_payment_finish env progress).
Proof.
  intros H1 H2.
  apply d_process_payment_finish
    with (event_ok := fun _ => True) (target_ok := fun x => x = pid);
    first [exact H1 | exact H2 | own_side].
Qed.

End OwnRow.

Lemma process_payment_keeps_own_row env request p w1 old :
  existsb (fun r => String.eqb (pm_id r) (id p)) old = false ->
  sole_new_row old (id p) request w1 ->
  sole_new_row old (id p) request
    (snd ((progress <-
             try_except
               (process_payment_try env p request)
               (fun e =>
                  response <- process_payment_except env (Some p) e ;;
                  ret (Handled response)) ;;
           process_payment_finish env progress)%monad w1)).
Proof.
  intros Hfresh Hrow.
  pose proof (own_process_payment_try env request old (id p) Hfresh p
                eq_refl w1 Hrow) as Htry.
  unfold bind at 1. unfold try_except at 1.
  destruct (process_payment_try env p request w1) as [[progress|e] w2] eqn:Et;
    cbn [snd] in Htry.
  - destruct (process_payment_try_result_id _ _ _ _ _ _ Et) as [Hs Hd].
    exact (own_process_payment_finish env request old (id p) Hfresh progress
             Hs Hd w2 Htry).
  - assert (Hq : forall q, Some p = Some q -> id q = id p)
      by (intros q E; inversion E; reflexivity).
    pose proof (own_process_payment_except env request old (id p) Hfresh
                  (Some p) e Hq w2 Htry) as Hex.
    unfold bind at 1.
    destruct (process_payment_except env (Some p) e w2) as [[resp|e'] w3];
      cbn [snd] in Hex |- *; exact Hex.
Qed.

Lemma process_payment_rows env request w :
  payments (snd (process_payment env request w)) = payments w
  \/ exists row,
       payments (snd (process_payment env request w))
       = (payments w ++ [row])%list
       /\ existsb (fun r => String.eqb (pm_id r) (pm_id row)) (payments w)
          = false
       /\ row_of_request request row.
Proof.
  destruct (create_payment_cases env request w) as [[Hp Hr]|(Hf & Hrow & Hid)].
  - left. unfold process_payment. unfold bind at 1.
    destruct (create_payment env (pr_order_id request) (pr_amount request)
                (pr_currency request) (pr_payment_method request) w)
      as [[p|e] w1]; cbn [fst snd] in *.
    + exfalso. exact (Hr p eq_refl).
    + exact Hp.
  - right. unfold process_payment. unfold bind at 1.
    destruct (create_payment env (pr_order_id request) (pr_amount request)
                (pr_currency request) (pr_payment_method request) w)
      as [[p|e] w1]; cbn [fst snd] in *.
    + specialize (Hid p eq_refl). rewrite <- Hid in Hf, Hrow.
      destruct (process_payment_keeps_own_row env request p w1 (payments w)
                  Hf Hrow) as (row & H1 & H2 & H3).
      exists row. rewrite H2. split; [exact H1|]. split; [exact Hf | exact H3].
    + destruct Hrow as (row & H1 & H2 & H3).
      exists row. rewrite H2. split; [exact H1|]. split; [exact Hf | exact H3].
Qed.

(** X17. A call of [process_payment] never rewrites or removes a payment row
    that was there before it: the table afterwards is the table before,
    followed by at most one row.  That row has a key no earlier row has,
    carries the order, amount, currency and method of the request, has one of
    the statuses PENDING, PROCESSING, CAPTURED and FAILED, and no refund
    time. *)
Theorem process_payment_touches_only_its_row env request w :
  payments (snd (process_payment env request w)) = payments w
  \/ exists row,
       payments (snd (process_payment env request w))
       = (payments w ++ [row])%list
       /\ existsb (fun r => String.eqb (pm_id r) (pm_id row)) (payments w)
          = false
       /\ row_of_request request row.
Proof. exact (process_payment_rows env request w). Qed.

(** ** What a refund does to the payments table *)

Lemma refund_payment_lookup_cases env request w :
  payments (snd (refund_payment env request w)) = payments w
  \/ exists row,
       filter (fun r => opt_eqb (pm_transaction_id r)
                          (rr_transaction_id request)) (payments w) = [row]
       /\ refund_payment env request w
          = refund_found env (_to_domain row) request (db_tick w).
Proof.
  destruct (get_by_transaction_id env (rr_transaction_id request) w)
    as [[[p|]|e] w1] eqn:E.
  - right. destruct (get_by_transaction_id_inv _ _ _ _ _ E)
      as (_ & -> & row & Hrow & ->).
    exists row. split; [exact Hrow|].
    unfold refund_payment. unfold bind at 1. rewrite E. reflexivity.
  - left. pose proof (get_by_transaction_id_frame _ _ _ _ _ E) as ->.
    unfold refund_payment. unfold bind at 1. rewrite E. reflexivity.
  - left. pose proof (get_by_transaction_id_frame _ _ _ _ _ E) as ->.
    unfold refund_payment. unfold bind at 1. rewrite E. reflexivity.
Qed.

Lemma update_where_id_set_status_twice pid s t t' rows :
  update_where_id pid (set_status s t')
    (update_where_id pid (set_status s t) rows)
  = update_where_id pid (set_status s t') rows.
Proof.
  unfold update_where_id. rewrite map_map. apply map_ext. intros r.
  destruct (String.eqb (pm_id r) pid) eqn:E.
  - cbn [set_status pm_id]. rewrite E. reflexivity.
  - rewrite E. reflexivity.
Qed.

Section RefundRow.

Variable env : Env.
Variable rows : list PaymentModel.
Variable pid : string.
Variable s : PaymentStatus.

Let at_most_status (w : World) : Prop :=
  payments w = rows
  \/ exists t, payments w = update_where_id pid (set_status s t) rows.

Let moved (w w' : World) : Prop := at_most_status w -> at_most_status w'.

Lemma moved_tables w w' : payments w' = payments w -> moved w w'.
Proof. intros E H. unfold at_most_status. rewrite E. exact H. Qed.

Lemma moved_status t w :
  moved w (set_payments (update_where_id pid (set_status s t) (payments w)) w).
Proof.
  intros [H|[t0 H]]; right; exists t; cbn [payments set_payments]; rewrite H.
  - reflexivity.
  - apply update_where_id_set_status_twice.
Qed.

Lemma moved_refund_found payment request :
  id payment = pid ->
  refund_target (rr_amount request) (amount payment) = s ->
  steps moved (refund_found env payment request).
Proof.
  intros Hp Hs.
  apply d_refund_found
    with (call_ok := fun _ => True) (event_ok := fun _ => True)
         (target_ok := fun x => x = pid) (status_ok := fun x => x = s)
         (refund_ok := fun _ => True);
    first
      [ exact Hp | exact Hs
      | intros; apply moved_tables; reflexivity
      | intros a b c Hab Hbc Ha; exact (Hbc (Hab Ha))
      | intros p0 s0 t w0 -> ->; apply moved_status
      | intros; exact I ].
Qed.

End RefundRow.

Lemma refund_payment_rows env request w :
  payments (snd (refund_payment env request w)) = payments w
  \/ exists row t,
       filter (fun r => opt_eqb (pm_transaction_id r)
                          (rr_transaction_id request)) (payments w) = [row]
       /\ status_in (pm_status row) [CAPTURED; PARTIALLY_REFUNDED] = true
       /\ payments (snd (refund_payment env request w))
          = update_where_id (pm_id row)
              (set_status (refund_target (rr_amount request) (pm_amount row)) t)
              (payments w).
Proof.
  destruct (refund_payment_lookup_cases env request w) as [H|(row & Hrow & E)];
    [left; exact H|].
  rewrite E.
  destruct (status_in (pm_status row) [CAPTURED; PARTIALLY_REFUNDED]) eqn:Hs.
  - pose proof (moved_refund_found env (payments w) (pm_id row)
                  (refund_target (rr_amount request) (pm_amount row))
                  (_to_domain row) request eq_refl eq_refl (db_tick w)
                  (or_introl eq_refl)) as [H|[t H]].
    + left. exact H.
    + right. exists row, t. split; [exact Hrow|]. split; [exact Hs|exact H].
  - left. unfold refund_found. cbn [status _to_domain]. rewrite Hs. reflexivity.
Qed.

(** X18. A refund request changes the payments table in one way at most: it
    sets the status (and the update time) of the rows that carry the key of
    the one row holding the transaction id, to REFUNDED when the requested
    amount reaches the row's amount and to PARTIALLY_REFUNDED otherwise.  It
    does so only when that row was CAPTURED or PARTIALLY_REFUNDED; in every
    other case, whatever fails, the table is left as it was. *)
Theorem refund_payment_only_sets_refund_status env request w :
  payments (snd (refund_payment env request w)) = payments w
  \/ exists row t,
       filter (fun r => opt_eqb (pm_transaction_id r)
                          (rr_transaction_id request)) (payments w) = [row]
       /\ status_in (pm_status row) [CAPTURED; PARTIALLY_REFUNDED] = true
       /\ payments (snd (refund_payment env request w))
          = update_where_id (pm_id row)
              (set_status
                 (if rr_amount request >=? pm_amount row
                  then REFUNDED else PARTIALLY_REFUNDED) t)
              (payments w).
Proof. exact (refund_payment_rows env request w). Qed.

(** ** Stored payments over a sequence of requests *)

Lemma row_evolves_refl r : row_evolves r r.
Proof.
  split; [apply same_but_status_refl|]. split; [reflexivity | left; reflexivity].
Qed.

Lemma row_evolves_trans a b c :
  row_evolves a b -> row_evolves b c -> row_evolves a c.
Proof.
  intros (S1 & K1 & T1) (S2 & K2 & T2). split; [|split].
  - eapply same_but_status_trans; eassumption.
  - intros H. pose proof (K1 H) as ->. exact (K2 H).
  - destruct T2 as [E|E]; [|right; exact E].
    rewrite E. exact T1.
Qed.

Lemma Forall2_row_evolves_refl l : Forall2 row_evolves l l.
Proof. induction l; constructor; [apply row_evolves_refl | assumption]. Qed.

Lemma Forall2_row_evolves_trans l1 l2 l3 :
  Forall2 row_evolves l1 l2 -> Forall2 row_evolves l2 l3 ->
  Forall2 row_evolves l1 l3.
Proof.
  intros H. revert l3. induction H as [|a b l1 l2 Hab _ IH]; intros l3 H3.
  - inversion H3. constructor.
  - inversion H3 as [|? c ? l3' Hbc Hrest]; subst.
    constructor; [eapply row_evolves_trans; eassumption | apply IH, Hrest].
Qed.

Lemma Forall2_map_in {A} (P : A -> A -> Prop) (g : A -> A) (l : list A) :
  (forall r, In r l -> P r (g r)) -> Forall2 P l (map g l).
Proof.
  induction l as [|a l IH]; intros H; cbn; constructor.
  - apply H. left. reflexivity.
  - apply IH. intros r Hr. apply H. right. exact Hr.
Qed.

Lemma keyed_same_id (rows : list PaymentModel) r1 r2 :
  NoDup (map pm_id rows) -> In r1 rows -> In r2 rows ->
  pm_id r1 = pm_id r2 -> r1 = r2.
Proof.
  induction rows as [|a rows IH]; intros Hnd H1 H2 E; [destruct H1|].
  cbn in Hnd. inversion Hnd as [|? ? Hn Hl]; subst.
  destruct H1 as [<-|H1], H2 as [<-|H2].
  - reflexivity.
  - exfalso. apply Hn. rewrite E. apply in_map. exact H2.
  - exfalso. apply Hn. rewrite <- E. apply in_map. exact H1.
  - apply IH; assumption.
Qed.

Lemma refund_target_cases amt total :
  refund_target amt total = REFUNDED
  \/ refund_target amt total = PARTIALLY_REFUNDED.
Proof. unfold refund_target. destruct (amt >=? total); [left|right]; reflexivity. Qed.

Lemma refund_update_evolves rows row s t :
  NoDup (map pm_id rows) ->
  In row rows ->
  status_in (pm_status row) [CAPTURED; PARTIALLY_REFUNDED] = true ->
  s = REFUNDED \/ s = PARTIALLY_REFUNDED ->
  Forall2 row_evolves rows (update_where_id (pm_id row) (set_status s t) rows).
Proof.
  intros Hnd Hin Hst Hs. apply Forall2_map_in. intros r Hr.
  destruct (String.eqb (pm_id r) (pm_id row)) eqn:E; [|apply row_evolves_refl].
  apply String.eqb_eq in E.
  pose proof (keyed_same_id rows r row Hnd Hr Hin E) as ->.
  split; [repeat split|]. split.
  - intros H. rewrite H in Hst. discriminate Hst.
  - right. cbn [set_status pm_status]. destruct Hs as [-> | ->]; reflexivity.
Qed.

Lemma serve_rows_evolve env r w :
  payments_keyed w ->
  exists rows' added,
    payments (serve env r w) = (rows' ++ added)%list
    /\ Forall2 row_evolves (payments w) rows'.
Proof.
  intros Hk. destruct r as [request|request]; cbn [serve].
  - destruct (process_payment_rows env request w) as [H|(row & H & _)].
    + exists (payments w), []. rewrite H, app_nil_r.
      split; [reflexivity | apply Forall2_row_evolves_refl].
    + exists (payments w), [row].
      split; [exact H | apply Forall2_row_evolves_refl].
  - destruct (refund_payment_rows env request w)
      as [H|(row & t & Hrow & Hst & H)].
    + exists (payments w), []. rewrite H, app_nil_r.
      split; [reflexivity | apply Forall2_row_evolves_refl].
    + eexists _, []. rewrite H, app_nil_r. split; [reflexivity|].
      apply refund_update_evolves.
      * exact Hk.
      * apply (filter_singleton_in _ _ _ Hrow).
      * exact Hst.
      * apply refund_target_cases.
Qed.

Lemma serve_keyed env r w : payments_keyed w -> payments_keyed (serve env r w).
Proof. intros H. exact (serve_all_keyed env [r] w H). Qed.

Lemma serve_all_rows_evolve env rs w :
  payments_keyed w ->
  exists rows' added,
    payments (serve_all env rs w) = (rows' ++ added)%list
    /\ Forall2 row_evolves (payments w) rows'.
Proof.
  revert w. induction rs as [|r rs IH]; intros w Hk.
  - exists (payments w), []. cbn. rewrite app_nil_r.
    split; [reflexivity | apply Forall2_row_evolves_refl].
  - change (serve_all env (r :: rs) w) with (serve_all env rs (serve env r w)).
    destruct (serve_rows_evolve env r w Hk) as (rows1 & added1 & E1 & F1).
    destruct (IH (serve env r w) (serve_keyed env r w Hk))
      as (rows2 & added2 & E2 & F2).
    rewrite E1 in F2. apply Forall2_app_inv_l in F2.
    destruct F2 as (rows2a & rows2b & Fa & _ & ->).
    exists rows2a, (rows2b ++ added2)%list. split.
    + rewrite E2, app_assoc. reflexivity.
    + eapply Forall2_row_evolves_trans; eassumption.
Qed.

(** X19. Over any sequence of process and refund requests, on a table whose
    keys are distinct, the rows that were there stay where they are, one for
    one, and new rows only come after them.  Such a row keeps every column
    but [status] and [updated_at]; it does not change at all unless it was
    CAPTURED or PARTIALLY_REFUNDED; and if its status differs afterwards, the
    new status is REFUNDED or PARTIALLY_REFUNDED. *)
Theorem payments_evolve_by_refunds_only env rs w :
  payments_keyed w ->
  exists rows' added,
    payments (serve_all env rs w) = (rows' ++ added)%list
    /\ Forall2 row_evolves (payments w) rows'.
Proof. exact (serve_all_rows_evolve env rs w). Qed.

Lemma payments_evolve_by_refunds_only_witness :
  payments_keyed world_captured
  /\ exists rows' added,
       payments (serve_all calm_env
                   [Refund (refund_of order1_tid 4000); Process order1]
                   world_captured)
       = (rows' ++ added)%list
       /\ Forall2 row_evolves (payments world_captured) rows'.
Proof.
  split; [exact world_captured_keyed|].
  exact (payments_evolve_by_refunds_only calm_env
           [Refund (refund_of order1_tid 4000); Process order1]
           world_captured world_captured_keyed).
Defined.

(** ** What the columns of a stored payment say about each other *)

Lemma Forall_update_where_id (P : PaymentModel -> Prop) pid f rows :
  (forall r, P r -> P (f r)) ->
  Forall P rows -> Forall P (update_where_id pid f rows).
Proof.
  intros Hf H. unfold update_where_id. apply Forall_map.
  apply (Forall_impl _ (P := P)); [|exact H].
  intros r Hr. destruct (String.eqb (pm_id r) pid); [apply Hf|]; exact Hr.
Qed.

Lemma row_sound_processing t r : row_sound r -> row_sound (set_status PROCESSING t r).
Proof.
  intros (H1 & H2 & H3 & H4 & H5). unfold row_sound. cbn [set_status pm_status
    pm_authorized_at pm_captured_at pm_transaction_id pm_payment_intent_id
    pm_provider_response pm_error_message].
  split; [discriminate|]. split; [exact H2|].
  split; [intros E; discriminate E|]. split; intros E; discriminate E.
Qed.

Lemma row_sound_success tid iid resp t r :
  row_sound r -> row_sound (set_success tid iid resp t r).
Proof.
  intros _. unfold row_sound. cbn [set_success pm_status
    pm_authorized_at pm_captured_at pm_transaction_id pm_payment_intent_id
    pm_provider_response pm_error_message].
  split; [discriminate|]. split; [reflexivity|].
  split; [intros _; repeat split; discriminate|].
  split; intros E; discriminate E.
Qed.

Lemma row_sound_failure msg resp t r :
  row_sound r -> row_sound (set_failure msg resp t r).
Proof.
  intros (H1 & H2 & H3 & H4 & H5). unfold row_sound. cbn [set_failure pm_status
    pm_authorized_at pm_captured_at pm_transaction_id pm_payment_intent_id
    pm_provider_response pm_error_message].
  split; [discriminate|]. split; [exact H2|].
  split; [intros E; discriminate E|].
  split; [intros E; discriminate E | intros _; discriminate].
Qed.

Lemma row_sound_refunded s t r :
  s = REFUNDED \/ s = PARTIALLY_REFUNDED ->
  status_in (pm_status r) [CAPTURED; PARTIALLY_REFUNDED] = true ->
  row_sound r -> row_sound (set_status s t r).
Proof.
  intros Hs Hst (H1 & H2 & H3 & H4 & H5).
  assert (Hc : status_in (pm_status r) [CAPTURED; PARTIALLY_REFUNDED; REFUNDED]
               = true)
    by (destruct (pm_status r); try discriminate Hst; reflexivity).
  unfold row_sound. cbn [set_status pm_status
    pm_authorized_at pm_captured_at pm_transaction_id pm_payment_intent_id
    pm_provider_response pm_error_message].
  split; [destruct Hs as [-> | ->]; discriminate|]. split; [exact H2|].
  split; [intros _; exact (H3 Hc)|].
  split; intros E; destruct Hs as [-> | ->]; discriminate E.
Qed.

Lemma process_payment_keeps_sound env request w :
  Forall row_sound (payments w) ->
  Forall row_sound (payments (snd (process_payment env request w))).
Proof.
  apply d_process_payment
    with (R := fun a b => Forall row_sound (payments a) ->
                          Forall row_sound (payments b))
         (call_ok := fun _ => True) (event_ok := fun _ => True)
         (target_ok := fun _ => True) (status_ok := fun s => s = PROCESSING)
         (payment_ok := fun row => pm_provider_response row = None
                                   /\ pm_error_message row = None
                                   /\ pm_authorized_at row = None
                                   /\ pm_captured_at row = None);
    first
      [ intros; exact I
      | reflexivity
      | solve [intros; cbn; repeat split]
      | intros a H; exact H
      | intros a b c Hab Hbc Ha; exact (Hbc (Hab Ha))
      | intros a H; exact H
      | intros c a _ H; exact H
      | intros ev b a _ H; exact H
      | intros pid s t a _ -> H; cbn [payments set_payments];
        apply Forall_update_where_id; [apply row_sound_processing | exact H]
      | intros pid tid iid resp t a _ _ H; cbn [payments set_payments];
        apply Forall_update_where_id; [apply row_sound_success | exact H]
      | intros pid msg resp t a _ H; cbn [payments set_payments];
        apply Forall_update_where_id; [apply row_sound_failure | exact H]
      | intros row a (Hr & He & Ha & Hc) Hs Ht Hi _ H;
        cbn [payments set_payments]; apply Forall_app; split; [exact H|];
        constructor; [|constructor];
        unfold row_sound; rewrite Hs, Ht, Hi, Hr, He, Ha, Hc;
        split; [discriminate|]; split; [reflexivity|];
        split; [intros E; discriminate E|];
        split; [intros _; repeat split | intros E; discriminate E] ].
Qed.

Lemma refund_payment_keeps_sound env request w :
  payments_keyed w ->
  Forall row_sound (payments w) ->
  Forall row_sound (payments (snd (refund_payment env request w))).
Proof.
  intros Hk H.
  destruct (refund_payment_rows env request w)
    as [E|(row & t & Hrow & Hst & E)]; rewrite E; [exact H|].
  destruct (filter_singleton_in _ _ _ Hrow) as [Hin _].
  unfold update_where_id. apply Forall_map. apply Forall_forall. intros r Hr.
  pose proof (proj1 (Forall_forall _ _) H r Hr) as Hsound.
  destruct (String.eqb (pm_id r) (pm_id row)) eqn:Eid; [|exact Hsound].
  apply String.eqb_eq in Eid.
  pose proof (keyed_same_id _ r row Hk Hr Hin Eid) as ->.
  apply row_sound_refunded;
    [apply refund_target_cases | exact Hst | exact Hsound].
Qed.

Lemma serve_all_keeps_sound env rs w :
  payments_keyed w ->
  Forall row_sound (payments w) ->
  Forall row_sound (payments (serve_all env rs w)).
Proof.
  revert w. induction rs as [|r rs IH]; intros w Hk H; [exact H|].
  change (serve_all env (r :: rs) w) with (serve_all env rs (serve env r w)).
  apply IH; [apply serve_keyed; exact Hk|].
  destruct r as [request|request]; cbn [serve].
  - apply process_payment_keeps_sound. exact H.
  - apply refund_payment_keeps_sound; assumption.
Qed.

(** X20. Over any sequence of process and refund requests, on a table whose
    keys are distinct, the columns of every stored payment stay consistent:
    no row has the status AUTHORIZED; [authorized_at] always equals
    [captured_at]; a CAPTURED, PARTIALLY_REFUNDED or REFUNDED row has a
    transaction id, an intent id, a provider response and a capture time; a
    PENDING row has none of these and no error message; a FAILED row has an
    error message. *)
Theorem stored_payments_stay_sound env rs w :
  payments_keyed w ->
  Forall row_sound (payments w) ->
  Forall row_sound (payments (serve_all env rs w)).
Proof. exact (serve_all_keeps_sound env rs w). Qed.

Lemma stored_payments_stay_sound_witness :
  payments_keyed initial_world
  /\ Forall row_sound (payments initial_world)
  /\ Forall row_sound
       (payments (serve_all declining_env
                    [Process order1; Refund (refund_of order1_tid 4000);
                     Process order1]
                    initial_world)).
Proof.
  assert (Hk : payments_keyed initial_world) by constructor.
  assert (Hs : Forall row_sound (payments initial_world)) by constructor.
  exact (conj Hk (conj Hs
           (stored_payments_stay_sound declining_env
              [Process order1; Refund (refund_of order1_tid 4000);
               Process order1]
              initial_world Hk Hs))).
Defined.

(** ** The routes *)

(** X21. When the store answers every round trip and refuses no statement
    (the keys of the new row and the gateway's ids are fresh, the order id
    fits its column), [process_payment] returns and the [POST /process] route
    answers 200 with its response, never 500: a success when authorize and
    capture both succeed, and otherwise the gateway's decline as a failure
    response. *)
Theorem process_route_answers_when_store_is_up env request w :
  store_available env w ->
  payment_keys_fresh env w ->
  order_id_fits request ->
  exists resp w',
    payment_routes.process_payment env request w = (Returned resp, w')
    /\ process_payment env request w = (Ok resp, w')
    /\ payment_response_shape resp
    /\ ((gateway_accepts env w /\ resp_success resp = true)
        \/ (gateway_declines env w /\ resp_success resp = false)).
Proof.
  intros Hst Hfr _.
  assert (Hroute : forall resp w',
            process_payment env request w = (Ok resp, w') ->
            payment_routes.process_payment env request w = (Returned resp, w')).
  { intros resp w' H. unfold payment_routes.process_payment. rewrite H.
    reflexivity. }
  assert (Hcases : gateway_accepts env w \/ gateway_declines env w).
  { unfold gateway_accepts, gateway_declines.
    destruct (random_below_rate env (rng_draws w));
      destruct (random_below_rate env (S (rng_draws w))); auto. }
  destruct Hcases as [Hg | Hg].
  - pose proof (process_payment_run_ok env request w Hst Hg Hfr) as H.
    eexists. eexists. split; [apply Hroute; exact H|]. split; [exact H|].
    split.
    + left. cbn. repeat split; discriminate.
    + left. split; [exact Hg | reflexivity].
  - destruct (process_payment_run_declined env request w Hst (proj1 Hfr) Hg)
      as (w' & msg & row & result & ev & H & _).
    eexists. eexists. split; [apply Hroute; exact H|]. split; [exact H|].
    split.
    + right. cbn. repeat split. discriminate.
    + right. split; [exact Hg | reflexivity].
Qed.

Lemma process_route_answers_when_store_is_up_witness :
  exists resp w',
    payment_routes.process_payment declining_env order1 world_captured
    = (Returned resp, w')
    /\ process_payment declining_env order1 world_captured = (Ok resp, w')
    /\ payment_response_shape resp
    /\ ((gateway_accepts declining_env world_captured
         /\ resp_success resp = true)
        \/ (gateway_declines declining_env world_captured
            /\ resp_success resp = false)).
Proof.
  apply (process_route_answers_when_store_is_up declining_env order1
           world_captured).
  - intros n _. reflexivity.
  - split; vm_compute; reflexivity.
  - reflexivity.
Defined.

(** X22. The [POST /process] route never lets an exception through.  It
    answers 200 with a response of one of the two shapes of
    [process_payment], or 500 with the text of the exception that
    [process_payment] raised. *)
Theorem process_route_outcomes env request w :
  match fst (payment_routes.process_payment env request w) with
  | Returned resp =>
      payment_response_shape resp
      /\ fst (process_payment env request w) = Ok resp
  | HTTPException code detail =>
      code = 500
      /\ exists e,
           fst (process_payment env request w) = Raise e
           /\ detail = Some ("Payment processing failed: " ++ exn_str e)
  | Escaped _ => False
  end.
Proof.
  unfold payment_routes.process_payment.
  destruct (process_payment env request w) as [[resp|e] w'] eqn:E; cbn [fst].
  - split; [exact (process_payment_shape env request w w' resp E) | reflexivity].
  - split; [reflexivity|]. exists e. split; reflexivity.
Qed.

(** X23. The [POST /refund] route never lets an exception through and has
    three outcomes.  It answers 200 only with a successful response, which
    carries a refund id and the requested amount.  It answers 400 for every
    failure response of [refund_payment], with the error text as detail; an
    unknown transaction id is among these, with detail "Payment not found"
    (not 404).  It answers 500 only when the lookup by transaction id
    raised. *)
Theorem refund_route_outcomes env request w :
  match fst (payment_routes.refund_payment env request w) with
  | Returned resp =>
      rresp_success resp = true /\ rresp_refund_id resp <> None
      /\ rresp_error resp = None /\ rresp_amount resp = rr_amount request
  | HTTPException code detail =>
      (code = 400 /\ detail <> None
       /\ exists found w1,
            get_by_transaction_id env (rr_transaction_id request) w
            = (Ok found, w1)
            /\ (found = None -> detail = Some "Payment not found"))
      \/ (code = 500
          /\ exists e w1,
               get_by_transaction_id env (rr_transaction_id request) w
               = (Raise e, w1)
               /\ detail = Some ("Refund processing failed: " ++ exn_str e))
  | Escaped _ => False
  end.
Proof.
  unfold payment_routes.refund_payment.
  destruct (get_by_transaction_id env (rr_transaction_id request) w)
    as [[found|e] w1] eqn:El.
  - destruct (refund_payment_returns_after_lookup env request w w1 found El)
      as (resp & w' & E & _).
    rewrite E.
    destruct (refund_payment_shape env request w w' resp E)
      as [[(S1 & S2 & S3)|(S1 & S2 & S3)] Ha].
    + rewrite S1. cbn [negb fst]. repeat split; assumption.
    + rewrite S1. cbn [negb fst]. left. split; [reflexivity|].
      split; [exact S3|]. exists found, w1. split; [reflexivity|].
      intros ->. revert E. unfold refund_payment. unfold bind at 1.
      rewrite El. cbn [ret]. intros E. inversion E. reflexivity.
  - unfold refund_payment. unfold bind at 1. rewrite El. cbn [fst].
    right. split; [reflexivity|]. exists e, w1. split; reflexivity.
Qed.

Lemma get_by_transaction_id_keyed env tid w :
  store_constraints w ->
  store_fault env (db_trips w) = None ->
  exists o, get_by_transaction_id env tid w = (Ok o, db_tick w).
Proof.
  intros (H1 & H2 & _) Hs.
  unfold get_by_transaction_id, bind, db_trip, read_payments. rewrite Hs.
  cbn [payments db_tick].
  destruct (filter_at_most_one
              (fun r => opt_eqb (pm_transaction_id r) tid)
              (payments w) H1) as [E | (r & E)].
  - intros r1 r2 Hr1 Hr2 E1 E2. apply (H2 r1 r2 tid Hr1 Hr2).
    + destruct (pm_transaction_id r1); [|discriminate].
      cbn in E1. apply String.eqb_eq in E1. congruence.
    + destruct (pm_transaction_id r2); [|discriminate].
      cbn in E2. apply String.eqb_eq in E2. congruence.
  - rewrite E. eexists. reflexivity.
  - rewrite E. eexists. reflexivity.
Qed.

(** X24. In a store that satisfies the key constraints, when the database
    answers the lookup, the [POST /refund] route never answers 500: it
    answers 200 with a successful response or 400 with the error text,
    whatever the gateway, the store and the broker do afterwards. *)
Theorem refund_route_never_500_on_sound_store env request w :
  store_constraints w ->
  store_fault env (db_trips w) = None ->
  (exists resp,
     fst (payment_routes.refund_payment env request w) = Returned resp
     /\ rresp_success resp = true)
  \/ (exists msg,
        fst (payment_routes.refund_payment env request w)
        = HTTPException 400 (Some msg)).
Proof.
  intros Hc Hs.
  destruct (get_by_transaction_id_keyed env (rr_transaction_id request) w
              Hc Hs) as [found El].
  destruct (refund_payment_returns_after_lookup env request w (db_tick w)
              found El) as (resp & w' & E & _).
  unfold payment_routes.refund_payment. rewrite E.
  destruct (refund_payment_shape env request w w' resp E)
    as [[(S1 & S2 & S3)|(S1 & S2 & S3)] _]; rewrite S1; cbn [negb fst].
  - left. exists resp. split; [reflexivity | exact S1].
  - right. destruct (rresp_error resp) as [msg|]; [|contradiction].
    exists msg. reflexivity.
Qed.

Lemma refund_route_never_500_on_sound_store_witness :
  (exists resp,
     fst (payment_routes.refund_payment (store_outage_env 7 5)
            (refund_of order1_tid 4000)
            (serve_all calm_env [Process order1] initial_world))
     = Returned resp
     /\ rresp_success resp = true)
  \/ (exists msg,
        fst (payment_routes.refund_payment (store_outage_env 7 5)
               (refund_of order1_tid 4000)
               (serve_all calm_env [Process order1] initial_world))
        = HTTPException 400 (Some msg)).
Proof.
  apply (refund_route_never_500_on_sound_store (store_outage_env 7 5)
           (refund_of order1_tid 4000)
           (serve_all calm_env [Process order1] initial_world)).
  - apply serve_all_keeps_constraints. exact initial_world_constraints.
  - vm_compute. reflexivity.
Defined.

Lemma opt_eqb_true a b : opt_eqb a b = true -> a = Some b.
Proof.
  destruct a as [t|]; cbn; [|discriminate].
  intros H. apply String.eqb_eq in H. rewrite H. reflexivity.
Qed.

(** X25. In a store that satisfies the key constraints, when the database
    answers, [GET /payment/{id}] and [GET /transaction/{id}] have two
    outcomes: the payment whose key (or transaction id) was asked for, or 404
    with detail "Payment not found" when no row carries it. *)
Theorem get_routes_found_or_404 env k w :
  store_constraints w ->
  store_fault env (db_trips w) = None ->
  ((exists p,
      payment_routes.get_payment env k w = (Returned p, db_tick w)
      /\ id p = k)
   \/ (payment_routes.get_payment env k w
       = (HTTPException 404 (Some "Payment not found"), db_tick w)
       /\ rows_with_id k w = []))
  /\ ((exists p,
         payment_routes.get_payment_by_transaction env k w
         = (Returned p, db_tick w)
         /\ transaction_id p = Some k)
      \/ (payment_routes.get_payment_by_transaction env k w
          = (HTTPException 404 (Some "Payment not found"), db_tick w)
          /\ filter (fun r => opt_eqb (pm_transaction_id r) k) (payments w)
             = [])).
Proof.
  intros (H1 & H2 & _) Hs. split.
  - unfold payment_routes.get_payment, payment_routes.found_or_404,
      get_payment.
    rewrite get_by_id_run by exact Hs. unfold rows_with_id.
    destruct (filter_at_most_one (fun r => String.eqb (pm_id r) k)
                (payments w) H1) as [E | (r & E)].
    + intros r1 r2 _ _ E1 E2.
      apply String.eqb_eq in E1. apply String.eqb_eq in E2. congruence.
    + right. rewrite E. split; reflexivity.
    + left. rewrite E. exists (_to_domain r). split; [reflexivity|].
      destruct (filter_singleton_in _ _ _ E) as [_ Hr].
      apply String.eqb_eq in Hr. exact Hr.
  - unfold payment_routes.get_payment_by_transaction,
      payment_routes.found_or_404, get_payment_by_transaction,
      get_by_transaction_id, bind, db_trip, read_payments.
    rewrite Hs. cbn [payments db_tick].
    destruct (filter_at_most_one
                (fun r => opt_eqb (pm_transaction_id r) k)
                (payments w) H1) as [E | (r & E)].
    + intros r1 r2 Hr1 Hr2 E1 E2. apply (H2 r1 r2 k Hr1 Hr2).
      * apply opt_eqb_true. exact E1.
      * apply opt_eqb_true. exact E2.
    + right. rewrite E. split; reflexivity.
    + left. rewrite E. exists (_to_domain r). split; [reflexivity|].
      destruct (filter_singleton_in _ _ _ E) as [_ Hr].
      apply opt_eqb_true. exact Hr.
Qed.

Lemma get_routes_found_or_404_witness :
  ((exists p,
      payment_routes.get_payment calm_env order1_tid
        (serve_all calm_env [Process order1] initial_world)
      = (Returned p,
         db_tick (serve_all calm_env [Process order1] initial_world))
      /\ id p = order1_tid)
   \/ (payment_routes.get_payment calm_env order1_tid
         (serve_all calm_env [Process order1] initial_world)
       = (HTTPException 404 (Some "Payment not found"),
          db_tick (serve_all calm_env [Process order1] initial_world))
       /\ rows_with_id order1_tid
            (serve_all calm_env [Process order1] initial_world) = []))
  /\ ((exists p,
         payment_routes.get_payment_by_transaction calm_env order1_tid
           (serve_all calm_env [Process order1] initial_world)
         = (Returned p,
            db_tick (serve_all calm_env [Process order1] initial_world))
         /\ transaction_id p = Some order1_tid)
      \/ (payment_routes.get_payment_by_transaction calm_env order1_tid
            (serve_all calm_env [Process order1] initial_world)
          = (HTTPException 404 (Some "Payment not found"),
             db_tick (serve_all calm_env [Process order1] initial_world))
          /\ filter (fun r => opt_eqb (pm_transaction_id r) order1_tid)
               (payments (serve_all calm_env [Process order1] initial_world))
             = [])).
Proof.
  apply (get_routes_found_or_404 calm_env order1_tid
           (serve_all calm_env [Process order1] initial_world)).
  - apply serve_all_keeps_constraints. exact initial_world_constraints.
  - reflexivity.
Defined.

(** ** A refund that stops half way *)

Lemma add_refund_record_fault env pid rid amt reason w e :
  store_fault env (db_trips w) = Some e ->
  add_refund_record env pid rid amt reason w
  = (Raise e, db_tick (clock_tick (uuid_tick w))).
Proof.
  intros Hs. unfold add_refund_record, bind, uuid4, utcnow, db_trip.
  cbn. rewrite Hs. reflexivity.
Qed.

(** X26. A refund can stop half way.  When the gateway has accepted the
    refund and the status update has gone through, but the store fails as the
    refund row is committed, [refund_payment] answers with a failure
    ("Refund processing error: ...") although the payment is already marked
    REFUNDED or PARTIALLY_REFUNDED and the gateway has been asked to refund:
    no refund row is stored, no event is published, and nothing is rolled
    back. *)
Theorem refund_stops_after_status_update
    (env : Env) (request : RefundRequest) (w w1 : World) (p : Payment)
    (e : exn) :
  payments_keyed w ->
  get_by_transaction_id env (rr_transaction_id request) w = (Ok (Some p), w1) ->
  status_in (status p) [CAPTURED; PARTIALLY_REFUNDED] = true ->
  random_below_rate env (rng_draws w1) = true ->
  store_fault env (db_trips w1) = None ->
  store_fault env (S (db_trips w1)) = None ->
  store_fault env (S (S (db_trips w1))) = Some e ->
  exists w',
    refund_payment env request w
    = (Ok {| rresp_success := false;
             rresp_refund_id := None;
             rresp_amount := rr_amount request;
             rresp_error := Some ("Refund processing error: " ++ exn_str e) |},
       w')
    /\ payments w'
       = update_where_id (id p)
           (set_status
              (if rr_amount request >=? amount p
               then REFUNDED else PARTIALLY_REFUNDED)
              (clock env (S (clock_reads w))))
           (payments w)
    /\ refunds w' = refunds w
    /\ publish_log w' = publish_log w
    /\ gateway_log w'
       = (gateway_log w
          ++ [GwRefund (rr_transaction_id request) (rr_amount request)
                (rr_reason request)])%list.
Proof.
  intros Hk Hl Hs Hg Hs1 Hs2 Hs3.
  destruct (get_by_transaction_id_inv _ _ _ _ _ Hl) as (_ & Hw1 & r & Hr & Hp).
  destruct (filter_singleton_in _ _ _ Hr) as [Hin _].
  assert (Hpid : id p = pm_id r) by (subst p; reflexivity).
  unfold refund_payment. unfold bind at 1. rewrite Hl, Hs. cbn [negb].
  unfold try_except. unfold bind at 1.
  rewrite gateway_refund_run_ok by exact Hg.
  unfold bind at 1.
  cbn [subscript dict_get refund_ok_result String.eqb Ascii.eqb Bool.eqb ret
       truthy].
  unfold bind at 1.
  rewrite update_status_run by assumption.
  rewrite filter_update_where_id by reflexivity.
  assert (Hrows : filter (fun x => String.eqb (pm_id x) (id p)) (payments w1)
                  = [r]).
  { rewrite Hw1, Hpid. cbn. apply filter_id_unique; assumption. }
  cbn [payments clock_tick uuid_tick rng_tick log_call clock_reads].
  rewrite Hrows. cbn [map scalar_one_or_none ret].
  unfold bind at 1. unfold subscript_str, bind at 1.
  cbn [subscript dict_get refund_ok_result String.eqb Ascii.eqb Bool.eqb ret
       as_str].
  unfold bind at 1.
  rewrite add_refund_record_fault with (e := e) by exact Hs3.
  unfold ret. eexists. split; [reflexivity|].
  subst w1. repeat split.
Qed.

Lemma refund_stops_after_status_update_witness :
  exists w',
    refund_payment (store_outage_env 9 1) (refund_of order1_tid 4000)
      world_captured
    = (Ok {| rresp_success := false;
             rresp_refund_id := None;
             rresp_amount := rr_amount (refund_of order1_tid 4000);
             rresp_error :=
               Some ("Refund processing error: " ++ exn_str db_error) |},
       w')
    /\ payments w'
       = update_where_id (id (first_payment world_captured))
           (set_status
              (if rr_amount (refund_of order1_tid 4000)
                  >=? amount (first_payment world_captured)
               then REFUNDED else PARTIALLY_REFUNDED)
              (clock (store_outage_env 9 1) (S (clock_reads world_captured))))
           (payments world_captured)
    /\ refunds w' = refunds world_captured
    /\ publish_log w' = publish_log world_captured
    /\ gateway_log w'
       = (gateway_log world_captured
          ++ [GwRefund (rr_transaction_id (refund_of order1_tid 4000))
                (rr_amount (refund_of order1_tid 4000))
                (rr_reason (refund_of order1_tid 4000))])%list.
Proof.
  apply (refund_stops_after_status_update (store_outage_env 9 1)
           (refund_of order1_tid 4000) world_captured
           (db_tick world_captured) (first_payment world_captured) db_error).
  - exact world_captured_keyed.
  - vm_compute. reflexivity.
  - vm_compute. reflexivity.
  - vm_compute. reflexivity.
  - vm_compute. reflexivity.
  - vm_compute. reflexivity.
  - vm_compute. reflexivity.
Defined.
